(** * Statement import service: value parsers, page-layout reconstruction,
    classification and the staged-review-to-commit workflow.

    A shallow embedding of [statement-import.js], in its revision with UUID
    keys, together with the [transactions] table of [schema.sql], and the
    properties of the import pipeline proved over it.

    - Strings are sequences of UTF-16 code units; regular expressions are
      written out as matchers on them, each next to the pattern it stands
      for.
    - Numbers are exact decimals, with [NaN] and the infinities apart.
    - A table is the list of its rows in storage order; a nullable column is
      an [option]; a statement that PostgreSQL refuses returns an error
      value, which the caller handles as the route handles the exception.
    - [new Date(str)], the host's own date parser, is a parameter; so are
      the input conversions of PostgreSQL in the upload route.  The
      tokenizer of delimited text and the reader of PDF files are libraries:
      what they return is the input of the functions modelled here. *)

From Stdlib Require Import String Ascii.
From Stdlib Require Import NArith ZArith QArith Qabs Qminmax Bool Lia List Sorted.
From Stdlib Require Import Permutation.
Import ListNotations.

Set Implicit Arguments.

(* ================================================================== *)
(** * JavaScript strings *)
(* ================================================================== *)

(** A JavaScript string is a sequence of UTF-16 code units.  Case mapping is
    modelled on the ASCII letters; other code units are left unchanged. *)
Module JsString.

Definition char := N.
Definition str := list char.

Definition lit (s : string) : str :=
  map N_of_ascii (list_ascii_of_string s).

Arguments lit s%_string.

Fixpoint str_eqb (a b : str) : bool :=
  match a, b with
  | [], [] => true
  | x :: a', y :: b' => N.eqb x y && str_eqb a' b'
  | _, _ => false
  end.

Definition in_range (lo hi c : N) : bool := (N.leb lo c) && (N.leb c hi).

Definition is_digit (c : char) : bool := in_range 48 57 c.
Definition is_upper (c : char) : bool := in_range 65 90 c.
Definition is_lower (c : char) : bool := in_range 97 122 c.
Definition is_alpha (c : char) : bool := is_upper c || is_lower c.
(** [\w] *)
Definition is_word (c : char) : bool :=
  is_alpha c || is_digit c || N.eqb c 95.

Definition is_line_terminator (c : char) : bool :=
  N.eqb c 10 || N.eqb c 13 || N.eqb c 8232 || N.eqb c 8233.

(** [\s], which is also the set removed by [trim]. *)
Definition is_space (c : char) : bool :=
  in_range 9 13 c || N.eqb c 32 || N.eqb c 160 || N.eqb c 5760
  || in_range 8192 8202 c || N.eqb c 8232 || N.eqb c 8233
  || N.eqb c 8239 || N.eqb c 8287 || N.eqb c 12288 || N.eqb c 65279.

Definition lower_char (c : char) : char :=
  if is_upper c then (c + 32)%N else c.

Definition toLowerCase (s : str) : str := map lower_char s.

Fixpoint startsWith (p s : str) : bool :=
  match p, s with
  | [], _ => true
  | x :: p', y :: s' => N.eqb x y && startsWith p' s'
  | _ :: _, [] => false
  end.

(** [s.includes(p)] *)
Fixpoint includes (s p : str) : bool :=
  startsWith p s ||
  match s with
  | [] => false
  | _ :: t => includes t p
  end.

(** Tests against a literal. *)
Definition has (t : str) (s : string) : bool := includes t (lit s).
Definition equals (t : str) (s : string) : bool := str_eqb t (lit s).
Arguments has t s%_string.
Arguments equals t s%_string.

Fixpoint dropWhile (f : char -> bool) (s : str) : str :=
  match s with
  | [] => []
  | c :: t => if f c then dropWhile f t else s
  end.

Fixpoint span (f : char -> bool) (s : str) : str * str :=
  match s with
  | [] => ([], [])
  | c :: t =>
      if f c then let (a, r) := span f t in (c :: a, r) else ([], s)
  end.

Definition trimStart (s : str) : str := dropWhile is_space s.
Definition trimEnd (s : str) : str := rev (dropWhile is_space (rev s)).
Definition trim (s : str) : str := trimEnd (trimStart s).

Fixpoint join (sep : str) (l : list str) : str :=
  match l with
  | [] => []
  | [a] => a
  | a :: rest => a ++ sep ++ join sep rest
  end.

(** [s.padStart(2,'0')] *)
Definition padStart2 (s : str) : str :=
  repeat 48%N (2 - length s) ++ s.

(** [s.split(/\s+/)] *)
Fixpoint split_ws_from (cur : str) (insep : bool) (s : str) : list str :=
  match s with
  | [] => [rev cur]
  | c :: t =>
      if is_space c
      then if insep then split_ws_from [] true t
           else rev cur :: split_ws_from [] true t
      else split_ws_from (c :: cur) false t
  end.

Definition split_ws (s : str) : list str := split_ws_from [] false s.

(** [s.replace(/\s+/g, ' ')] *)
Fixpoint collapse_ws_from (insep : bool) (s : str) : str :=
  match s with
  | [] => []
  | c :: t =>
      if is_space c
      then if insep then collapse_ws_from true t
           else 32%N :: collapse_ws_from true t
      else c :: collapse_ws_from false t
  end.

Definition collapse_ws (s : str) : str := collapse_ws_from false s.

(** [s.replace(/X/g, '')] for a character class [X]. *)
Definition remove (f : char -> bool) (s : str) : str :=
  filter (fun c => negb (f c)) s.

(** A JavaScript value used as a condition: the empty string is falsy. *)
Definition truthy (s : str) : bool :=
  match s with [] => false | _ => true end.

End JsString.

Import JsString.

(* ================================================================== *)
(** * JavaScript numbers *)
(* ================================================================== *)

(** Finite numbers are kept as exact rationals: the decimal a numeral
    denotes, not its nearest binary64. *)
Module JsNumber.

Inductive num : Type :=
| NaN
| Inf (neg : bool)
| Num (q : Q).

Definition zero : num := Num 0.

Definition digit_val (c : char) : Z := Z.of_N c - 48.

Definition digits_val (ds : str) : Z :=
  fold_left (fun acc c => (acc * 10 + digit_val c)%Z) ds 0%Z.

Definition pow10 (e : Z) : Q := Qpower (10 # 1) e.

Definition is_minus (c : char) : bool := N.eqb c 45.
Definition is_plus (c : char) : bool := N.eqb c 43.
Definition is_point (c : char) : bool := N.eqb c 46.

(** An optional sign: whether it is a minus, and what follows it. *)
Definition signed (s : str) : bool * str :=
  match s with
  | c :: t =>
      if is_minus c then (true, t)
      else if is_plus c then (false, t)
      else (false, s)
  | [] => (false, s)
  end.

(** ExponentPart: [e] or [E], an optional sign, at least one digit.  An
    incomplete exponent is not part of the numeral. *)
Definition exponent (s : str) : Z :=
  match s with
  | c :: t =>
      if N.eqb c 101 || N.eqb c 69 then
        let (neg, t') := signed t in
        let (ds, _) := span is_digit t' in
        match ds with
        | [] => 0%Z
        | _ => if neg then (- digits_val ds)%Z else digits_val ds
        end
      else 0%Z
  | [] => 0%Z
  end.

(** [parseFloat]: leading white space is skipped, then the longest prefix
    that is a StrDecimalLiteral is converted. *)
Definition parseFloat (s : str) : num :=
  let (neg, s1) := signed (trimStart s) in
  if startsWith (lit "Infinity") s1 then Inf neg
  else
    let (ip, r1) := span is_digit s1 in
    let (fp, r2) :=
      match r1 with
      | c :: t => if is_point c then span is_digit t else ([], r1)
      | [] => ([], r1)
      end in
    match ip ++ fp with
    | [] => NaN
    | ds =>
        let mant : Q :=
          Qmake (digits_val ds) (Z.to_pos (10 ^ Z.of_nat (length fp))) in
        let v := Qmult mant (pow10 (exponent r2)) in
        Num (if neg then Qopp v else v)
    end.

Definition isNaN (n : num) : bool :=
  match n with NaN => true | _ => false end.

(** [Math.abs] *)
Definition abs (n : num) : num :=
  match n with
  | NaN => NaN
  | Inf _ => Inf false
  | Num q => Num (Qabs q)
  end.

(** [n === 0] *)
Definition is_zero (n : num) : bool :=
  match n with
  | Num q => Qeq_bool q 0
  | _ => false
  end.

(** [n > 0] *)
Definition gt0 (n : num) : bool :=
  match n with
  | Num q => negb (Qle_bool q 0)
  | Inf neg => negb neg
  | NaN => false
  end.


End JsNumber.

Import JsNumber.

(* ================================================================== *)
(** * Value parsers *)
(* ================================================================== *)

Module Parsers.

(** [[\/\-.]] *)
Definition is_date_sep (c : char) : bool :=
  N.eqb c 47 || N.eqb c 45 || N.eqb c 46.

(** [[\s\-]] *)
Definition is_space_or_dash (c : char) : bool :=
  is_space c || N.eqb c 45.

(** [X{lo,hi}] for a class [X], where what follows in the pattern cannot
    begin with an [X]: the whole run of [X] is taken and its length must lie
    within the bounds. *)
Definition run (f : char -> bool) (lo hi : nat) (s : str)
  : option (str * str) :=
  let (a, r) := span f s in
  if (lo <=? length a)%nat && (length a <=? hi)%nat
  then Some (a, r) else None.

(** One character of a class. *)
Definition one (f : char -> bool) (s : str) : option str :=
  match s with
  | c :: t => if f c then Some t else None
  | [] => None
  end.

(** [^(\d{1,2})[\/\-.](\d{1,2})[\/\-.](\d{lo,hi})$] *)
Definition match_dmy (lo hi : nat) (s : str) : option (str * str * str) :=
  match run is_digit 1 2 s with
  | Some (d, r1) =>
      match one is_date_sep r1 with
      | Some r2 =>
          match run is_digit 1 2 r2 with
          | Some (m, r3) =>
              match one is_date_sep r3 with
              | Some r4 =>
                  match run is_digit lo hi r4 with
                  | Some (y, []) => Some (d, m, y)
                  | _ => None
                  end
              | None => None
              end
          | None => None
          end
      | None => None
      end
  | None => None
  end.

(** [^(\d{4})[\/\-.](\d{1,2})[\/\-.](\d{1,2})$] *)
Definition match_ymd (s : str) : option (str * str * str) :=
  match run is_digit 4 4 s with
  | Some (y, r1) =>
      match one is_date_sep r1 with
      | Some r2 =>
          match run is_digit 1 2 r2 with
          | Some (m, r3) =>
              match one is_date_sep r3 with
              | Some r4 =>
                  match run is_digit 1 2 r4 with
                  | Some (d, []) => Some (y, m, d)
                  | _ => None
                  end
              | None => None
              end
          | None => None
          end
      | None => None
      end
  | None => None
  end.

(** [^(\d{1,2})[\s\-]([A-Za-z]{3})[\s\-](\d{2,4})$] *)
Definition match_dMony (s : str) : option (str * str * str) :=
  match run is_digit 1 2 s with
  | Some (d, r1) =>
      match one is_space_or_dash r1 with
      | Some r2 =>
          match run is_alpha 3 3 r2 with
          | Some (mon, r3) =>
              match one is_space_or_dash r3 with
              | Some r4 =>
                  match run is_digit 2 4 r4 with
                  | Some (y, []) => Some (d, mon, y)
                  | _ => None
                  end
              | None => None
              end
          | None => None
          end
      | None => None
      end
  | None => None
  end.

Definition months : list (str * str) :=
  map (fun p => (lit (fst p), lit (snd p)))
    [("jan","01"); ("feb","02"); ("mar","03"); ("apr","04");
     ("may","05"); ("jun","06"); ("jul","07"); ("aug","08");
     ("sep","09"); ("oct","10"); ("nov","11"); ("dec","12")]%string.

Fixpoint lookup_month (k : str) (l : list (str * str)) : option str :=
  match l with
  | [] => None
  | (a, v) :: rest => if str_eqb a k then Some v else lookup_month k rest
  end.

(** [parseInt] of a string of decimal digits. *)
Definition parseInt (s : str) : Z := digits_val s.

Definition dash : str := lit "-".

Section WithNativeDate.

(** [new Date(str)] followed by [toISOString().split('T')[0]]: the
    host's calendar-text parser, [None] when the date is invalid. *)
Variable nativeDate : str -> option str.

Definition parseDate (input : str) : option str :=
  match input with
  | [] => None
  | _ =>
      let s := trim input in
      match match_dmy 4 4 s with
      | Some (d, m, y) =>
          Some (y ++ dash ++ padStart2 m ++ dash ++ padStart2 d)
      | None =>
          match match_dmy 2 2 s with
          | Some (d, m, y) =>
              let yr :=
                if (50 <? parseInt y)%Z then lit "19" ++ y
                else lit "20" ++ y in
              Some (yr ++ dash ++ padStart2 m ++ dash ++ padStart2 d)
          | None =>
              match match_ymd s with
              | Some (y, m, d) =>
                  Some (y ++ dash ++ padStart2 m ++ dash ++ padStart2 d)
              | None =>
                  let fallback := nativeDate s in
                  match match_dMony s with
                  | Some (d, mon3, y) =>
                      match lookup_month (toLowerCase mon3) months with
                      | Some mon =>
                          let yr :=
                            if (length y =? 2)%nat then lit "20" ++ y
                            else y in
                          Some (yr ++ dash ++ mon ++ dash ++ padStart2 d)
                      | None => fallback
                      end
                  | None => fallback
                  end
              end
          end
      end
  end.

End WithNativeDate.

(** The rupee sign. *)
Definition rupee : char := 8377%N.

Definition is_rupee_or_space (c : char) : bool := N.eqb c rupee || is_space c.
Definition is_comma (c : char) : bool := N.eqb c 44.

Definition parseAmount (input : str) : num :=
  match input with
  | [] => zero
  | _ =>
      let s := remove is_rupee_or_space (trim input) in
      let cleaned := remove is_comma s in
      let n := parseFloat cleaned in
      if isNaN n then zero else abs n
  end.

End Parsers.

Import Parsers.

(* ================================================================== *)
(** * Ordering helpers *)
(* ================================================================== *)

(** [Array.prototype.sort] and [ORDER BY] are modelled by a stable insertion
    sort: elements that compare equal keep their relative order. *)
Module Order.

Section Sort.
Variable A : Type.
Variable le : A -> A -> bool.

Fixpoint insert_by (a : A) (l : list A) : list A :=
  match l with
  | [] => [a]
  | b :: t => if le a b then a :: l else b :: insert_by a t
  end.

Definition sort_by (l : list A) : list A :=
  fold_right insert_by [] l.
End Sort.

End Order.

Import Order.

(* ================================================================== *)
(** * Page-layout reconstructor *)
(* ================================================================== *)

Module Pdf.

(** A positioned text item: [{ text, x, y, page }]. *)
Record item : Type := mkItem { text : str; x : Z; y : Z; page : Z }.

(** [transaction_type]: ['debit'] is an outflow, ['credit'] an inflow. *)
Inductive direction : Type := Debit | Credit.

Definition direction_eqb (a b : direction) : bool :=
  match a, b with
  | Debit, Debit | Credit, Credit => true
  | _, _ => false
  end.

(** A raw transaction candidate. *)
Record candidate : Type := mkCandidate {
  date : str;
  description : str;
  amount : num;
  transaction_type : direction;
  balance : option num
}.

(** A row of the page: its items ordered by [x] and the row text. *)
Record textRow : Type := mkRow { items : list item; rtext : str }.

(** Items with blank text are dropped and the text is trimmed. *)
Definition collect (glyphs : list item) : list item :=
  map (fun g => mkItem (trim (text g)) (x g) (y g) (page g))
    (filter (fun g => truthy (text g) && truthy (trim (text g))) glyphs).

(** [a.page - b.page || a.y - b.y || a.x - b.x] *)
Definition item_le (a b : item) : bool :=
  if negb (Z.eqb (page a) (page b)) then Z.leb (page a) (page b)
  else if negb (Z.eqb (y a) (y b)) then Z.leb (y a) (y b)
  else Z.leb (x a) (x b).

Definition flush (cur : list item) : list (list item) :=
  match cur with [] => [] | _ => [cur] end.

(** Items within 4 units of the first item of the current row, on the same
    page, join that row. *)
Fixpoint group_rows (cur : list item) (currentY currentPage : Z)
         (l : list item) : list (list item) :=
  match l with
  | [] => flush cur
  | it :: t =>
      if negb (Z.eqb (page it) currentPage)
         || Z.ltb 4 (Z.abs (y it - currentY))
      then flush cur ++ group_rows [it] (y it) (page it) t
      else group_rows (cur ++ [it]) currentY currentPage t
  end.

Definition double_space : str := lit "  ".

Definition make_row (row : list item) : textRow :=
  let sorted := sort_by (fun a b => Z.leb (x a) (x b)) row in
  mkRow sorted (join double_space (map text sorted)).

Definition textRows_of (glyphs : list item) : list textRow :=
  map make_row
    (group_rows [] (-999) (-1) (sort_by item_le (collect glyphs))).

(** ** Bank type *)

Definition detectBankType (rows : list textRow) : str :=
  let fullText := toLowerCase (join (lit " ") (map rtext rows)) in
  let base :=
    if has fullText "hdfc bank" then lit "hdfc"
    else if has fullText "state bank of india" || has fullText "sbi" then lit "sbi"
    else if has fullText "icici bank" then lit "icici"
    else if has fullText "axis bank" then lit "axis"
    else if has fullText "kotak" then lit "kotak"
    else lit "generic" in
  if has fullText "credit card" || has fullText "card number" || has fullText "card no"
  then base ++ lit "_cc" else base.

(** [bankType.includes('_cc')] *)
Definition is_credit_card (bankType : str) : bool :=
  includes bankType (lit "_cc").

(** ** Header detection *)

Definition headerKeywords : list str :=
  map lit ["date"; "narration"; "description"; "particulars"; "withdrawal";
           "deposit"; "debit"; "credit"; "balance"; "chq"; "ref"]%string.

Definition matchCount (row : textRow) : nat :=
  let rowText := toLowerCase (rtext row) in
  length (filter (fun k => includes rowText k) headerKeywords).

(** Index of the first row with at least three keywords; [None] is the
    source's [-1]. *)
Fixpoint headerRowIdx_from (i : nat) (rows : list textRow) : option nat :=
  match rows with
  | [] => None
  | r :: rest =>
      if (3 <=? matchCount r)%nat then Some i
      else headerRowIdx_from (S i) rest
  end.

Definition headerRowIdx (rows : list textRow) : option nat :=
  headerRowIdx_from 0 rows.

(** ** Column anchors *)

Record colMap : Type := mkColMap {
  c_date : option Z;
  c_narration : option Z;
  c_ref : option Z;
  c_valueDate : option Z;
  c_withdrawal : option Z;
  c_deposit : option Z;
  c_balance : option Z
}.

Definition emptyColMap : colMap :=
  mkColMap None None None None None None None.

(** A column position used as a condition: [null] and [0] are falsy. *)
Definition set (o : option Z) : bool :=
  match o with
  | Some v => negb (Z.eqb v 0)
  | None => false
  end.

Definition assign_column (cm : colMap) (it : item) : colMap :=
  let t := toLowerCase (text it) in
  let px := Some (x it) in
  if has t "date" && negb (has t "value") && negb (set (c_date cm)) then
    mkColMap px (c_narration cm) (c_ref cm) (c_valueDate cm)
             (c_withdrawal cm) (c_deposit cm) (c_balance cm)
  else if (has t "value" && has t "dt") || (has t "value" && has t "date") then
    mkColMap (c_date cm) (c_narration cm) (c_ref cm) px
             (c_withdrawal cm) (c_deposit cm) (c_balance cm)
  else if has t "narration" || has t "description" || has t "particulars"
          || has t "detail" then
    mkColMap (c_date cm) px (c_ref cm) (c_valueDate cm)
             (c_withdrawal cm) (c_deposit cm) (c_balance cm)
  else if has t "chq" || has t "ref" || has t "cheque" then
    mkColMap (c_date cm) (c_narration cm) px (c_valueDate cm)
             (c_withdrawal cm) (c_deposit cm) (c_balance cm)
  else if has t "withdrawal" || has t "debit" || (equals t "dr" || equals t "dr.") then
    mkColMap (c_date cm) (c_narration cm) (c_ref cm) (c_valueDate cm)
             px (c_deposit cm) (c_balance cm)
  else if has t "deposit" || has t "credit" || (equals t "cr" || equals t "cr.") then
    mkColMap (c_date cm) (c_narration cm) (c_ref cm) (c_valueDate cm)
             (c_withdrawal cm) px (c_balance cm)
  else if has t "balance" || has t "closing" then
    mkColMap (c_date cm) (c_narration cm) (c_ref cm) (c_valueDate cm)
             (c_withdrawal cm) (c_deposit cm) px
  else cm.

Definition minimum (l : list Z) : option Z :=
  match l with
  | [] => None
  | a :: t => Some (fold_left Z.min t a)
  end.

Definition maximum (l : list Z) : option Z :=
  match l with
  | [] => None
  | a :: t => Some (fold_left Z.max t a)
  end.

(** Two or more "amount" columns stand in for withdrawal and deposit. *)
Definition amount_columns (headerItems : list item) (cm : colMap) : colMap :=
  if negb (set (c_withdrawal cm)) && negb (set (c_deposit cm)) then
    let amtItems :=
      filter (fun i => has (toLowerCase (text i)) "amount"
                       || has (toLowerCase (text i)) "amt")
             headerItems in
    if (2 <=? length amtItems)%nat then
      mkColMap (c_date cm) (c_narration cm) (c_ref cm) (c_valueDate cm)
               (minimum (map x amtItems)) (maximum (map x amtItems))
               (c_balance cm)
    else cm
  else cm.

Definition columns_of (headerItems : list item) : colMap :=
  amount_columns headerItems (fold_left assign_column headerItems emptyColMap).

(** ** Header-anchored extraction *)

(** [/^\d{1,2}[\/\-\.]\d{1,2}[\/\-\.]\d{2,4}$/] *)
Definition dateRegex_test (s : str) : bool :=
  match match_dmy 2 4 s with Some _ => true | None => false end.

Definition is_digit_or_comma (c : char) : bool := is_digit c || is_comma c.
Definition is_comma_or_space (c : char) : bool := is_comma c || is_space c.

(** [/^[\d,]+\.\d{2}$/] *)
Definition numericRegex_test (s : str) : bool :=
  let (a, r) := span is_digit_or_comma s in
  match a, r with
  | _ :: _, c :: r' =>
      is_point c
      && match run is_digit 2 2 r' with
         | Some (_, []) => true
         | _ => false
         end
  | _, _ => false
  end.

(** [items[0]?.text || ''] *)
Definition first_text (r : textRow) : str :=
  match items r with
  | it :: _ => text it
  | [] => []
  end.

(** A summary row ends a transaction. *)
Definition is_terminal (first : str) : bool :=
  let t := toLowerCase first in
  has t "total" || has t "opening" || has t "closing" || has t "statement".

(** The rows after a transaction's first row that wrap its narration:
    their items, and the rows left. *)
Fixpoint continuation (rows : list textRow) : list item * list textRow :=
  match rows with
  | [] => ([], [])
  | nextRow :: rest =>
      let nextFirst := first_text nextRow in
      if dateRegex_test nextFirst then ([], rows)
      else if is_terminal nextFirst then ([], rows)
      else let (more, rest') := continuation rest in
           (items nextRow ++ more, rest')
  end.

Record fields : Type := mkFields {
  narrationParts : list str;
  withdrawal : num;
  deposit : num;
  bal : option num;
  refNo : str
}.

Definition emptyFields : fields := mkFields [] zero zero None [].

Inductive column : Type := Withdrawal | Deposit | Balance.

Definition distance (c : column) (anchor : option Z) (px : Z)
  : list (column * Z) :=
  match anchor with
  | Some v => if Z.eqb v 0 then [] else [(c, Z.abs (px - v))]
  | None => []
  end.

(** The [distances] object, in insertion order. *)
Definition distances (cm : colMap) (px : Z) : list (column * Z) :=
  distance Withdrawal (c_withdrawal cm) px
  ++ distance Deposit (c_deposit cm) px
  ++ distance Balance (c_balance cm) px.

Definition closest (cm : colMap) (px : Z) : option (column * Z) :=
  hd_error (sort_by (fun a b => Z.leb (snd a) (snd b)) (distances cm px)).

(** [anchor && Math.abs(px - anchor) < d] *)
Definition near (anchor : option Z) (px d : Z) : bool :=
  match anchor with
  | Some v => negb (Z.eqb v 0) && Z.ltb (Z.abs (px - v)) d
  | None => false
  end.

Definition push_narration (f : fields) (t : str) : fields :=
  mkFields (narrationParts f ++ [t]) (withdrawal f) (deposit f) (bal f)
           (refNo f).

(** One item of a transaction is assigned to a column, to the reference
    number or to the narration. *)
Definition place (cm : colMap) (f : fields) (it : item) : fields :=
  let t := text it in
  if numericRegex_test (trim (remove is_comma t))
     || numericRegex_test (remove is_comma_or_space t)
  then
    let val := parseAmount t in
    if is_zero val then f
    else
      match closest cm (x it) with
      | Some (Withdrawal, _) =>
          mkFields (narrationParts f) val (deposit f) (bal f) (refNo f)
      | Some (Deposit, _) =>
          mkFields (narrationParts f) (withdrawal f) val (bal f) (refNo f)
      | Some (Balance, _) =>
          mkFields (narrationParts f) (withdrawal f) (deposit f) (Some val)
                   (refNo f)
      | None => f
      end
  else if near (c_ref cm) (x it) 60 then
    if (5 <=? length (fst (span is_digit t)))%nat
    then mkFields (narrationParts f) (withdrawal f) (deposit f) (bal f)
                  (trim (refNo f ++ lit " " ++ t))
    else push_narration f t
  else if near (c_valueDate cm) (x it) 40 && dateRegex_test t then f
  else push_narration f t.

(** A transaction is kept when it has an amount and a narration.  The
    direction comes from the column in which the amount was found. *)
Definition finish (d : str) (f : fields) : list candidate :=
  let desc := trim (collapse_ws (join (lit " ") (narrationParts f))) in
  let '(amt, txType) :=
    if gt0 (withdrawal f) then (withdrawal f, Debit)
    else if gt0 (deposit f) then (deposit f, Credit)
    else (zero, Debit) in
  if gt0 amt && (0 <? length desc)%nat
  then [mkCandidate d
          (if truthy (refNo f)
           then desc ++ lit " [Ref: " ++ refNo f ++ lit "]" else desc)
          amt txType (bal f)]
  else [].

(** ** Line-based extraction *)

(** The part of [s] consumed when [rest] is left. *)
Definition prefix_of (s rest : str) : str :=
  firstn (length s - length rest) s.

(** [X{lo,hi}] at the end of a pattern: as many [X] as there are, up to
    [hi]. *)
Definition upto (f : char -> bool) (lo hi : nat) (s : str) : option str :=
  let k := Nat.min (length (fst (span f s))) hi in
  if (lo <=? k)%nat then Some (skipn k s) else None.

Definition bind {A B : Type} (o : option A) (k : A -> option B) : option B :=
  match o with
  | Some a => k a
  | None => None
  end.

(** [\d{1,2}[\/\-\.]\d{1,2}[\/\-\.]\d{2,4}] at the start of [s]: what is
    left after it. *)
Definition after_numeric_date (s : str) : option str :=
  bind (run is_digit 1 2 s) (fun p1 =>
  bind (one is_date_sep (snd p1)) (fun r2 =>
  bind (run is_digit 1 2 r2) (fun p3 =>
  bind (one is_date_sep (snd p3)) (fun r4 =>
  upto is_digit 2 4 r4)))).

(** [\d{1,2}[\s\-][A-Za-z]{3}[\s\-]\d{2,4}] at the start of [s]. *)
Definition after_month_date (s : str) : option str :=
  bind (run is_digit 1 2 s) (fun p1 =>
  bind (one is_space_or_dash (snd p1)) (fun r2 =>
  bind (run is_alpha 3 3 r2) (fun p3 =>
  bind (one is_space_or_dash (snd p3)) (fun r4 =>
  upto is_digit 2 4 r4)))).

(** [line.match(dateRegex)]: the matched prefix and what follows it. *)
Definition dateRegex_match (line : str) : option (str * str) :=
  match after_numeric_date line with
  | Some rest => Some (prefix_of line rest, rest)
  | None =>
      match after_month_date line with
      | Some rest => Some (prefix_of line rest, rest)
      | None => None
      end
  end.

(** [[\d,]+\.\d{2}] at the start of [s]: the matched text. *)
Definition amount_at (s : str) : option str :=
  let (a, r) := span is_digit_or_comma s in
  match a, r with
  | _ :: _, c :: d1 :: d2 :: _ =>
      if is_point c && is_digit d1 && is_digit d2
      then Some (a ++ [c; d1; d2])
      else None
  | _, _ => None
  end.

(** Every match of [/[\d,]+\.\d{2}/g], left to right; [skip] counts the
    characters still covered by the previous match. *)
Fixpoint scan_amounts (skip : nat) (s : str) : list str :=
  match s with
  | [] => []
  | _ :: t =>
      match skip with
      | S k => scan_amounts k t
      | O =>
          match amount_at s with
          | Some m => m :: scan_amounts (length m - 1) t
          | None => scan_amounts 0 t
          end
      end
  end.

(** [\s*[\d,]+\.\d{2}] at the start of [s]. *)
Definition amount_after_space (s : str) : bool :=
  match amount_at (dropWhile is_space s) with
  | Some _ => true
  | None => false
  end.

(** The lazy group of [/^\s*(.*?)\s*[\d,]+\.\d{2}/], once the leading
    white space is consumed: the shortest text, free of line terminators,
    after which an amount follows. *)
Fixpoint lazy_group (s : str) : option str :=
  if amount_after_space s then Some []
  else
    match s with
    | [] => None
    | c :: t =>
        if is_line_terminator c then None
        else match lazy_group t with
             | Some g => Some (c :: g)
             | None => None
             end
    end.

Definition cc_markers : list str :=
  map lit ["cr"; "credit"; "refund"; "cashback"; "reversal";
           "payment received"]%string.

(** One of the markers starts here and ends at a word boundary. *)
Definition marker_at (s : str) : bool :=
  existsb (fun m =>
             startsWith m (toLowerCase s)
             && match skipn (length m) s with
                | [] => true
                | c :: _ => negb (is_word c)
                end)
          cc_markers.

(** [/\b(cr|credit|refund|cashback|reversal|payment received)\b/i.test] *)
Fixpoint marker_from (prev_is_word : bool) (s : str) : bool :=
  (negb prev_is_word && marker_at s)
  || match s with
     | [] => false
     | c :: t => marker_from (is_word c) t
     end.

Definition cc_marker_test (line : str) : bool := marker_from false line.

(** The amount, direction and balance read off the amounts of a line. *)
Definition pick_amount (amounts : list num) : num * direction * option num :=
  let n := length amounts in
  let a0 := nth 0 amounts zero in
  let a1 := nth 1 amounts zero in
  let lastv := last amounts zero in
  if (3 <=? n)%nat then
    if gt0 a0 && ((n <? 3)%nat || is_zero a1) then (a0, Debit, Some lastv)
    else if gt0 a1 then (a1, Credit, Some lastv)
    else (a0, Debit, Some lastv)
  else if (n =? 2)%nat then (a0, Debit, Some a1)
  else (a0, Debit, None).

Section WithNativeDate.

Variable nativeDate : str -> option str.

(** The loop over the rows after the header.  Each turn consumes at
    least one row, so [fuel] equal to the number of rows is enough. *)
Fixpoint extract_rows (fuel : nat) (cm : colMap) (rows : list textRow)
  : list candidate :=
  match fuel with
  | O => []
  | S fuel' =>
      match rows with
      | [] => []
      | row :: rest =>
          let firstItemText := first_text row in
          if negb (dateRegex_test firstItemText)
          then extract_rows fuel' cm rest
          else
            match parseDate nativeDate firstItemText with
            | None => extract_rows fuel' cm rest
            | Some d =>
                let (more, rest') := continuation rest in
                let txItems := items row ++ more in
                (* the first item is the date itself *)
                finish d (fold_left (place cm) (tl txItems) emptyFields)
                ++ extract_rows fuel' cm rest'
            end
      end
  end.

(** One row of the line-based extractor; [next] is the text of the
    following row, if any. *)
Definition line_candidate (bankType : str) (line : str)
           (next : option str) : list candidate :=
  match dateRegex_match line with
  | None => []
  | Some (matched, afterDate) =>
      match parseDate nativeDate matched with
      | None => []
      | Some d =>
          let amounts := map parseAmount (scan_amounts 0 afterDate) in
          match amounts with
          | [] => []
          | _ =>
              let desc0 :=
                match lazy_group (trimStart afterDate) with
                | Some g => trim (collapse_ws g)
                | None => []
                end in
              let desc :=
                match next with
                | Some nxt =>
                    if (length desc0 <? 5)%nat
                       && match dateRegex_match nxt with
                          | Some _ => false
                          | None => true
                          end
                    then trim (desc0 ++ lit " " ++ nxt)
                    else desc0
                | None => desc0
                end in
              let '(amt, txType0, balance0) := pick_amount amounts in
              let txType :=
                if is_credit_card bankType
                then if cc_marker_test line then Credit else Debit
                else txType0 in
              if gt0 amt
              then [mkCandidate d desc amt txType balance0]
              else []
          end
      end
  end.

Fixpoint parsePDFLineBased (textRows : list textRow) (bankType : str)
  : list candidate :=
  match textRows with
  | [] => []
  | row :: rest =>
      line_candidate bankType (rtext row)
        (match rest with
         | nxt :: _ => Some (rtext nxt)
         | [] => None
         end)
      ++ parsePDFLineBased rest bankType
  end.

(** [parsePDF] once the rows of the document are built. *)
Definition parsePDF_rows (textRows : list textRow) : list candidate :=
  let bankType := detectBankType textRows in
  match headerRowIdx textRows with
  | None => parsePDFLineBased textRows bankType
  | Some i =>
      let headerItems :=
        match nth_error textRows i with
        | Some r => items r
        | None => []
        end in
      let data := skipn (S i) textRows in
      extract_rows (length data) (columns_of headerItems) data
  end.

Definition parsePDF (glyphs : list item) : list candidate :=
  parsePDF_rows (textRows_of glyphs).

End WithNativeDate.

End Pdf.

Import Pdf.

(* ================================================================== *)
(** * Tables *)
(* ================================================================== *)

(** The rows of [staged_transactions], [category_rules], [accounts] and
    [transactions].  A nullable column is an [option].  Surrogate keys that
    no statement of the service reads ([category_rules.id],
    [transactions.transaction_id]), time stamps and [raw_text] are left out.
    Amounts are [DECIMAL(15,2)] values counted in hundredths; dates are day
    numbers. *)
Module Schema.

Definition uuid := N.
Definition date := Z.
Definition money := Z.

Record staged_transaction : Type := mkStaged {
  st_id : Z;
  st_user_id : uuid;
  st_batch_id : str;
  st_date : option date;
  st_description : option str;
  st_amount : option money;
  st_transaction_type : option str;
  st_balance : option money;
  st_suggested_category : option str;
  st_suggested_debit_account_id : option uuid;
  st_suggested_credit_account_id : option uuid;
  st_confidence : option Z;
  st_status : option str;
  st_source_file : option str
}.

Record category_rule : Type := mkRule {
  rule_user_id : uuid;
  rule_pattern : str;
  rule_category : option str;
  rule_debit_account_id : option uuid;
  rule_credit_account_id : option uuid;
  rule_hit_count : Z
}.

Record account : Type := mkAccount {
  acc_account_id : uuid;
  acc_user_id : uuid;
  acc_account_name : str;
  acc_account_type : str;
  acc_sub_type : option str
}.

Record ledger_transaction : Type := mkTransaction {
  tx_user_id : uuid;
  tx_date : date;
  tx_amount : money;
  tx_description : option str;
  tx_debit_account_id : uuid;
  tx_credit_account_id : uuid;
  tx_category : option str
}.

Record db : Type := mkDb {
  users : list uuid;
  accounts : list account;
  transactions : list ledger_transaction;
  staged_transactions : list staged_transaction;
  category_rules : list category_rule
}.

(** ** SQL comparisons: a comparison with [NULL] is not true. *)

Definition sql_eq {A : Type} (eqb : A -> A -> bool) (a b : option A) : bool :=
  match a, b with
  | Some p, Some q => eqb p q
  | _, _ => false
  end.

Definition sql_neq {A : Type} (eqb : A -> A -> bool) (a b : option A) : bool :=
  match a, b with
  | Some p, Some q => negb (eqb p q)
  | _, _ => false
  end.

(** JavaScript [===] on a value that may be [null]. *)
Definition js_eq (a : option str) (b : str) : bool :=
  match a with
  | Some p => str_eqb p b
  | None => false
  end.

(** [VARCHAR(n)] accepts a value of at most [n] characters. *)
Definition fits (n : nat) (v : option str) : bool :=
  match v with
  | Some s => (length s <=? n)%nat
  | None => true
  end.

Definition int_max : Z := 2147483647.

Definition Uncategorized : str := lit "Uncategorized".
Definition rejected : str := lit "rejected".
Definition pending : str := lit "pending".

End Schema.

Import Schema.

(* ================================================================== *)
(** * Classification engine *)
(* ================================================================== *)

Module Classify.

(** A candidate with its suggestion. *)
Record classified : Type := mkClassified {
  tx : candidate;
  suggested_category : option str;
  suggested_debit_account_id : option uuid;
  suggested_credit_account_id : option uuid;
  confidence : Q
}.

Definition defaultRules : list (list str * str) :=
  map (fun r => (map lit (fst r), lit (snd r)))
    [ (["swiggy"; "zomato"; "uber eats"; "food"; "restaurant"; "hotel";
        "dhaba"; "cafe"; "pizza"; "dominos"; "mcdonalds"; "kfc"; "burger"],
       "Food");
      (["bigbasket"; "blinkit"; "zepto"; "dmart"; "grocery";
        "reliance fresh"; "nature basket"; "more supermarket";
        "supermarket"; "milk"; "vegetables"], "Grocery");
      (["amazon"; "flipkart"; "myntra"; "ajio"; "meesho"; "nykaa";
        "shopping"; "croma"; "reliance digital"], "Shopping");
      (["uber"; "ola"; "rapido"; "metro"; "irctc"; "railway"; "makemytrip";
        "goibibo"; "cleartrip"; "yatra"; "indigo"; "air india"; "spicejet";
        "vistara"; "bus"; "cab"], "Travel");
      (["petrol"; "diesel"; "fuel"; "hp pump"; "bharat petroleum";
        "indian oil"; "shell"; "bpcl"; "hpcl"; "iocl"], "Fuel");
      (["netflix"; "hotstar"; "prime video"; "spotify"; "youtube"; "disney";
        "zee5"; "sony liv"; "jio cinema"; "subscription"], "Subscription");
      (["electricity"; "bescom"; "tata power"; "adani"; "torrent power";
        "light bill"; "water"; "gas"; "lpg"; "pipeline"], "Utilities");
      (["airtel"; "jio"; "vodafone"; "vi "; "bsnl"; "mobile"; "recharge";
        "broadband"; "wifi"; "internet"; "act fibernet"], "Telecom");
      (["lic"; "insurance"; "icici pru"; "hdfc life"; "sbi life";
        "max life"; "star health"; "bajaj allianz"; "policy"; "premium"],
       "Insurance");
      (["hospital"; "doctor"; "medical"; "pharma"; "medicine"; "apollo";
        "medplus"; "netmeds"; "practo"; "diagnostic"; "lab"; "pathology";
        "clinic"; "health"], "Medical");
      (["rent"; "house rent"; "pg rent"; "maintenance"; "society";
        "association"], "Housing");
      (["emi"; "loan"; "equated monthly"; "home loan"; "car loan";
        "personal loan"], "EMI Payment");
      (["salary"; "wages"; "payroll"; "stipend"], "Salary");
      (["interest"; "int."; "fd interest"; "rd interest";
        "savings interest"], "Interest");
      (["dividend"; "div."], "Dividend");
      (["atm"; "cash withdrawal"; "neft"; "rtgs"; "imps"; "upi";
        "transfer"], "Transfer");
      (["tax"; "tds"; "gst"; "income tax"; "advance tax";
        "self assessment"], "Tax");
      (["education"; "school"; "college"; "university"; "tuition";
        "course"; "exam"; "udemy"; "coursera"], "Education");
      (["gym"; "fitness"; "sports"; "movie"; "pvr"; "inox"; "bookmyshow";
        "entertainment"; "gaming"], "Entertainment");
      (["donation"; "charity"; "ngo"], "Donation") ]%string.

(** [desc.includes(rule.pattern.toLowerCase())] *)
Definition rule_matches (desc : str) (r : category_rule) : bool :=
  includes desc (toLowerCase (rule_pattern r)).

(** [rule.patterns.some(p => desc.includes(p))] *)
Definition default_matches (desc : str) (d : list str * str) : bool :=
  existsb (fun p => includes desc p) (fst d).

(** [Math.min(0.95, 0.7 + rule.hit_count * 0.05)] *)
Definition rule_confidence (hit_count : Z) : Q :=
  Qmin (95 # 100) ((70 # 100) + inject_Z hit_count * (5 # 100)).

(** The first account of the wanted type whose name contains the category.
    The category is lower-cased only when an account of that type is
    reached, and lower-casing [null] raises a TypeError: the outer [None]. *)
Definition find_account (wanted : str) (category : option str)
           (accs : list account) : option (option account) :=
  match category with
  | Some c =>
      Some (find (fun a => str_eqb (acc_account_type a) wanted
                           && includes (toLowerCase (acc_account_name a))
                                       (toLowerCase c))
                 accs)
  | None =>
      if existsb (fun a => str_eqb (acc_account_type a) wanted) accs
      then None else Some None
  end.

Definition or_else (a : option uuid) (b : uuid) : option uuid :=
  match a with
  | Some v => Some v
  | None => Some b
  end.

(** The body of the [map] over the candidates; [None] when it throws. *)
Definition classify_one (rules : list category_rule)
           (accs : list account) (sourceAccount : option account)
           (t : candidate) : option classified :=
  let desc := toLowerCase (description t) in
  (* 1. the user's learned rules *)
  let '(category, debitAccountId, creditAccountId, conf) :=
    match find (rule_matches desc) rules with
    | Some rule =>
        (rule_category rule, rule_debit_account_id rule,
         rule_credit_account_id rule,
         rule_confidence (rule_hit_count rule))
    | None => (Some Uncategorized, None, None, 0%Q)
    end in
  (* 2. the default rules *)
  let '(category, conf) :=
    if js_eq category Uncategorized then
      match find (default_matches desc) defaultRules with
      | Some d => (Some (snd d), (5 # 10)%Q)
      | None => (category, conf)
      end
    else (category, conf) in
  (* 3. accounts from the transaction type and the source account *)
  match sourceAccount with
  | None =>
      Some (mkClassified t category debitAccountId creditAccountId conf)
  | Some src =>
      match transaction_type t with
      | Debit =>
          let creditAccountId := or_else creditAccountId (acc_account_id src) in
          match debitAccountId with
          | Some _ =>
              Some (mkClassified t category debitAccountId creditAccountId
                                 conf)
          | None =>
              match find_account (lit "Expense") category accs with
              | Some expAcc =>
                  Some (mkClassified t category
                          (option_map acc_account_id expAcc)
                          creditAccountId conf)
              | None => None
              end
          end
      | Credit =>
          let debitAccountId := or_else debitAccountId (acc_account_id src) in
          match creditAccountId with
          | Some _ =>
              Some (mkClassified t category debitAccountId creditAccountId
                                 conf)
          | None =>
              match find_account (lit "Income") category accs with
              | Some incAcc =>
                  Some (mkClassified t category debitAccountId
                          (option_map acc_account_id incAcc) conf)
              | None => None
              end
          end
      end
  end.

Fixpoint traverse {A B : Type} (f : A -> option B) (l : list A)
  : option (list B) :=
  match l with
  | [] => Some []
  | a :: t =>
      match f a, traverse f t with
      | Some b, Some bs => Some (b :: bs)
      | _, _ => None
      end
  end.

(** [SELECT * FROM category_rules WHERE user_id = $1 ORDER BY hit_count
    DESC] *)
Definition rules_of (d : db) (userId : uuid) : list category_rule :=
  sort_by (fun a b => Z.leb (rule_hit_count b) (rule_hit_count a))
    (filter (fun r => N.eqb (rule_user_id r) userId) (category_rules d)).

(** [SELECT ... FROM accounts WHERE user_id = $1] *)
Definition accounts_of (d : db) (userId : uuid) : list account :=
  filter (fun a => N.eqb (acc_user_id a) userId) (accounts d).

Definition autoClassify (d : db) (userId : uuid)
           (transactions : list candidate) (sourceAccountId : option uuid)
  : option (list classified) :=
  let rules := rules_of d userId in
  let accs := accounts_of d userId in
  let sourceAccount :=
    match sourceAccountId with
    | Some sid => find (fun a => N.eqb (acc_account_id a) sid) accs
    | None => None
    end in
  traverse (classify_one rules accs sourceAccount) transactions.

End Classify.


Import Classify.

(* ================================================================== *)
(** * Staging, review and confirmation routes *)
(* ================================================================== *)

Module Routes.

(** ** The ledger table *)

Inductive pg_error : Type :=
| NotNullViolation
| CheckViolation
| ForeignKeyViolation
| StringDataRightTruncation
| NumericValueOutOfRange.

Inductive insert_result : Type :=
| Inserted (t : ledger_transaction)
| Refused (e : pg_error).

(** [INSERT INTO transactions (user_id, date, amount, description,
    debit_account_id, credit_account_id, category, created_at)] under the
    constraints of the [transactions] table: [date] and [amount] are
    [NOT NULL], [CHECK (amount > 0)],
    [CHECK (debit_account_id != credit_account_id)], and the user and both
    accounts are referenced rows. *)
Definition insert_transaction (us : list uuid) (accs : list account)
           (userId : uuid) (s : staged_transaction) (debit credit : uuid)
  : insert_result :=
  match st_date s, st_amount s with
  | Some d, Some a =>
      if negb (fits 100 (st_suggested_category s))
      then Refused StringDataRightTruncation
      else if negb (Z.ltb 0 a) then Refused CheckViolation
      else if N.eqb debit credit then Refused CheckViolation
      else if negb (existsb (N.eqb userId) us)
      then Refused ForeignKeyViolation
      else if negb (existsb (fun c => N.eqb (acc_account_id c) debit) accs)
      then Refused ForeignKeyViolation
      else if negb (existsb (fun c => N.eqb (acc_account_id c) credit) accs)
      then Refused ForeignKeyViolation
      else Inserted (mkTransaction userId d a (st_description s) debit credit
                                   (st_suggested_category s))
  | _, _ => Refused NotNullViolation
  end.

(** [SELECT transaction_id FROM transactions WHERE user_id = $1 AND date = $2
    AND amount = $3 AND description = $4 LIMIT 1] returns a row. *)
Definition is_duplicate (txs : list ledger_transaction) (userId : uuid)
           (s : staged_transaction) : bool :=
  existsb (fun t =>
             N.eqb (tx_user_id t) userId
             && sql_eq Z.eqb (Some (tx_date t)) (st_date s)
             && sql_eq Z.eqb (Some (tx_amount t)) (st_amount s)
             && sql_eq str_eqb (tx_description t) (st_description s))
          txs.

(** ** Rule learning *)

(** [description.replace(/[^a-zA-Z\s]/g, ' ').trim().split(/\s+/)
    .filter(w => w.length > 2)] *)
Definition rule_words (description : str) : list str :=
  filter (fun w => (2 <? length w)%nat)
    (split_ws
       (trim (map (fun c => if is_alpha c || is_space c then c else 32%N)
                  description))).

(** [words.slice(0, 4).join(' ').toLowerCase()] *)
Definition rule_pattern_of (description : str) : str :=
  toLowerCase (join (lit " ") (firstn 4 (rule_words description))).

Definition same_key (userId : uuid) (pattern : str) (r : category_rule) : bool :=
  N.eqb (rule_user_id r) userId && str_eqb (rule_pattern r) pattern.

(** The conflict branch of the upsert, on the row with the same
    [(user_id, pattern)]; a new row otherwise.  [None] when [hit_count + 1]
    leaves the [INT] range. *)
Fixpoint upsert_into (userId : uuid) (pattern : str) (category : option str)
         (debit credit : option uuid) (rules : list category_rule)
  : option (list category_rule) :=
  match rules with
  | [] => Some [mkRule userId pattern category debit credit 1]
  | r :: rest =>
      if same_key userId pattern r then
        if Z.leb (rule_hit_count r + 1) int_max
        then Some (mkRule userId pattern category debit credit
                          (rule_hit_count r + 1) :: rest)
        else None
      else
        match upsert_into userId pattern category debit credit rest with
        | Some rest' => Some (r :: rest')
        | None => None
        end
  end.

(** [INSERT INTO category_rules ... VALUES ($1, $2, $3, $4, $5, 1)
    ON CONFLICT (user_id, pattern) DO UPDATE SET ...]; [pattern] is a
    [VARCHAR(500)] and [category] a [VARCHAR(100)]. *)
Definition upsert_rule (userId : uuid) (pattern : str) (category : option str)
           (debit credit : option uuid) (rules : list category_rule)
  : option (list category_rule) :=
  if (length pattern <=? 500)%nat && fits 100 category
  then upsert_into userId pattern category debit credit rules
  else None.

(** Learning from a row that was just inserted; an error of the upsert is
    ignored. *)
Definition learn (userId : uuid) (s : staged_transaction)
           (rules : list category_rule) : list category_rule :=
  match st_description s with
  | Some description =>
      if truthy description
         && negb (js_eq (st_suggested_category s) Uncategorized)
      then
        let pattern := rule_pattern_of description in
        if (3 <=? length pattern)%nat then
          match upsert_rule userId pattern (st_suggested_category s)
                  (st_suggested_debit_account_id s)
                  (st_suggested_credit_account_id s) rules with
          | Some rules' => rules'
          | None => rules
          end
        else rules
      else rules
  | None => rules
  end.

(** ** Confirmation *)

Record progress : Type := mkProgress {
  p_transactions : list ledger_transaction;
  p_rules : list category_rule;
  imported : nat;
  skipped : nat;
  errors : list (Z * pg_error)
}.

(** One turn of the loop over the selected rows. *)
Definition confirm_row (us : list uuid) (accs : list account) (userId : uuid)
           (p : progress) (s : staged_transaction) : progress :=
  match st_suggested_debit_account_id s, st_suggested_credit_account_id s with
  | Some debit, Some credit =>
      if is_duplicate (p_transactions p) userId s
      then mkProgress (p_transactions p) (p_rules p) (imported p)
                      (S (skipped p)) (errors p)
      else
        match insert_transaction us accs userId s debit credit with
        | Inserted t =>
            mkProgress (p_transactions p ++ [t]) (learn userId s (p_rules p))
                       (S (imported p)) (skipped p) (errors p)
        | Refused e =>
            mkProgress (p_transactions p) (p_rules p) (imported p)
                       (skipped p) (errors p ++ [(st_id s, e)])
        end
  | _, _ =>
      mkProgress (p_transactions p) (p_rules p) (imported p)
                 (S (skipped p)) (errors p)
  end.

Definition confirm_rows (us : list uuid) (accs : list account) (userId : uuid)
           (rows : list staged_transaction) (p : progress) : progress :=
  fold_left (confirm_row us accs userId) rows p.

(** A [batch_id] taken from the request counts when it is a non-empty
    string. *)
Definition given (batch_id : option str) : option str :=
  match batch_id with
  | Some (c :: b) => Some (c :: b)
  | _ => None
  end.

Definition in_batch (batch_id : option str) (s : staged_transaction) : bool :=
  match given batch_id with
  | Some b => str_eqb (st_batch_id s) b
  | None => true
  end.

Definition owned_by (userId : uuid) (s : staged_transaction) : bool :=
  N.eqb (st_user_id s) userId.

Definition not_rejected (s : staged_transaction) : bool :=
  sql_neq str_eqb (st_status s) (Some rejected).

(** [SELECT * FROM staged_transactions WHERE user_id = $1 AND status !=
    'rejected'], with [AND batch_id = $2] when a batch is given. *)
Definition to_confirm (userId : uuid) (batch_id : option str) (d : db)
  : list staged_transaction :=
  filter (fun s => owned_by userId s && not_rejected s && in_batch batch_id s)
         (staged_transactions d).

(** The [DELETE] that follows the loop: the whole batch of the user when a
    batch is given, the user's rows that are not rejected otherwise. *)
Definition after_confirm (userId : uuid) (batch_id : option str)
           (rows : list staged_transaction) : list staged_transaction :=
  match given batch_id with
  | Some b =>
      filter (fun s => negb (owned_by userId s && str_eqb (st_batch_id s) b))
             rows
  | None =>
      filter (fun s => negb (owned_by userId s && not_rejected s)) rows
  end.

(** ** Review *)

Record staged_view : Type := mkView {
  v_row : staged_transaction;
  suggested_debit_name : option str;
  debit_type : option str;
  suggested_credit_name : option str;
  credit_type : option str
}.

Definition account_by_id (accs : list account) (id : option uuid)
  : option account :=
  match id with
  | Some i => find (fun a => N.eqb (acc_account_id a) i) accs
  | None => None
  end.

Definition join_accounts (accs : list account) (s : staged_transaction)
  : staged_view :=
  let da := account_by_id accs (st_suggested_debit_account_id s) in
  let ca := account_by_id accs (st_suggested_credit_account_id s) in
  mkView s (option_map acc_account_name da) (option_map acc_account_type da)
         (option_map acc_account_name ca) (option_map acc_account_type ca).

(** [ORDER BY s.date ASC, s.id ASC]; a [NULL] date sorts last. *)
Definition staged_le (a b : staged_transaction) : bool :=
  match st_date a, st_date b with
  | Some p, Some q =>
      if Z.eqb p q then Z.leb (st_id a) (st_id b) else Z.leb p q
  | Some _, None => true
  | None, Some _ => false
  | None, None => Z.leb (st_id a) (st_id b)
  end.

Definition list_staged (userId : uuid) (batch_id : option str) (d : db)
  : list staged_view :=
  map (join_accounts (accounts d))
    (sort_by staged_le
       (filter (fun s => owned_by userId s
                         && sql_eq str_eqb (st_status s) (Some pending)
                         && in_batch batch_id s)
               (staged_transactions d))).

(** The body of [PUT /staged/:id]: a field that is absent is left alone, a
    field that is present may be [null]. *)
Record edit : Type := mkEdit {
  e_suggested_category : option (option str);
  e_suggested_debit_account_id : option (option uuid);
  e_suggested_credit_account_id : option (option uuid);
  e_transaction_type : option (option str);
  e_description : option (option str);
  e_amount : option (option money);
  e_status : option (option str)
}.

Definition absent {A : Type} (o : option A) : bool :=
  match o with Some _ => false | None => true end.

Definition no_fields (e : edit) : bool :=
  absent (e_suggested_category e) && absent (e_suggested_debit_account_id e)
  && absent (e_suggested_credit_account_id e)
  && absent (e_transaction_type e) && absent (e_description e)
  && absent (e_amount e) && absent (e_status e).

Definition assign {A : Type} (new : option A) (old : A) : A :=
  match new with
  | Some v => v
  | None => old
  end.

Definition apply_edit (e : edit) (s : staged_transaction) : staged_transaction :=
  mkStaged (st_id s) (st_user_id s) (st_batch_id s) (st_date s)
           (assign (e_description e) (st_description s))
           (assign (e_amount e) (st_amount s))
           (assign (e_transaction_type e) (st_transaction_type s))
           (st_balance s)
           (assign (e_suggested_category e) (st_suggested_category s))
           (assign (e_suggested_debit_account_id e)
                   (st_suggested_debit_account_id s))
           (assign (e_suggested_credit_account_id e)
                   (st_suggested_credit_account_id s))
           (st_confidence s)
           (assign (e_status e) (st_status s))
           (st_source_file s).

Definition fits_field (n : nat) (f : option (option str)) : bool :=
  match f with
  | Some v => fits n v
  | None => true
  end.

(** The new values are accepted by the columns: [VARCHAR(100)],
    [VARCHAR(10)], [VARCHAR(20)] and [DECIMAL(15,2)]. *)
Definition accepted (e : edit) : bool :=
  fits_field 100 (e_suggested_category e)
  && fits_field 10 (e_transaction_type e)
  && fits_field 20 (e_status e)
  && match e_amount e with
     | Some (Some a) => Z.ltb (Z.abs a) (10 ^ 15)
     | _ => true
     end.

(** [WHERE id = $n AND user_id = $m] *)
Definition targets (id : Z) (userId : uuid) (s : staged_transaction) : bool :=
  Z.eqb (st_id s) id && owned_by userId s.

Definition update_staged (id : Z) (userId : uuid) (e : edit)
           (rows : list staged_transaction) : list staged_transaction :=
  map (fun s => if targets id userId s then apply_edit e s else s) rows.

(** The [updates] object of [PUT /staged-bulk]; a field counts when it is
    truthy. *)
Record updates : Type := mkUpdates {
  u_suggested_category : option str;
  u_suggested_debit_account_id : option uuid;
  u_suggested_credit_account_id : option uuid;
  u_status : option str;
  u_transaction_type : option str
}.

Definition truthy_field (o : option str) : option (option str) :=
  match o with
  | Some (c :: v) => Some (Some (c :: v))
  | _ => None
  end.

Definition edit_of (u : updates) : edit :=
  mkEdit (truthy_field (u_suggested_category u))
         (option_map Some (u_suggested_debit_account_id u))
         (option_map Some (u_suggested_credit_account_id u))
         (truthy_field (u_transaction_type u))
         None None
         (truthy_field (u_status u)).

(** One id of the bulk update.  A statement that fails is skipped; one that
    succeeds is counted whether or not it matched a row. *)
Definition bulk_step (userId : uuid) (e : edit)
           (acc : nat * list staged_transaction) (id : Z)
  : nat * list staged_transaction :=
  let (updated, rows) := acc in
  if no_fields e then acc
  else if existsb (targets id userId) rows && negb (accepted e) then acc
  else (S updated, update_staged id userId e rows).

(** ** Requests and responses *)

Inductive request : Type :=
| GetStaged (batch_id : option str)
| PutStaged (id : Z) (body : edit)
| PutStagedBulk (ids : list Z) (body : option updates)
| PostConfirm (batch_id : option str)
| DeleteStaged (batch_id : option str)
| GetRules.

Inductive response : Type :=
| StagedRows (rows : list staged_view)
| StagedRow (row : staged_transaction)
| Updated (n : nat)
| ConfirmResult (imported skipped : nat) (errors : list (Z * pg_error))
| Cleared
| Rules (rows : list category_rule)
| Failure (status : nat).

Definition with_staged (d : db) (rows : list staged_transaction) : db :=
  mkDb (users d) (accounts d) (transactions d) rows (category_rules d).

(** [POST /confirm].  The statement that recomputes the balances of the
    user's accounts writes no table modelled here and its failure is
    ignored. *)
Definition confirm (userId : uuid) (batch_id : option str) (d : db)
  : response * db :=
  match to_confirm userId batch_id d with
  | [] => (Failure 400, d)
  | rows =>
      let p := confirm_rows (users d) (accounts d) userId rows
                 (mkProgress (transactions d) (category_rules d) 0 0 []) in
      (ConfirmResult (imported p) (skipped p) (firstn 5 (errors p)),
       mkDb (users d) (accounts d) (p_transactions p)
            (after_confirm userId batch_id (staged_transactions d))
            (p_rules p))
  end.

(** The routes, run for the authenticated user [userId]. *)
Definition handle (userId : uuid) (r : request) (d : db) : response * db :=
  match r with
  | GetStaged batch_id => (StagedRows (list_staged userId batch_id d), d)
  | PutStaged id body =>
      if no_fields body then (Failure 400, d)
      else
        match filter (targets id userId) (staged_transactions d) with
        | [] => (Failure 404, d)
        | s :: _ =>
            if accepted body
            then (StagedRow (apply_edit body s),
                  with_staged d
                    (update_staged id userId body (staged_transactions d)))
            else (Failure 500, d)
        end
  | PutStagedBulk ids body =>
      match ids with
      | [] => (Failure 400, d)
      | _ =>
          match body with
          | None => (Updated 0, d)
          | Some u =>
              let (n, rows) :=
                fold_left (bulk_step userId (edit_of u)) ids
                          (O, staged_transactions d) in
              (Updated n, with_staged d rows)
          end
      end
  | PostConfirm batch_id => confirm userId batch_id d
  | DeleteStaged batch_id =>
      (Cleared,
       with_staged d
         (filter (fun s => negb (owned_by userId s && in_batch batch_id s))
                 (staged_transactions d)))
  | GetRules => (Rules (firstn 200 (rules_of d userId)), d)
  end.

End Routes.

Import Routes.


(* ================================================================== *)
(** * Delimited-text statements *)
(* ================================================================== *)

(** [parseCSV] from the result of [Papa.parse(content, { header: true,
    skipEmptyLines: true, dynamicTyping: false })]: the tokenizer of the
    library is not modelled, its [result.data] is the input.  A record holds
    the fields of one line under the header names, in the order of
    [Object.keys]; every value is a string, and a field that the line does
    not have is [undefined] (no header is the name of a property that every
    object inherits). *)
Module Csv.

Definition record : Type := list (str * str).

(** [row[col]]; [None] is [undefined]. *)
Fixpoint field (row : record) (col : str) : option str :=
  match row with
  | [] => None
  | (k, v) :: rest => if str_eqb k col then Some v else field rest col
  end.

(** [v || ''] *)
Definition or_empty (v : option str) : str :=
  match v with
  | Some s => s
  | None => []
  end.

(** [Object.keys(result.data[0] || {})] *)
Definition keys (data : list record) : list str :=
  match data with
  | first :: _ => map fst first
  | [] => []
  end.

(** [headers.findIndex(f)]; [None] is [-1]. *)
Fixpoint findIndex (f : str -> bool) (l : list str) : option nat :=
  match l with
  | [] => None
  | h :: t => if f h then Some O else option_map S (findIndex f t)
  end.

(** [findCol(...names)]: the names are tried in turn, and the first header
    that contains the name, once lower-cased and trimmed, gives the column.
    The column found is a non-empty string, so it is truthy. *)
Fixpoint findCol (actual : list str) (names : list str) : option str :=
  match names with
  | [] => None
  | name :: rest =>
      let headers := map (fun h => trim (toLowerCase h)) actual in
      match findIndex (fun h => includes h (toLowerCase name)) headers with
      | Some idx => nth_error actual idx
      | None => findCol actual rest
      end
  end.

Record columns : Type := mkColumns {
  dateCol : option str;
  descCol : option str;
  debitCol : option str;
  creditCol : option str;
  amountCol : option str;
  balCol : option str;
  typeCol : option str
}.

Definition date_names : list str :=
  map lit ["date"; "txn date"; "transaction date"; "value date";
           "posting date"]%string.
Definition desc_names : list str :=
  map lit ["description"; "narration"; "particulars"; "details";
           "transaction remarks"; "remarks"]%string.
Definition debit_names : list str :=
  map lit ["debit"; "withdrawal"; "dr"; "withdrawal amt";
           "withdrawal amount"]%string.
Definition credit_names : list str :=
  map lit ["credit"; "deposit"; "cr"; "deposit amt"; "deposit amount"]%string.
Definition amount_names : list str :=
  map lit ["amount"; "transaction amount"]%string.
Definition bal_names : list str :=
  map lit ["balance"; "closing balance"; "available balance";
           "running balance"]%string.
Definition type_names : list str :=
  map lit ["type"; "cr/dr"; "transaction type"]%string.

Definition detect (actual : list str) : columns :=
  mkColumns (findCol actual date_names) (findCol actual desc_names)
            (findCol actual debit_names) (findCol actual credit_names)
            (findCol actual amount_names) (findCol actual bal_names)
            (findCol actual type_names).

(** [[\u20B9,\s]]: the rupee sign, a comma or white space. *)
Definition is_rupee_comma_or_space (c : char) : bool :=
  N.eqb c rupee || is_comma c || is_space c.

(** [n >= 0] *)
Definition ge0 (n : num) : bool :=
  match n with
  | Num q => Qle_bool 0 q
  | Inf neg => negb neg
  | NaN => false
  end.

Section WithNativeDate.

Variable nativeDate : str -> option str.

(** The body of the loop over the records: the candidate pushed, if any. *)
Definition row_candidate (c : columns) (row : record) : list candidate :=
  match parseDate nativeDate
          (match dateCol c with
           | Some k => or_empty (field row k)
           | None => []
           end) with
  | None => []
  | Some date =>
      let desc :=
        match descCol c with
        | Some k => trim (or_empty (field row k))
        | None => []
        end in
      let balance :=
        match balCol c with
        | Some k => Some (parseAmount (or_empty (field row k)))
        | None => None
        end in
      match debitCol c, creditCol c with
      | Some dk, Some ck =>
          (* separate debit and credit columns *)
          let dr := parseAmount (or_empty (field row dk)) in
          let cr := parseAmount (or_empty (field row ck)) in
          if gt0 dr then [mkCandidate date desc dr Debit balance]
          else if gt0 cr then [mkCandidate date desc cr Credit balance]
          else []
      | _, _ =>
          match amountCol c with
          | Some ak =>
              (* a single amount column *)
              let amount := parseAmount (or_empty (field row ak)) in
              if is_zero amount then []
              else
                let txType :=
                  match typeCol c with
                  | Some tk =>
                      let t := trim (toLowerCase (or_empty (field row tk))) in
                      if equals t "cr" || equals t "credit" || equals t "c"
                      then Credit else Debit
                  | None =>
                      let raw :=
                        parseFloat (remove is_rupee_comma_or_space
                                           (or_empty (field row ak))) in
                      if ge0 raw then Credit else Debit
                  end in
                [mkCandidate date desc amount txType balance]
          | None => []
          end
      end
  end.

Definition parseCSV (data : list record) : list candidate :=
  match data with
  | [] => []
  | _ => flat_map (row_candidate (detect (keys data))) data
  end.

End WithNativeDate.

End Csv.

Import Csv.

(* ================================================================== *)
(** * The upload route *)
(* ================================================================== *)

(** [POST /upload]: the file is parsed by its extension, the candidates are
    classified and written to [staged_transactions].  Reading the file is
    not modelled: the request carries what the reader makes of it. *)
Module Upload.

(** The uploaded file by extension: the records of a [.csv] file, those of
    the first sheet of an [.xlsx] or [.xls] file, the text items of a [.pdf]
    file; [Unreadable] when reading it raises an error, as a wrong password
    does.  Other extensions are refused before the route runs. *)
Inductive content : Type :=
| CsvContent (data : list record)
| ExcelContent (data : list record)
| PdfContent (glyphs : list item)
| Unreadable.

Record upload_request : Type := mkUpload {
  file : option (str * content);
  source_account_id : option uuid
}.

Inductive upload_response : Type :=
| Staged (total_parsed total_staged : nat)
| UploadFailure (status : nat).

(** ['debit'] and ['credit'] *)
Definition type_text (t : direction) : str :=
  match t with
  | Debit => lit "debit"
  | Credit => lit "credit"
  end.

Section WithHost.

Variable nativeDate : str -> option str.

(** The input conversions of PostgreSQL for the [DATE], [DECIMAL(15,2)] and
    [DECIMAL(3,2)] columns: [None] when the value is refused. *)
Variable to_date : str -> option date.
Variable to_money : num -> option money.
Variable to_confidence : Q -> option Z.

(** The value that the sequence of [staged_transactions.id] gives to the
    statement of the [i]-th candidate. *)
Variable serial : nat -> Z.

Definition parse (c : content) : option (list candidate) :=
  match c with
  | CsvContent data => Some (parseCSV nativeDate data)
  | ExcelContent data => Some (parseCSV nativeDate data)
  | PdfContent glyphs => Some (parsePDF nativeDate glyphs)
  | Unreadable => None
  end.

(** [INSERT INTO staged_transactions (...) VALUES ($1, ..., $11, 'pending',
    $12)]: [batch_id] is a [VARCHAR(50)], [suggested_category] a
    [VARCHAR(100)] and [source_file] a [VARCHAR(255)]; the texts are taken
    to hold no NUL character.  [None] when the statement fails. *)
Definition stage_row (userId : uuid) (batchId name : str) (id : Z)
           (c : classified) : option staged_transaction :=
  if (length batchId <=? 50)%nat && fits 100 (suggested_category c)
     && (length name <=? 255)%nat
  then
    match to_date (Pdf.date (tx c)), to_money (amount (tx c)),
          match balance (tx c) with
          | Some b => option_map Some (to_money b)
          | None => Some None
          end,
          to_confidence (confidence c) with
    | Some d, Some a, Some b, Some cf =>
        Some (mkStaged id userId batchId (Some d)
                (Some (description (tx c))) (Some a)
                (Some (type_text (transaction_type (tx c)))) b
                (suggested_category c)
                (suggested_debit_account_id c)
                (suggested_credit_account_id c)
                (Some cf) (Some pending) (Some name))
    | _, _, _, _ => None
    end
  else None.

(** The loop over the classified candidates; a failed statement is logged
    and skipped. *)
Fixpoint stage_from (i : nat) (userId : uuid) (batchId name : str)
         (cs : list classified) (acc : nat * list staged_transaction)
  : nat * list staged_transaction :=
  match cs with
  | [] => acc
  | c :: rest =>
      match stage_row userId batchId name (serial i) c with
      | Some s =>
          stage_from (S i) userId batchId name rest
                     (S (fst acc), snd acc ++ [s])
      | None => stage_from (S i) userId batchId name rest acc
      end
  end.

(** The route, for the authenticated user [userId]; [batchId] is the batch
    name made from the clock and a random number. *)
Definition upload (userId : uuid) (batchId : str) (r : upload_request)
           (d : db) : upload_response * db :=
  match file r with
  | None => (UploadFailure 400, d)
  | Some (name, c) =>
      match parse c with
      | None => (UploadFailure 500, d)
      | Some [] => (UploadFailure 400, d)
      | Some transactions =>
          match autoClassify d userId transactions (source_account_id r) with
          | None => (UploadFailure 500, d)
          | Some classified =>
              let (inserted, rows) :=
                stage_from 0 userId batchId name classified
                           (O, staged_transactions d) in
              (Staged (length transactions) inserted, with_staged d rows)
          end
      end
  end.

End WithHost.

End Upload.

Import Upload.


(* ================================================================== *)
(** * Vocabulary of the properties *)
(* ================================================================== *)

(** ** Amounts *)

Definition kept_char (c : char) : bool :=
  negb (is_rupee_or_space c) && negb (is_comma c).

Definition kept (s : str) : str := filter kept_char s.

(** What [parseAmount] makes of the cleaned text. *)
Definition amount_of (cleaned : str) : num :=
  let n := parseFloat cleaned in
  if isNaN n then zero else abs n.







Definition nonnegative (n : num) : Prop :=
  match n with
  | NaN => False
  | Inf neg => neg = false
  | Num q => 0 <= q
  end.

(** ** Dates *)

Definition all_digits (s : str) : Prop := Forall (fun c => is_digit c = true) s.
Definition all_letters (s : str) : Prop := Forall (fun c => is_alpha c = true) s.

(** A day or a month as written: one or two digits. *)
Definition short_number (s : str) : Prop :=
  all_digits s /\ (1 <= length s <= 2)%nat.

Definition two_digits (s : str) : Prop := all_digits s /\ length s = 2%nat.

(** ** Credit-card markers *)

(** A word boundary on the left of a position: nothing, or a character
    that is not a word character. *)
Definition boundary_before (pre : str) : Prop :=
  match rev pre with
  | [] => True
  | c :: _ => is_word c = false
  end.

Definition boundary_after (post : str) : Prop :=
  match post with
  | [] => True
  | c :: _ => is_word c = false
  end.

(** The line holds one of the credit markers as a whole word, in any
    letter case. *)
Definition holds_marker (line : str) : Prop :=
  exists pre w post,
    line = pre ++ w ++ post /\ In (toLowerCase w) cc_markers /\
    boundary_before pre /\ boundary_after post.

(** The markers the specification lists, looked for anywhere in the text. *)
Definition listed_markers : list str :=
  map lit ["refund"; "cashback"; "reversal"; "credit";
           "payment received"]%string.

Definition contains_listed_marker (text : str) : bool :=
  existsb (fun m => includes (toLowerCase text) m) listed_markers.

Definition next_text (rows : list textRow) (i : nat) : option str :=
  option_map rtext (nth_error rows (S i)).

(** ** Rule corpus *)

(** What [learn] writes: a rule is never filed under "Uncategorized" and
    carries both accounts. *)
Definition learned_rule (r : category_rule) : Prop :=
  rule_category r <> Some Uncategorized
  /\ rule_debit_account_id r <> None
  /\ rule_credit_account_id r <> None.

(** [x] is the first element of [l] that satisfies [f]. *)
Definition first_match (A : Type) (f : A -> bool) (l : list A) (x : A) : Prop :=
  exists before after,
    l = before ++ x :: after /\ f x = true /\
    Forall (fun y => f y = false) before.



(** ** Rule learning *)

Local Open Scope Z_scope.


(** An alphabetic token of more than two letters. *)
Definition alphabetic_token (w : str) : Prop :=
  (2 < length w)%nat /\ Forall (fun c => is_alpha c = true) w.

Local Close Scope Z_scope.

(** ** Ledger *)

Local Open Scope Z_scope.

(** The ledger invariant of [schema.sql]. *)
Definition ledger_invariant (t : ledger_transaction) : Prop :=
  tx_debit_account_id t <> tx_credit_account_id t /\ 0 < tx_amount t.

(** [t] is the ledger row made from the staged row [s] for [userId]. *)
Definition created_from (userId : uuid) (s : staged_transaction)
           (t : ledger_transaction) : Prop :=
  tx_user_id t = userId
  /\ st_date s = Some (tx_date t)
  /\ st_amount s = Some (tx_amount t)
  /\ tx_description t = st_description s
  /\ st_suggested_debit_account_id s = Some (tx_debit_account_id t)
  /\ st_suggested_credit_account_id s = Some (tx_credit_account_id t)
  /\ tx_category t = st_suggested_category s.

Inductive outcome (us : list uuid) (accs : list account) (userId : uuid)
          (p : progress) (s : staged_transaction) : progress -> Prop :=
| MissingAccount :
    st_suggested_debit_account_id s = None
    \/ st_suggested_credit_account_id s = None ->
    outcome us accs userId p s
      (mkProgress (p_transactions p) (p_rules p) (imported p)
                  (S (skipped p)) (errors p))
| Duplicate debit credit :
    st_suggested_debit_account_id s = Some debit ->
    st_suggested_credit_account_id s = Some credit ->
    is_duplicate (p_transactions p) userId s = true ->
    outcome us accs userId p s
      (mkProgress (p_transactions p) (p_rules p) (imported p)
                  (S (skipped p)) (errors p))
| Committed debit credit t :
    st_suggested_debit_account_id s = Some debit ->
    st_suggested_credit_account_id s = Some credit ->
    is_duplicate (p_transactions p) userId s = false ->
    insert_transaction us accs userId s debit credit = Inserted t ->
    outcome us accs userId p s
      (mkProgress (p_transactions p ++ [t]) (learn userId s (p_rules p))
                  (S (imported p)) (skipped p) (errors p))
| Failed debit credit e :
    st_suggested_debit_account_id s = Some debit ->
    st_suggested_credit_account_id s = Some credit ->
    is_duplicate (p_transactions p) userId s = false ->
    insert_transaction us accs userId s debit credit = Refused e ->
    outcome us accs userId p s
      (mkProgress (p_transactions p) (p_rules p) (imported p) (skipped p)
                  (errors p ++ [(st_id s, e)])).

Local Close Scope Z_scope.

(** ** Duplicates *)

Local Open Scope Z_scope.

(** The ledger holds a transaction with the owner, date, amount and
    description of the staged row. *)
Definition already_committed (txs : list ledger_transaction) (userId : uuid)
           (s : staged_transaction) : Prop :=
  exists t,
    In t txs /\ tx_user_id t = userId /\ Some (tx_date t) = st_date s
    /\ Some (tx_amount t) = st_amount s
    /\ tx_description t = st_description s.

(** A row that a further Confirm leaves alone, whatever is added to the
    ledger [txs]. *)
Definition settled (us : list uuid) (accs : list account) (userId : uuid)
           (txs : list ledger_transaction) (s : staged_transaction) : Prop :=
  match st_suggested_debit_account_id s, st_suggested_credit_account_id s with
  | Some debit, Some credit =>
      is_duplicate txs userId s = true
      \/ exists e, insert_transaction us accs userId s debit credit = Refused e
  | _, _ => True
  end.

Local Close Scope Z_scope.

(** ** Ownership *)

Local Open Scope Z_scope.

Definition rule_owned_by (userId : uuid) (r : category_rule) : bool :=
  N.eqb (rule_user_id r) userId.

(** What a user can see of the database: the shared tables, and the staged
    rows and rules of that user. *)
Definition mine (userId : uuid) (d : db) : db :=
  mkDb (users d) (accounts d) (transactions d)
       (filter (owned_by userId) (staged_transactions d))
       (filter (rule_owned_by userId) (category_rules d)).

(** The staged rows and rules of everybody else. *)
Definition others (userId : uuid) (d : db)
  : list staged_transaction * list category_rule :=
  (filter (fun s => negb (owned_by userId s)) (staged_transactions d),
   filter (fun r => negb (rule_owned_by userId r)) (category_rules d)).

(** The loop of Confirm on the rules of the caller alone. *)
Definition own_rules (userId : uuid) (p : progress) : progress :=
  mkProgress (p_transactions p) (filter (rule_owned_by userId) (p_rules p))
             (imported p) (skipped p) (errors p).

Local Close Scope Z_scope.

(** ** Sample data *)

(** A host parser that recognises nothing. *)
Definition no_native_date (s : str) : option str := None.

Definition glyph (s : string) (px py : Z) : item := mkItem (lit s) px py 1.
Arguments glyph s%_string px%_Z py%_Z.

(** A credit-card statement with a table header: a refund printed in the
    debit column and a purchase printed in the credit column. *)
Definition card_statement_with_header : list item :=
  [ glyph "HDFC Bank Credit Card Statement" 10 10;
    glyph "Date" 10 50; glyph "Description" 100 50;
    glyph "Debit" 300 50; glyph "Credit" 400 50;
    glyph "12/01/2024" 10 70; glyph "REFUND AMAZON" 100 70;
    glyph "500.00" 300 70;
    glyph "13/01/2024" 10 90; glyph "SWIGGY" 100 90;
    glyph "250.00" 400 90 ].

(** A credit-card statement whose column titles hold two header keywords
    only. *)
Definition card_statement_without_header : list item :=
  [ glyph "Card Number 1234" 10 10;
    glyph "Date" 10 50; glyph "Description" 100 50; glyph "Amount" 300 50;
    glyph "12/01/2024" 10 70; glyph "AMAZON" 100 70; glyph "500.00 Cr" 300 70;
    glyph "13/01/2024" 10 90; glyph "SWIGGY refunded" 100 90;
    glyph "250.00" 300 90;
    glyph "14/01/2024" 10 110; glyph "Refund FLIPKART" 100 110;
    glyph "1,250.00" 300 110 ].

Definition alice : uuid := 1%N.
Definition bob : uuid := 2%N.
Definition bank_account : uuid := 10%N.
Definition food_account : uuid := 11%N.

Definition sample_accounts : list account :=
  [ mkAccount bank_account alice (lit "HDFC Savings") (lit "Asset") None;
    mkAccount food_account alice (lit "Food") (lit "Expense") None ].

Definition b1 : str := lit "batch_1".

(** A staged row of [alice] in batch [b1], from the bank account to the
    food account. *)
Definition staged_row (id : Z) (description : option str) (amount : Z)
           (status : string) : staged_transaction :=
  mkStaged id alice b1 (Some 19723%Z) description (Some amount)
           (Some (lit "debit")) None (Some (lit "Food"))
           (Some food_account) (Some bank_account) (Some 50%Z)
           (Some (lit status)) (Some (lit "statement.csv")).
Arguments staged_row id%_Z description amount%_Z status%_string.

Definition sample_db (txs : list ledger_transaction)
           (staged : list staged_transaction) (rules : list category_rule)
  : db :=
  mkDb [alice; bob] sample_accounts txs staged rules.

(** A ledger row without description, and the staged row that repeats it. *)
Definition committed_without_description : ledger_transaction :=
  mkTransaction alice 19723%Z 10000%Z None food_account bank_account
                (Some (lit "Food")).

Definition null_description_db : db :=
  sample_db [committed_without_description]
            [staged_row 1 None 10000 "pending"] [].

(** The same staged row before its description is edited to [null]. *)
Definition before_edit_db : db :=
  sample_db [committed_without_description]
            [staged_row 1 (Some (lit "Coffee")) 10000 "pending"] [].

Definition set_description_null : edit :=
  mkEdit None None None None (Some None) None None.

(** A batch with one pending and one rejected row. *)
Definition rejected_row : staged_transaction :=
  staged_row 2 (Some (lit "Pizza")) 25000 "rejected".

Definition batch_with_rejected_db : db :=
  sample_db [] [staged_row 1 (Some (lit "Coffee")) 10000 "pending";
                rejected_row] [].


Definition coffee_row : staged_transaction :=
  staged_row 4 (Some (lit "Coffee Shop 12")) 15000 "pending".





Definition sample_rules : list category_rule :=
  [ mkRule alice (lit "shop") (Some (lit "Shopping")) (Some food_account)
           (Some bank_account) 2%Z;
    mkRule bob (lit "coffee") (Some (lit "Travel")) (Some 20%N) (Some 21%N) 9%Z;
    mkRule alice (lit "coffee") (Some (lit "Food")) (Some food_account)
           (Some bank_account) 6%Z ].

Definition coffee_rule : category_rule :=
  mkRule alice (lit "coffee") (Some (lit "Food")) (Some food_account)
         (Some bank_account) 6%Z.

Definition coffee_candidate : candidate :=
  mkCandidate (lit "2024-01-01") (lit "COFFEE SHOP") (Num 150) Debit None.

(** Two databases that differ in the rows and rules of [bob] only. *)
Definition bob_row : staged_transaction :=
  mkStaged 7 bob b1 (Some 19723%Z) (Some (lit "Coffee")) (Some 10000%Z)
           (Some (lit "debit")) None (Some (lit "Food")) (Some food_account)
           (Some bank_account) (Some 50%Z) (Some pending) None.

Definition with_bob_db : db :=
  sample_db [] [bob_row; coffee_row] sample_rules.

Definition without_bob_db : db :=
  sample_db [] [coffee_row]
            [ mkRule alice (lit "shop") (Some (lit "Shopping"))
                     (Some food_account) (Some bank_account) 2%Z;
              coffee_rule ].


(** ** Rows of a page *)

(** [it] lies on the page of [a], at most 4 units below it. *)
Definition in_band (a it : item) : Prop :=
  page it = page a /\ (y a <= y it <= y a + 4)%Z.

Definition by_x (a b : item) : Prop := (x a <= x b)%Z.

(** ** Column anchors *)

(** The position of a column title, if the header has one. *)
Definition anchor_of (cm : colMap) (c : column) : option Z :=
  match c with
  | Withdrawal => c_withdrawal cm
  | Deposit => c_deposit cm
  | Balance => c_balance cm
  end.

(** The order in which the columns are entered in [distances]. *)
Definition rank (c : column) : nat :=
  match c with
  | Withdrawal => 0
  | Deposit => 1
  | Balance => 2
  end.

(** A row that cannot continue a transaction: it begins with a date or
    with a summary word. *)
Definition stops_continuation (r : textRow) : bool :=
  dateRegex_test (first_text r) || is_terminal (first_text r).

(** The amounts printed on a line after its date, as the line-based
    extractor reads them. *)
Definition line_amounts (line : str) : list num :=
  match dateRegex_match line with
  | Some (_, afterDate) => map parseAmount (scan_amounts 0 afterDate)
  | None => []
  end.

(** ** Columns of a delimited statement *)

(** The header [h], lower-cased and trimmed, contains [name]. *)
Definition header_has (name h : str) : bool :=
  includes (trim (toLowerCase h)) (toLowerCase name).

(** ** Keys of the rule corpus *)

(** The columns of [UNIQUE(user_id, pattern)]. *)
Definition rule_key (r : category_rule) : uuid * str :=
  (rule_user_id r, rule_pattern r).

(** ** Review *)

Local Open Scope Z_scope.

(** [ORDER BY date ASC, id ASC], rows without a date last. *)
Definition listed_before (a b : staged_transaction) : Prop :=
  match st_date a, st_date b with
  | Some p, Some q => p < q \/ (p = q /\ st_id a <= st_id b)
  | Some _, None => True
  | None, Some _ => False
  | None, None => st_id a <= st_id b
  end.

Local Close Scope Z_scope.

(** The columns that no edit can reach. *)
Definition fixed_columns (s : staged_transaction)
  : Z * uuid * str * option date * option money * option Z * option str :=
  (st_id s, st_user_id s, st_batch_id s, st_date s, st_balance s,
   st_confidence s, st_source_file s).

(** The columns that the bulk edit cannot reach either. *)
Definition described_amount (s : staged_transaction)
  : option str * option money :=
  (st_description s, st_amount s).

(** ** Uploads *)

(** What the upload route writes: a pending row of the caller in the batch
    of the request, with a date, an amount and the name of the file. *)
Definition freshly_staged (userId : uuid) (batchId name : str)
           (s : staged_transaction) : Prop :=
  st_user_id s = userId /\ st_batch_id s = batchId
  /\ st_status s = Some pending /\ st_source_file s = Some name
  /\ st_date s <> None /\ st_amount s <> None /\ st_description s <> None.

(** ** Titles of a table header *)

(** A title that reads as an amount column. *)
Definition is_amount_title (i : item) : bool :=
  has (toLowerCase (text i)) "amount" || has (toLowerCase (text i)) "amt".

(** ** More sample data *)

(** Three anchored columns. *)
Definition three_anchors : colMap :=
  mkColMap (Some 10%Z) (Some 100%Z) None None (Some 300%Z) (Some 400%Z)
           (Some 500%Z).

(** A header with two amount titles and no withdrawal or deposit title. *)
Definition header_with_two_amounts : list item :=
  [ glyph "Date" 10 50; glyph "Narration" 100 50; glyph "Amount" 400 50;
    glyph "Amount" 300 50; glyph "Balance" 500 50 ].

(** A line with three amounts: withdrawal, deposit and balance. *)
Definition salary_line : str :=
  lit "01/02/2024 SALARY CREDIT 0.00 5,000.00 15,000.00".

Definition salary_candidate : candidate :=
  mkCandidate (lit "2024-02-01") (lit "SALARY CREDIT") (Num (500000 # 100))
              Credit (Some (Num (1500000 # 100))).

Definition refund_candidate : candidate :=
  mkCandidate (lit "2024-01-12") (lit "REFUND AMAZON") (Num (50000 # 100))
              Debit None.

(** The title row of [card_statement_without_header]. *)
Definition title_row : textRow :=
  make_row [glyph "Date" 10 50; glyph "Description" 100 50;
            glyph "Amount" 300 50].

Definition cells (l : list (string * string)) : record :=
  map (fun p => (lit (fst p), lit (snd p))) l.

(** A bank export with separate debit and credit columns; the last record
    is a summary line. *)
Definition bank_export : list record :=
  [ cells [("Txn Date", "05/01/2024"); ("Description", " Coffee Shop ");
           ("Debit", "150.00"); ("Credit", ""); ("Balance", "1,000.00")];
    cells [("Txn Date", "06/01/2024"); ("Description", "Salary");
           ("Debit", ""); ("Credit", "5,000.00"); ("Balance", "6,000.00")];
    cells [("Txn Date", "Total"); ("Description", "");
           ("Debit", "150.00"); ("Credit", "5,000.00"); ("Balance", "")]
  ]%string.

Definition coffee_from_export : candidate :=
  mkCandidate (lit "2024-01-05") (lit "Coffee Shop") (Num (15000 # 100))
              Debit (Some (Num (100000 # 100))).

(** An export with a single signed amount column. *)
Definition wallet_record : record :=
  cells [("Date", "2024-01-05"); ("Particulars", "UPI-SWIGGY");
         ("Amount", "-1,250.00")]%string.

Definition wallet_columns : columns :=
  detect (map fst wallet_record).

Definition wallet_candidate : candidate :=
  mkCandidate (lit "2024-01-05") (lit "UPI-SWIGGY") (Num (125000 # 100))
              Debit None.

(** An export without a date column. *)
Definition export_without_date : list record :=
  [ cells [("Particulars", "Coffee"); ("Amount", "150.00")] ]%string.

(** A row that was approved during review. *)
Definition approved_row : staged_transaction :=
  staged_row 8 (Some (lit "Taxi")) 30000 "approved".

Definition with_approved_db : db :=
  sample_db [] [staged_row 1 (Some (lit "Coffee")) 10000 "pending";
                approved_row] [].


Definition plain_row : staged_transaction :=
  staged_row 9 (Some (lit "Coffee Shop")) 15000 "pending".

(** What the host makes of the values in the sample upload: one date is
    known, amounts are counted in hundredths. *)
Definition sample_to_date (s : str) : option date :=
  if str_eqb s (lit "2024-01-05") then Some 19727%Z else None.

Definition sample_to_money (n : num) : option money :=
  match n with
  | Num q => Some (Qnum q * 100 / Zpos (Qden q))%Z
  | _ => None
  end.

Definition sample_to_confidence (q : Q) : option Z :=
  Some (Qnum q * 100 / Zpos (Qden q))%Z.

Definition sample_serial (i : nat) : Z := (100 + Z.of_nat i)%Z.

Definition sample_upload : upload_request :=
  mkUpload (Some (lit "bank.csv", CsvContent bank_export)) (Some bank_account).

Definition classified_coffee : classified :=
  mkClassified coffee_candidate (Some (lit "Food")) (Some food_account)
               (Some bank_account) (95 # 100).

(* ================================================================== *)
(** * Properties *)
(* ================================================================== *)

(** ** The amount normalizer *)

Ltac char_arith :=
  unfold is_rupee_or_space, is_comma, is_space, is_word, is_alpha, is_upper,
    is_lower, is_digit, is_date_sep, is_space_or_dash, is_line_terminator,
    rupee, in_range in *;
  repeat match goal with
         | H : _ && _ = true |- _ => apply andb_true_iff in H; destruct H
         | H : _ || _ = false |- _ => apply orb_false_iff in H; destruct H
         | H : _ || _ = true |- _ => apply orb_true_iff in H; destruct H
         | H : negb _ = true |- _ => apply negb_true_iff in H
         | H : negb _ = false |- _ => apply negb_false_iff in H
         | H : N.leb _ _ = true |- _ => apply N.leb_le in H
         | H : N.leb _ _ = false |- _ => apply N.leb_gt in H
         | H : N.eqb _ _ = true |- _ => apply N.eqb_eq in H
         | H : N.eqb _ _ = false |- _ => apply N.eqb_neq in H
         end;
  repeat match goal with
         | |- context [N.leb ?a ?b] => destruct (N.leb_spec a b)
         | |- context [N.eqb ?a ?b] => destruct (N.eqb_spec a b)
         end;
  simpl; try reflexivity; try discriminate; try lia.

Lemma digit_not_space (c : char) : is_digit c = true -> is_space c = false.
Proof. intros H. char_arith. Qed.

Lemma filter_dropWhile (keep drop : char -> bool) (s : str) :
  (forall c, drop c = true -> keep c = false) ->
  filter keep (dropWhile drop s) = filter keep s.
Proof.
  intros H. induction s as [|c t IH]; simpl; auto.
  destruct (drop c) eqn:E; simpl; auto.
  rewrite (H c E). exact IH.
Qed.

Lemma filter_rev_comm (A : Type) (f : A -> bool) (l : list A) :
  filter f (rev l) = rev (filter f l).
Proof.
  induction l as [|a t IH]; simpl; auto.
  rewrite filter_app, IH. simpl. destruct (f a); simpl; auto.
  rewrite app_nil_r. reflexivity.
Qed.

Lemma filter_trim (keep : char -> bool) (s : str) :
  (forall c, is_space c = true -> keep c = false) ->
  filter keep (trim s) = filter keep s.
Proof.
  intros H. unfold trim, trimEnd, trimStart.
  rewrite filter_rev_comm, filter_dropWhile by exact H.
  rewrite filter_rev_comm, rev_involutive.
  apply filter_dropWhile, H.
Qed.

Lemma filter_twice (A : Type) (f g : A -> bool) (l : list A) :
  filter g (filter f l) = filter (fun c => f c && g c) l.
Proof.
  induction l as [|a t IH]; simpl; auto.
  destruct (f a); simpl; [destruct (g a)|]; rewrite IH; reflexivity.
Qed.

Lemma cleaned_is_kept (s : str) :
  remove is_comma (remove is_rupee_or_space (trim s)) = kept s.
Proof.
  unfold remove, kept. rewrite filter_twice.
  change (filter kept_char (trim s) = filter kept_char s).
  apply filter_trim.
  intros c Hc. unfold kept_char, is_rupee_or_space. rewrite Hc.
  rewrite orb_true_r. reflexivity.
Qed.

Lemma parseAmount_kept (s : str) : parseAmount s = amount_of (kept s).
Proof.
  destruct s as [|c t]; [reflexivity|].
  unfold parseAmount. rewrite cleaned_is_kept. reflexivity.
Qed.


Lemma span_class (f : char -> bool) (ds rest : str) :
  Forall (fun c => f c = true) ds ->
  match rest with [] => True | c :: _ => f c = false end ->
  span f (ds ++ rest) = (ds, rest).
Proof.
  intros Hd Hr. induction Hd as [|c t Hc _ IH]; cbn [app span].
  - destruct rest as [|c r]; auto. cbn [span]. rewrite Hr. reflexivity.
  - rewrite Hc, IH. reflexivity.
Qed.







Lemma span_nil_iff (f : char -> bool) (s : str) :
  fst (span f s) = [] <-> match s with [] => True | c :: _ => f c = false end.
Proof.
  destruct s as [|c t]; cbn [span fst]; [tauto|].
  destruct (f c); [destruct (span f t)|]; cbn [fst]; split; congruence.
Qed.


Lemma amount_of_nonnegative (k : str) : nonnegative (amount_of k).
Proof.
  unfold amount_of. destruct (parseFloat k) as [|neg|q]; cbn.
  - apply Qle_refl.
  - reflexivity.
  - apply Qabs_nonneg.
Qed.


(** ** The date normalizer *)

Lemma run_class (f : char -> bool) (lo hi : nat) (ds rest : str) :
  Forall (fun c => f c = true) ds ->
  match rest with [] => True | c :: _ => f c = false end ->
  run f lo hi (ds ++ rest)
  = if (lo <=? length ds)%nat && (length ds <=? hi)%nat
    then Some (ds, rest) else None.
Proof.
  intros Hd Hr. unfold run. rewrite span_class by assumption. reflexivity.
Qed.

Lemma trim_fixed (s : str) :
  match s with [] => True | c :: _ => is_space c = false end ->
  match rev s with [] => True | c :: _ => is_space c = false end ->
  trim s = s.
Proof.
  intros Hh Ht. unfold trim, trimStart, trimEnd.
  assert (E : dropWhile is_space s = s).
  { destruct s as [|c t]; [reflexivity|]. cbn [dropWhile]. rewrite Hh.
    reflexivity. }
  rewrite E.
  assert (E' : dropWhile is_space (rev s) = rev s).
  { destruct (rev s) as [|c t]; [reflexivity|]. cbn [dropWhile]. rewrite Ht.
    reflexivity. }
  rewrite E'. apply rev_involutive.
Qed.

Lemma digit_not_sep (c : char) : is_digit c = true -> is_date_sep c = false.
Proof. intros H. char_arith. Qed.

Lemma digit_not_alpha (c : char) : is_digit c = true -> is_alpha c = false.
Proof. intros H. char_arith. Qed.

Lemma sep_not_digit (c : char) : is_date_sep c = true -> is_digit c = false.
Proof.
  intros H. destruct (is_digit c) eqn:E; [|reflexivity].
  apply digit_not_sep in E. congruence.
Qed.

Lemma space_or_dash_not_digit (c : char) :
  is_space_or_dash c = true -> is_digit c = false.
Proof.
  intros H. destruct (is_digit c) eqn:E; [|reflexivity].
  exfalso. unfold is_space_or_dash in H.
  rewrite (@digit_not_space c E) in H. cbn [orb] in H. char_arith.
Qed.

Lemma space_or_dash_not_alpha (c : char) :
  is_space_or_dash c = true -> is_alpha c = false.
Proof.
  intros H. destruct (is_alpha c) eqn:E; [|reflexivity].
  exfalso. unfold is_space_or_dash in H. char_arith.
Qed.

Lemma alpha_not_digit (c : char) : is_alpha c = true -> is_digit c = false.
Proof.
  intros H. destruct (is_digit c) eqn:E; [|reflexivity].
  apply digit_not_alpha in E. congruence.
Qed.

Lemma match_dmy_written (lo hi : nat) (d m y : str) (s1 s2 : char) :
  short_number d -> short_number m -> all_digits y ->
  is_date_sep s1 = true -> is_date_sep s2 = true ->
  match_dmy lo hi (d ++ s1 :: m ++ s2 :: y)
  = if (lo <=? length y)%nat && (length y <=? hi)%nat
    then Some (d, m, y) else None.
Proof.
  intros [Hd Hdl] [Hm Hml] Hy Hs1 Hs2. unfold match_dmy.
  rewrite run_class by (auto using sep_not_digit).
  replace ((1 <=? length d)%nat && (length d <=? 2)%nat) with true
    by (symmetry; apply andb_true_iff; split; apply Nat.leb_le; lia).
  cbn [one]. rewrite Hs1.
  rewrite run_class by (auto using sep_not_digit).
  replace ((1 <=? length m)%nat && (length m <=? 2)%nat) with true
    by (symmetry; apply andb_true_iff; split; apply Nat.leb_le; lia).
  cbn [one]. rewrite Hs2.
  rewrite <- (app_nil_r y) at 1.
  rewrite run_class by (auto; exact I).
  destruct ((lo <=? length y)%nat && (length y <=? hi)%nat); reflexivity.
Qed.

Lemma written_date_trim (d rest : str) (last : char) :
  short_number d -> is_digit last = true ->
  trim (d ++ rest ++ [last]) = d ++ rest ++ [last].
Proof.
  intros [Hd Hdl] Hl. apply trim_fixed.
  - destruct d as [|c d]; [cbn in Hdl; lia|]. cbn [app].
    inversion Hd; subst. apply digit_not_space. assumption.
  - rewrite app_assoc, rev_app_distr. cbn [rev app].
    apply digit_not_space. exact Hl.
Qed.

Section Dates.

Variable nativeDate : str -> option str.

(** The numeric form with a two-digit year: the year goes to 19xx when it
    is greater than 50 and to 20xx otherwise. *)
Lemma parseDate_numeric_two_digit_year (d m y : str) (s1 s2 : char) :
  short_number d -> short_number m -> two_digits y ->
  is_date_sep s1 = true -> is_date_sep s2 = true ->
  parseDate nativeDate (d ++ s1 :: m ++ s2 :: y)
  = Some ((if (50 <? parseInt y)%Z then lit "19" else lit "20") ++ y
          ++ dash ++ padStart2 m ++ dash ++ padStart2 d).
Proof.
  intros Hd Hm [Hy Hyl] Hs1 Hs2.
  destruct y as [|y1 [|y2 [|? ?]]]; try discriminate.
  assert (Hy2 : is_digit y2 = true).
  { inversion Hy as [|? ? _ Hy']; subst. inversion Hy'; subst. assumption. }
  assert (Htrim : trim (d ++ s1 :: m ++ [s2; y1; y2])
                  = d ++ s1 :: m ++ [s2; y1; y2]).
  { replace (d ++ s1 :: m ++ [s2; y1; y2])
      with (d ++ (s1 :: m ++ [s2; y1]) ++ [y2]).
    - apply written_date_trim; assumption.
    - cbn [app]. rewrite <- app_assoc. reflexivity. }
  unfold parseDate.
  destruct (d ++ s1 :: m ++ [s2; y1; y2]) eqn:E.
  { destruct d; discriminate. }
  rewrite <- E in *. rewrite Htrim.
  rewrite !match_dmy_written by assumption.
  cbn [length Nat.leb andb].
  destruct (50 <? parseInt [y1; y2])%Z; reflexivity.
Qed.

(** The month-name form with a two-digit year: the year always goes to
    20xx, at a recognised month abbreviation. *)
Lemma parseDate_month_name_two_digit_year
      (d mon y mm : str) (s1 s2 : char) :
  short_number d -> all_letters mon -> length mon = 3%nat -> two_digits y ->
  is_space_or_dash s1 = true -> is_space_or_dash s2 = true ->
  lookup_month (toLowerCase mon) months = Some mm ->
  parseDate nativeDate (d ++ s1 :: mon ++ s2 :: y)
  = Some (lit "20" ++ y ++ dash ++ mm ++ dash ++ padStart2 d).
Proof.
  intros Hd Hmon Hmonl [Hy Hyl] Hs1 Hs2 Hmm.
  destruct y as [|y1 [|y2 [|? ?]]]; try discriminate.
  assert (Hy2 : is_digit y2 = true).
  { inversion Hy as [|? ? _ Hy']; subst. inversion Hy'; subst. assumption. }
  destruct mon as [|m1 mon']; [discriminate|].
  assert (Hm1 : is_alpha m1 = true) by (inversion Hmon; assumption).
  assert (Htrim : trim (d ++ s1 :: (m1 :: mon') ++ [s2; y1; y2])
                  = d ++ s1 :: (m1 :: mon') ++ [s2; y1; y2]).
  { replace (d ++ s1 :: (m1 :: mon') ++ [s2; y1; y2])
      with (d ++ (s1 :: (m1 :: mon') ++ [s2; y1]) ++ [y2]).
    - apply written_date_trim; assumption.
    - cbn [app]. rewrite <- app_assoc. reflexivity. }
  unfold parseDate.
  destruct (d ++ s1 :: (m1 :: mon') ++ [s2; y1; y2]) eqn:E.
  { destruct d; discriminate. }
  rewrite <- E in *. rewrite Htrim. clear E Htrim.
  destruct Hd as [Hd Hdl].
  assert (Hrun : run is_digit 1 2 (d ++ s1 :: (m1 :: mon') ++ [s2; y1; y2])
                 = Some (d, s1 :: (m1 :: mon') ++ [s2; y1; y2])).
  { rewrite run_class by (auto using space_or_dash_not_digit).
    replace ((1 <=? length d)%nat && (length d <=? 2)%nat) with true
      by (symmetry; apply andb_true_iff; split; apply Nat.leb_le; lia).
    reflexivity. }
  assert (Hnum : forall lo hi,
             match_dmy lo hi (d ++ s1 :: (m1 :: mon') ++ [s2; y1; y2])
             = None).
  { intros lo hi. unfold match_dmy. rewrite Hrun. cbn [one].
    destruct (is_date_sep s1); [|reflexivity].
    unfold run. cbn [app span]. rewrite (alpha_not_digit _ Hm1).
    reflexivity. }
  assert (Hymd : match_ymd (d ++ s1 :: (m1 :: mon') ++ [s2; y1; y2]) = None).
  { unfold match_ymd.
    rewrite run_class by (auto using space_or_dash_not_digit).
    replace ((4 <=? length d)%nat && (length d <=? 4)%nat) with false
      by (symmetry; apply andb_false_iff; left; apply Nat.leb_gt; lia).
    reflexivity. }
  rewrite !Hnum, Hymd.
  unfold match_dMony. rewrite Hrun. cbn [one]. rewrite Hs1.
  rewrite run_class by (auto using space_or_dash_not_alpha).
  rewrite Hmonl. cbn [Nat.leb andb one]. rewrite Hs2.
  change [y1; y2] with ([y1; y2] ++ []).
  rewrite run_class by (auto; exact I).
  cbn [length Nat.leb andb app Nat.eqb]. rewrite Hmm. reflexivity.
Qed.

End Dates.

(** ** Header detection *)

Section HeaderDetection.

Variable nativeDate : str -> option str.




End HeaderDetection.

(** ** Direction on credit-card statements *)

Lemma startsWith_iff (p s : str) :
  startsWith p s = true <-> exists r, s = p ++ r.
Proof.
  revert s. induction p as [|a p IH]; intros s; cbn [startsWith app].
  - split; eauto.
  - destruct s as [|b s].
    + split; [discriminate|]. intros (r & H). discriminate.
    + rewrite andb_true_iff, N.eqb_eq, IH. split.
      * intros (-> & r & ->). eauto.
      * intros (r & H). injection H as -> ->. eauto.
Qed.

Lemma map_eq_app_inv (A B : Type) (f : A -> B) (l : list A) (p r : list B) :
  map f l = p ++ r ->
  exists w post, l = w ++ post /\ map f w = p /\ map f post = r.
Proof.
  revert l. induction p as [|b p IH]; intros l H; cbn [app] in H.
  - exists [], l. auto.
  - destruct l as [|a l]; [discriminate|]. cbn [map] in H.
    injection H as Hb H. apply IH in H. destruct H as (w & post & -> & <- & <-).
    exists (a :: w), post. cbn [map app]. rewrite Hb. auto.
Qed.

Lemma skipn_length_app (A : Type) (w post : list A) (n : nat) :
  n = length w -> skipn n (w ++ post) = post.
Proof.
  intros ->. induction w; cbn; auto.
Qed.

Lemma marker_at_iff (s : str) :
  marker_at s = true <->
  exists w post, s = w ++ post /\ In (toLowerCase w) cc_markers /\
                 boundary_after post.
Proof.
  unfold marker_at. rewrite existsb_exists. split.
  - intros (m & Hin & H). apply andb_true_iff in H. destruct H as [Hs Hb].
    apply startsWith_iff in Hs. destruct Hs as (r & Hs).
    unfold toLowerCase in Hs. apply map_eq_app_inv in Hs.
    destruct Hs as (w & post & -> & Hw & _).
    exists w, post. split; [reflexivity|]. unfold toLowerCase.
    rewrite Hw. split; [exact Hin|].
    rewrite skipn_length_app in Hb by (rewrite <- Hw, length_map; auto).
    unfold boundary_after. destruct post as [|c post]; auto.
    apply negb_true_iff in Hb. exact Hb.
  - intros (w & post & -> & Hin & Hb). exists (toLowerCase w).
    split; [exact Hin|]. apply andb_true_iff. split.
    + apply startsWith_iff. exists (toLowerCase post).
      unfold toLowerCase. apply map_app.
    + rewrite skipn_length_app by (unfold toLowerCase; apply length_map).
      unfold boundary_after in Hb. destruct post as [|c post]; auto.
      apply negb_true_iff. exact Hb.
Qed.

Lemma marker_from_iff (s : str) :
  forall prev,
    marker_from prev s = true <->
    exists pre w post,
      s = pre ++ w ++ post /\ In (toLowerCase w) cc_markers /\
      match rev pre with
      | [] => prev = false
      | c :: _ => is_word c = false
      end /\ boundary_after post.
Proof.
  induction s as [|c t IH]; intros prev.
  - cbn [marker_from]. rewrite orb_false_r, andb_true_iff, negb_true_iff.
    rewrite marker_at_iff. split.
    + intros (Hp & w & post & Hs & Hin & Hb).
      exists [], w, post. auto.
    + intros (pre & w & post & Hs & Hin & Hp & Hb).
      destruct pre as [|a pre]; [|discriminate].
      cbn in Hp. split; [exact Hp|]. exists w, post. auto.
  - cbn [marker_from]. rewrite orb_true_iff, andb_true_iff, negb_true_iff.
    rewrite marker_at_iff, IH. split.
    + intros [(Hp & w & post & Hs & Hin & Hb) | (pre & w & post & Hs & Hin & Hp & Hb)].
      * exists [], w, post. auto.
      * exists (c :: pre), w, post. rewrite Hs. split; [reflexivity|].
        split; [exact Hin|]. split; [|exact Hb].
        cbn [rev]. destruct (rev pre) as [|a r]; cbn [app]; auto.
    + intros (pre & w & post & Hs & Hin & Hp & Hb).
      destruct pre as [|a pre].
      * left. cbn in Hp. split; [exact Hp|]. exists w, post. auto.
      * right. cbn [app] in Hs. injection Hs as -> ->.
        exists pre, w, post. split; [reflexivity|].
        split; [exact Hin|]. split; [|exact Hb].
        cbn [rev] in Hp. destruct (rev pre) as [|b r]; cbn [app] in Hp; auto.
Qed.

Lemma cc_marker_test_iff (line : str) :
  cc_marker_test line = true <-> holds_marker line.
Proof.
  unfold cc_marker_test, holds_marker. rewrite marker_from_iff.
  split; intros (pre & w & post & Hs & Hin & Hp & Hb);
    exists pre, w, post; repeat split; auto;
    unfold boundary_before in *; destruct (rev pre); auto.
Qed.

(** A document is taken for a credit-card statement exactly when its text
    holds "credit card", "card number" or "card no", in any letter case. *)
Lemma credit_card_detection (rows : list textRow) :
  let fullText := toLowerCase (join (lit " ") (map rtext rows)) in
  is_credit_card (detectBankType rows)
  = (has fullText "credit card" || has fullText "card number"
     || has fullText "card no").
Proof.
  cbv zeta. unfold detectBankType, is_credit_card.
  set (fullText := toLowerCase (join (lit " ") (map rtext rows))).
  destruct (has fullText "credit card" || has fullText "card number"
            || has fullText "card no");
    destruct (has fullText "hdfc bank");
    destruct (has fullText "state bank of india" || has fullText "sbi");
    destruct (has fullText "icici bank");
    destruct (has fullText "axis bank");
    destruct (has fullText "kotak"); reflexivity.
Qed.

Section CreditCard.

Variable nativeDate : str -> option str.

Lemma line_candidate_direction (bankType line : str) (next : option str)
      (c : candidate) :
  is_credit_card bankType = true ->
  In c (line_candidate nativeDate bankType line next) ->
  transaction_type c = if cc_marker_test line then Credit else Debit.
Proof.
  intros Hcc Hin. unfold line_candidate in Hin.
  destruct (dateRegex_match line) as [[matched afterDate]|]; [|contradiction].
  destruct (parseDate nativeDate matched) as [d|]; [|contradiction].
  destruct (map parseAmount (scan_amounts 0 afterDate)) as [|a0 amounts];
    [contradiction|].
  destruct (pick_amount (a0 :: amounts)) as [[amt txType0] balance0].
  rewrite Hcc in Hin.
  destruct (gt0 amt); [|contradiction].
  destruct Hin as [<-|[]]. reflexivity.
Qed.

Lemma parsePDFLineBased_In (bankType : str) (rows : list textRow)
      (c : candidate) :
  In c (parsePDFLineBased nativeDate rows bankType) ->
  exists i row,
    nth_error rows i = Some row /\
    In c (line_candidate nativeDate bankType (rtext row) (next_text rows i)).
Proof.
  induction rows as [|row rest IH]; cbn [parsePDFLineBased]; [contradiction|].
  intros H. apply in_app_or in H. destruct H as [H|H].
  - exists 0%nat, row. split; [reflexivity|].
    unfold next_text. cbn [nth_error]. destruct rest; exact H.
  - apply IH in H. destruct H as (i & r & Hn & Hc).
    exists (S i), r. split; [exact Hn|]. exact Hc.
Qed.

Lemma finish_direction (d : str) (f : fields) (c : candidate) :
  In c (finish d f) ->
  transaction_type c = if gt0 (withdrawal f) then Debit else Credit.
Proof.
  unfold finish. intros H.
  destruct (gt0 (withdrawal f)) eqn:Ew.
  - destruct (_ && _); [|contradiction]. destruct H as [<-|[]]. reflexivity.
  - destruct (gt0 (deposit f)) eqn:Ed.
    + destruct (_ && _); [|contradiction]. destruct H as [<-|[]]. reflexivity.
    + cbn in H. contradiction.
Qed.

(** C5, as amended.  In the line-based extractor, every transaction taken
    from a row of a credit-card statement is an inflow exactly when the row
    text holds, as a whole word and in any letter case, one of [cr],
    [credit], [refund], [cashback], [reversal], [payment received], and an
    outflow otherwise. *)
Theorem credit_card_direction_line_based
        (bankType : str) (rows : list textRow) (c : candidate) :
  is_credit_card bankType = true ->
  In c (parsePDFLineBased nativeDate rows bankType) ->
  exists i row,
    nth_error rows i = Some row /\
    In c (line_candidate nativeDate bankType (rtext row) (next_text rows i)) /\
    (transaction_type c = Credit <-> holds_marker (rtext row)) /\
    (transaction_type c = Debit <-> ~ holds_marker (rtext row)).
Proof.
  intros Hcc Hin. apply parsePDFLineBased_In in Hin.
  destruct Hin as (i & row & Hn & Hc). exists i, row.
  split; [exact Hn|]. split; [exact Hc|].
  pose proof (@line_candidate_direction bankType (rtext row)
                (next_text rows i) c Hcc Hc) as Hd.
  rewrite <- cc_marker_test_iff.
  split.
  - rewrite Hd. destruct (cc_marker_test (rtext row)); split; congruence.
  - rewrite Hd. destruct (cc_marker_test (rtext row)); split; intros H;
      try congruence; exfalso; apply H; reflexivity.
Qed.

(** The loop over the data rows never runs out of fuel: any fuel from the
    number of rows on gives the same transactions. *)
Lemma continuation_shorter (rows : list textRow) :
  (length (snd (continuation rows)) <= length rows)%nat.
Proof.
  induction rows as [|r rest IH]; cbn [continuation]; [auto|].
  destruct (dateRegex_test (first_text r)); [auto|].
  destruct (is_terminal (first_text r)); [auto|].
  destruct (continuation rest) as [more rest']. cbn [snd length] in *. lia.
Qed.

Lemma extract_rows_fuel (cm : colMap) (fuel : nat) :
  forall rows extra,
    (length rows <= fuel)%nat ->
    extract_rows nativeDate (fuel + extra) cm rows
    = extract_rows nativeDate fuel cm rows.
Proof.
  induction fuel as [|fuel IH]; intros rows extra Hlen.
  - destruct rows; [|cbn in Hlen; lia].
    destruct extra; reflexivity.
  - cbn [Nat.add extract_rows].
    destruct rows as [|row rest]; [reflexivity|].
    cbn [length] in Hlen.
    destruct (negb (dateRegex_test (first_text row))).
    + apply IH. lia.
    + destruct (parseDate nativeDate (first_text row)); [|apply IH; lia].
      pose proof (continuation_shorter rest) as Hc.
      destruct (continuation rest) as [more rest']. cbn [snd] in Hc.
      rewrite IH by lia. reflexivity.
Qed.

End CreditCard.

(** ** Classification *)

Section SortFacts.
Variable A : Type.
Variable le : A -> A -> bool.

Lemma insert_by_In (a x : A) (l : list A) :
  In x (insert_by le a l) <-> x = a \/ In x l.
Proof.
  induction l as [|b t IH]; cbn [insert_by].
  - cbn. intuition.
  - destruct (le a b); cbn [In]; [intuition|].
    rewrite IH. intuition.
Qed.

Lemma sort_by_In (x : A) (l : list A) : In x (sort_by le l) <-> In x l.
Proof.
  induction l as [|a t IH]; cbn [sort_by fold_right]; [tauto|].
  fold (sort_by le t). rewrite insert_by_In, IH. cbn. intuition.
Qed.

Hypothesis le_total : forall a b, le a b = false -> le b a = true.
Hypothesis le_trans :
  forall a b c, le a b = true -> le b c = true -> le a c = true.

Lemma insert_by_sorted (a : A) (l : list A) :
  StronglySorted (fun x y => le x y = true) l ->
  StronglySorted (fun x y => le x y = true) (insert_by le a l).
Proof.
  induction 1 as [|b t Hs IH Hb]; cbn [insert_by].
  - constructor; constructor.
  - destruct (le a b) eqn:E.
    + constructor; [constructor; assumption|].
      constructor; [exact E|].
      rewrite Forall_forall in *. intros y Hy. eauto.
    + constructor; [exact IH|].
      rewrite Forall_forall in *. intros y Hy.
      apply insert_by_In in Hy. destruct Hy as [->|Hy]; auto.
Qed.

Lemma sort_by_sorted (l : list A) :
  StronglySorted (fun x y => le x y = true) (sort_by le l).
Proof.
  induction l as [|a t IH]; cbn [sort_by fold_right]; [constructor|].
  apply insert_by_sorted. exact IH.
Qed.
End SortFacts.


Lemma rules_of_In (d : db) (userId : uuid) (r : category_rule) :
  In r (rules_of d userId) <->
  In r (category_rules d) /\ rule_user_id r = userId.
Proof.
  unfold rules_of. rewrite sort_by_In, filter_In, N.eqb_eq. tauto.
Qed.

Lemma str_eqb_eq (a b : str) : str_eqb a b = true <-> a = b.
Proof.
  revert b. induction a as [|x a IH]; intros [|y b]; cbn [str_eqb];
    try (split; [discriminate|congruence]); [tauto|].
  rewrite andb_true_iff, N.eqb_eq, IH. split.
  - intros [-> ->]. reflexivity.
  - intros H. injection H as -> ->. auto.
Qed.

Lemma js_eq_false (c : option str) (v : str) : c <> Some v -> js_eq c v = false.
Proof.
  intros H. destruct c as [c|]; cbn [js_eq]; [|reflexivity].
  destruct (str_eqb c v) eqn:E; [|reflexivity].
  apply str_eqb_eq in E. subst. congruence.
Qed.

Lemma find_first_match (A : Type) (f : A -> bool) (l : list A) (x : A) :
  first_match f l x -> find f l = Some x.
Proof.
  intros (before & after & -> & Hx & Hb).
  induction Hb as [|y t Hy _ IH]; cbn [app find].
  - rewrite Hx. reflexivity.
  - rewrite Hy. exact IH.
Qed.

Lemma find_none_all (A : Type) (f : A -> bool) (l : list A) :
  Forall (fun y => f y = false) l -> find f l = None.
Proof.
  induction 1 as [|y t Hy _ IH]; cbn [find]; [reflexivity|].
  rewrite Hy. exact IH.
Qed.







Lemma find_none_forall (A : Type) (f : A -> bool) (l : list A) :
  find f l = None -> Forall (fun y => f y = false) l.
Proof.
  induction l as [|a t IH]; cbn [find]; [constructor|].
  destruct (f a) eqn:E; [discriminate|]. intros H. constructor; auto.
Qed.





(** ** Rule learning *)

Local Open Scope Z_scope.

Lemma split_ws_from_words (P : char -> Prop) (s : str) :
  Forall (fun c => is_space c = false -> P c) s ->
  forall cur insep,
    Forall P cur -> Forall (Forall P) (split_ws_from cur insep s).
Proof.
  induction 1 as [|c t Hc _ IH]; intros cur insep Hcur;
    cbn [split_ws_from].
  - constructor; [|constructor]. apply Forall_rev. exact Hcur.
  - destruct (is_space c) eqn:E.
    + destruct insep.
      * apply IH. constructor.
      * constructor; [apply Forall_rev; exact Hcur|]. apply IH. constructor.
    + apply IH. constructor; auto.
Qed.

Lemma Forall_dropWhile (P : char -> Prop) (f : char -> bool) (s : str) :
  Forall P s -> Forall P (dropWhile f s).
Proof.
  induction 1 as [|c t Hc Ht IH]; cbn [dropWhile]; [constructor|].
  destruct (f c); [exact IH|]. constructor; assumption.
Qed.

Lemma Forall_trim (P : char -> Prop) (s : str) :
  Forall P s -> Forall P (trim s).
Proof.
  intros H. unfold trim, trimEnd, trimStart.
  apply Forall_rev, Forall_dropWhile, Forall_rev, Forall_dropWhile, H.
Qed.

Lemma rule_words_alphabetic (description : str) :
  Forall alphabetic_token (rule_words description).
Proof.
  unfold rule_words. apply Forall_forall. intros w Hw.
  apply filter_In in Hw. destruct Hw as [Hw Hlen].
  split; [apply Nat.ltb_lt; exact Hlen|]. clear Hlen.
  revert w Hw. apply Forall_forall.
  unfold split_ws. apply split_ws_from_words; [|constructor].
  apply Forall_trim. apply Forall_forall. intros c Hc.
  apply in_map_iff in Hc. destruct Hc as (c0 & <- & _).
  destruct (is_alpha c0) eqn:Ea; cbn [orb]; [auto|].
  destruct (is_space c0) eqn:Es; [congruence|].
  intros H. discriminate.
Qed.

Lemma join_length_first (sep : str) (w : str) (ws : list str) :
  (length w <= length (join sep (w :: ws)))%nat.
Proof.
  cbn [join]. destruct ws; [lia|]. rewrite length_app. lia.
Qed.

Lemma rule_pattern_long (description : str) :
  rule_words description <> [] ->
  (3 <= length (rule_pattern_of description))%nat.
Proof.
  intros Hne. pose proof (rule_words_alphabetic description) as Ha.
  unfold rule_pattern_of, toLowerCase. rewrite length_map.
  destruct (rule_words description) as [|w ws]; [congruence|].
  inversion Ha as [|? ? [Hlen _] _]; subst.
  change (firstn 4 (w :: ws)) with (w :: firstn 3 ws).
  pose proof (join_length_first (lit " ") w (firstn 3 ws)). lia.
Qed.



Lemma upsert_into_inv (P : category_rule -> Prop)
      userId pattern category debit credit rules rules' :
  upsert_into userId pattern category debit credit rules = Some rules' ->
  Forall P rules ->
  P (mkRule userId pattern category debit credit 1) ->
  (forall r, P r ->
     P (mkRule userId pattern category debit credit (rule_hit_count r + 1))) ->
  Forall P rules'.
Proof.
  intros H Hall Hnew Hupd. revert rules' H.
  induction Hall as [|r t Hr Ht IH]; intros rules' H;
    cbn [upsert_into] in H.
  - injection H as <-. constructor; [exact Hnew|constructor].
  - destruct (same_key userId pattern r).
    + destruct (rule_hit_count r + 1 <=? int_max); [|discriminate].
      injection H as <-. constructor; [apply Hupd; exact Hr|exact Ht].
    + destruct (upsert_into userId pattern category debit credit t)
        as [t'|]; [|discriminate].
      injection H as <-. constructor; [exact Hr|]. apply IH. reflexivity.
Qed.

(** [learn] keeps every property that new and updated rules have. *)
Lemma learn_inv (P : category_rule -> Prop) userId s rules :
  Forall P rules ->
  (forall pattern,
     st_suggested_category s <> Some Uncategorized ->
     P (mkRule userId pattern (st_suggested_category s)
               (st_suggested_debit_account_id s)
               (st_suggested_credit_account_id s) 1)) ->
  (forall pattern r,
     st_suggested_category s <> Some Uncategorized ->
     P r ->
     P (mkRule userId pattern (st_suggested_category s)
               (st_suggested_debit_account_id s)
               (st_suggested_credit_account_id s) (rule_hit_count r + 1))) ->
  Forall P (learn userId s rules).
Proof.
  intros Hall Hnew Hupd. unfold learn.
  destruct (st_description s) as [description|]; [|exact Hall].
  destruct (truthy description); cbn [andb]; [|exact Hall].
  destruct (js_eq (st_suggested_category s) Uncategorized) eqn:Ec;
    cbn [negb]; [exact Hall|].
  assert (Hc : st_suggested_category s <> Some Uncategorized).
  { intros H. rewrite H in Ec. cbn in Ec.
    assert (str_eqb Uncategorized Uncategorized = true)
      by (apply str_eqb_eq; reflexivity). congruence. }
  destruct (3 <=? length (rule_pattern_of description))%nat; [|exact Hall].
  unfold upsert_rule.
  destruct (_ && _); [|exact Hall].
  destruct (upsert_into _ _ _ _ _ rules) as [rules'|] eqn:E; [|exact Hall].
  eapply upsert_into_inv; eauto.
Qed.

Local Close Scope Z_scope.

(** ** The ledger invariant *)

Local Open Scope Z_scope.

Lemma insert_transaction_inv us accs userId s debit credit t :
  insert_transaction us accs userId s debit credit = Inserted t ->
  exists d a,
    st_date s = Some d /\ st_amount s = Some a /\ 0 < a /\ debit <> credit
    /\ fits 100 (st_suggested_category s) = true
    /\ t = mkTransaction userId d a (st_description s) debit credit
                         (st_suggested_category s).
Proof.
  unfold insert_transaction.
  destruct (st_date s) as [d|]; [|discriminate].
  destruct (st_amount s) as [a|]; [|discriminate].
  destruct (fits 100 (st_suggested_category s)); cbn [negb]; [|discriminate].
  destruct (Z.ltb_spec 0 a); cbn [negb]; [|discriminate].
  destruct (N.eqb_spec debit credit); [discriminate|].
  repeat (destruct (negb _); [discriminate|]).
  intros Hi. injection Hi as <-. exists d, a. repeat split; auto.
Qed.

Lemma insert_transaction_created us accs userId s debit credit t :
  st_suggested_debit_account_id s = Some debit ->
  st_suggested_credit_account_id s = Some credit ->
  insert_transaction us accs userId s debit credit = Inserted t ->
  created_from userId s t /\ ledger_invariant t.
Proof.
  intros Hd Hc H. apply insert_transaction_inv in H.
  destruct H as (d & a & Hdate & Ham & Hpos & Hne & _ & ->).
  unfold created_from, ledger_invariant. cbn. repeat split; auto.
Qed.

Lemma confirm_row_outcome us accs userId p s :
  outcome us accs userId p s (confirm_row us accs userId p s).
Proof.
  unfold confirm_row.
  destruct (st_suggested_debit_account_id s) as [debit|] eqn:Ed;
    [|apply MissingAccount; auto].
  destruct (st_suggested_credit_account_id s) as [credit|] eqn:Ec;
    [|apply MissingAccount; auto].
  destruct (is_duplicate (p_transactions p) userId s) eqn:Edup.
  - eapply Duplicate; eauto.
  - destruct (insert_transaction us accs userId s debit credit) eqn:Ei.
    + eapply Committed; eauto.
    + eapply Failed; eauto.
Qed.

Lemma confirm_row_ledger us accs userId p s :
  exists new,
    p_transactions (confirm_row us accs userId p s) = p_transactions p ++ new
    /\ Forall (fun t => created_from userId s t /\ ledger_invariant t) new.
Proof.
  destruct (confirm_row_outcome us accs userId p s);
    cbn [p_transactions];
    try (exists []; rewrite app_nil_r; split; [reflexivity|constructor]).
  exists [t]. split; [reflexivity|]. constructor; [|constructor].
  eapply insert_transaction_created; eauto.
Qed.


Lemma not_rejected_status (s : staged_transaction) :
  not_rejected s = true -> st_status s <> Some rejected.
Proof.
  unfold not_rejected. destruct (st_status s) as [v|]; cbn [sql_neq];
    [|discriminate].
  intros H E. injection E as ->. apply negb_true_iff in H.
  assert (str_eqb rejected rejected = true) by (apply str_eqb_eq; auto).
  congruence.
Qed.

Lemma rejected_not_selected (s : staged_transaction) :
  st_status s = Some rejected -> not_rejected s = false.
Proof.
  intros H. destruct (not_rejected s) eqn:E; [|reflexivity].
  apply not_rejected_status in E. congruence.
Qed.




Local Close Scope Z_scope.

(** ** Duplicates, idempotence and rejected rows *)

Local Open Scope Z_scope.

Lemma confirm_rows_rules_inv (P : category_rule -> Prop) us accs userId rows :
  (forall s debit credit rules,
     st_suggested_debit_account_id s = Some debit ->
     st_suggested_credit_account_id s = Some credit ->
     Forall P rules -> Forall P (learn userId s rules)) ->
  forall p, Forall P (p_rules p) ->
            Forall P (p_rules (confirm_rows us accs userId rows p)).
Proof.
  intros Hlearn. unfold confirm_rows.
  induction rows as [|s rest IH]; intros p Hp; cbn [fold_left]; [exact Hp|].
  apply IH.
  destruct (confirm_row_outcome us accs userId p s); cbn [p_rules]; eauto.
Qed.

Lemma handle_rules_inv (P : category_rule -> Prop) userId r d :
  (forall s debit credit rules,
     st_suggested_debit_account_id s = Some debit ->
     st_suggested_credit_account_id s = Some credit ->
     Forall P rules -> Forall P (learn userId s rules)) ->
  Forall P (category_rules d) ->
  Forall P (category_rules (snd (handle userId r d))).
Proof.
  intros Hlearn Hd. destruct r; cbn [handle].
  - exact Hd.
  - destruct (no_fields body); [exact Hd|].
    destruct (filter _ _); [exact Hd|].
    destruct (accepted body); exact Hd.
  - destruct ids; [exact Hd|]. destruct body; [|exact Hd].
    destruct (fold_left _ _ _). exact Hd.
  - unfold confirm. destruct (to_confirm userId batch_id d) eqn:E;
      [exact Hd|].
    cbn [snd category_rules]. apply confirm_rows_rules_inv; auto.
  - exact Hd.
  - exact Hd.
Qed.


Lemma learn_learned userId s debit credit rules :
  st_suggested_debit_account_id s = Some debit ->
  st_suggested_credit_account_id s = Some credit ->
  Forall learned_rule rules -> Forall learned_rule (learn userId s rules).
Proof.
  intros Hd Hc H. apply learn_inv; auto; unfold learned_rule; cbn;
    intros; rewrite Hd, Hc; repeat split; auto; discriminate.
Qed.

(** The rules stay as [learn] writes them, whatever the routes do. *)
Lemma handle_keeps_learned_rules userId r d :
  Forall learned_rule (category_rules d) ->
  Forall learned_rule (category_rules (snd (handle userId r d))).
Proof.
  apply handle_rules_inv. intros. eapply learn_learned; eauto.
Qed.


Lemma is_duplicate_iff txs userId s :
  is_duplicate txs userId s = true <->
  exists t, In t txs /\ tx_user_id t = userId
            /\ sql_eq Z.eqb (Some (tx_date t)) (st_date s) = true
            /\ sql_eq Z.eqb (Some (tx_amount t)) (st_amount s) = true
            /\ sql_eq str_eqb (tx_description t) (st_description s) = true.
Proof.
  unfold is_duplicate. rewrite existsb_exists.
  split; intros (t & Hin & H); exists t; (split; [exact Hin|]).
  - rewrite !andb_true_iff, N.eqb_eq in H. tauto.
  - rewrite !andb_true_iff, N.eqb_eq. tauto.
Qed.

Lemma is_duplicate_mono txs txs' userId s :
  incl txs txs' ->
  is_duplicate txs userId s = true -> is_duplicate txs' userId s = true.
Proof.
  intros Hi H. apply is_duplicate_iff in H. apply is_duplicate_iff.
  destruct H as (t & Hin & H). exists t. auto.
Qed.

Lemma sql_eq_Z_refl (a : Z) : sql_eq Z.eqb (Some a) (Some a) = true.
Proof. cbn. apply Z.eqb_refl. Qed.

Lemma sql_eq_str_refl (a : str) : sql_eq str_eqb (Some a) (Some a) = true.
Proof. cbn. apply str_eqb_eq. reflexivity. Qed.

Lemma already_committed_duplicate txs userId s :
  st_description s <> None ->
  already_committed txs userId s -> is_duplicate txs userId s = true.
Proof.
  intros Hd (t & Hin & Hu & Hdate & Ham & Hdesc).
  apply is_duplicate_iff. exists t. rewrite <- Hdate, <- Ham, Hdesc.
  split; [exact Hin|]. split; [exact Hu|].
  split; [apply sql_eq_Z_refl|]. split; [apply sql_eq_Z_refl|].
  destruct (st_description s); [apply sql_eq_str_refl|congruence].
Qed.

(** A row with both accounts whose owner, date, amount and description are
    already in the ledger is skipped and adds no ledger row, provided its
    description is not [NULL]. *)
Lemma confirm_row_skips_committed us accs userId p s debit credit :
  st_suggested_debit_account_id s = Some debit ->
  st_suggested_credit_account_id s = Some credit ->
  st_description s <> None ->
  already_committed (p_transactions p) userId s ->
  confirm_row us accs userId p s
  = mkProgress (p_transactions p) (p_rules p) (imported p) (S (skipped p))
               (errors p).
Proof.
  intros Hd Hc Hdesc Hdup. unfold confirm_row. rewrite Hd, Hc.
  rewrite (already_committed_duplicate Hdesc Hdup). reflexivity.
Qed.

Lemma confirm_row_grows us accs userId p s :
  incl (p_transactions p) (p_transactions (confirm_row us accs userId p s)).
Proof.
  destruct (confirm_row_ledger us accs userId p s) as (new & -> & _).
  apply incl_appl, incl_refl.
Qed.

Lemma settled_mono us accs userId txs txs' s :
  incl txs txs' ->
  settled us accs userId txs s -> settled us accs userId txs' s.
Proof.
  unfold settled. intros Hi.
  destruct (st_suggested_debit_account_id s); auto.
  destruct (st_suggested_credit_account_id s); auto.
  intros [H|H]; [left; eapply is_duplicate_mono; eauto|right; exact H].
Qed.

Lemma confirm_row_settles us accs userId p s :
  st_description s <> None ->
  settled us accs userId
          (p_transactions (confirm_row us accs userId p s)) s.
Proof.
  intros Hdesc. unfold settled.
  destruct (confirm_row_outcome us accs userId p s) as
      [[Hm|Hm] | debit credit Hd Hc Hdup | debit credit t Hd Hc Hdup Hi
       | debit credit e Hd Hc Hdup Hi]; cbn [p_transactions].
  - rewrite Hm. exact I.
  - rewrite Hm. destruct (st_suggested_debit_account_id s); exact I.
  - rewrite Hd, Hc. left. exact Hdup.
  - rewrite Hd, Hc. left.
    apply insert_transaction_inv in Hi.
    destruct Hi as (d & a & Hdate & Ham & _ & _ & _ & ->).
    apply is_duplicate_iff.
    exists (mkTransaction userId d a (st_description s) debit credit
                          (st_suggested_category s)).
    split; [apply in_or_app; right; left; reflexivity|].
    cbn [tx_user_id tx_date tx_amount tx_description].
    rewrite Hdate, Ham.
    split; [reflexivity|]. split; [apply sql_eq_Z_refl|].
    split; [apply sql_eq_Z_refl|].
    destruct (st_description s); [apply sql_eq_str_refl|congruence].
  - rewrite Hd, Hc. right. exists e. exact Hi.
Qed.

Lemma confirm_row_settled_same us accs userId p s :
  settled us accs userId (p_transactions p) s ->
  p_transactions (confirm_row us accs userId p s) = p_transactions p.
Proof.
  unfold settled, confirm_row.
  destruct (st_suggested_debit_account_id s) as [debit|]; [|reflexivity].
  destruct (st_suggested_credit_account_id s) as [credit|]; [|reflexivity].
  intros [H|(e & H)].
  - rewrite H. reflexivity.
  - destruct (is_duplicate _ _ _); [reflexivity|]. rewrite H. reflexivity.
Qed.

Lemma confirm_rows_grows us accs userId rows :
  forall p,
    incl (p_transactions p)
         (p_transactions (confirm_rows us accs userId rows p)).
Proof.
  unfold confirm_rows. induction rows as [|s rest IH]; intros p;
    cbn [fold_left]; [apply incl_refl|].
  eapply incl_tran; [apply confirm_row_grows|apply IH].
Qed.

Lemma confirm_rows_settles us accs userId rows :
  Forall (fun s => st_description s <> None) rows ->
  forall p,
    Forall (settled us accs userId
              (p_transactions (confirm_rows us accs userId rows p))) rows.
Proof.
  induction 1 as [|s rest Hs _ IH]; intros p; [constructor|].
  change (confirm_rows us accs userId (s :: rest) p)
    with (confirm_rows us accs userId rest (confirm_row us accs userId p s)).
  constructor; [|apply IH].
  eapply settled_mono; [apply confirm_rows_grows|].
  apply confirm_row_settles. exact Hs.
Qed.

Lemma confirm_rows_settled_same us accs userId rows :
  forall p,
    Forall (settled us accs userId (p_transactions p)) rows ->
    p_transactions (confirm_rows us accs userId rows p) = p_transactions p.
Proof.
  unfold confirm_rows. induction rows as [|s rest IH]; intros p H;
    cbn [fold_left]; [reflexivity|].
  inversion H as [|? ? Hs Hrest]; subst.
  pose proof (confirm_row_settled_same us accs userId p s Hs) as E.
  rewrite IH; [exact E|]. rewrite E. exact Hrest.
Qed.

(** Running the loop of Confirm again over the same rows adds nothing to
    the ledger, provided no row has a [NULL] description. *)
Lemma confirm_rows_idempotent us accs userId rows p q :
  Forall (fun s => st_description s <> None) rows ->
  p_transactions q = p_transactions (confirm_rows us accs userId rows p) ->
  p_transactions (confirm_rows us accs userId rows q) = p_transactions q.
Proof.
  intros Hdesc Hq. apply confirm_rows_settled_same. rewrite Hq.
  apply confirm_rows_settles. exact Hdesc.
Qed.

(** The route deletes what it selected: a second Confirm for the same
    batch, or again for all rows, finds no row to commit. *)
Lemma confirm_again_finds_nothing userId batch_id d :
  to_confirm userId batch_id (snd (confirm userId batch_id d)) = []
  \/ snd (confirm userId batch_id d) = d /\ to_confirm userId batch_id d = [].
Proof.
  unfold confirm.
  destruct (to_confirm userId batch_id d) as [|s rows] eqn:E; [right; auto|].
  left. cbn [snd]. unfold to_confirm, after_confirm, in_batch.
  cbn [staged_transactions].
  destruct (given batch_id) as [b|].
  - induction (staged_transactions d) as [|x t IH]; cbn [filter]; [auto|].
    destruct (owned_by userId x) eqn:Eo; cbn [andb negb].
    + destruct (str_eqb (st_batch_id x) b) eqn:Eb; cbn [negb]; [exact IH|].
      cbn [filter]. rewrite Eo, Eb, andb_false_r. exact IH.
    + cbn [filter]. rewrite Eo. exact IH.
  - induction (staged_transactions d) as [|x t IH]; cbn [filter]; [auto|].
    destruct (owned_by userId x && not_rejected x) eqn:Eo; cbn [negb];
      [exact IH|].
    cbn [filter]. rewrite Eo. exact IH.
Qed.

Lemma confirm_all_keeps_rejected userId batch_id d s :
  given batch_id = None ->
  In s (staged_transactions d) ->
  st_status s = Some rejected ->
  In s (staged_transactions (snd (confirm userId batch_id d))).
Proof.
  intros Hb Hin Hs. unfold confirm.
  destruct (to_confirm userId batch_id d); [exact Hin|].
  cbn [snd staged_transactions]. unfold after_confirm. rewrite Hb.
  apply filter_In. split; [exact Hin|].
  rewrite (rejected_not_selected _ Hs), andb_false_r. reflexivity.
Qed.

Lemma confirm_batch_clears_batch userId b d s :
  to_confirm userId (Some b) d <> [] ->
  b <> [] ->
  st_user_id s = userId ->
  st_batch_id s = b ->
  ~ In s (staged_transactions (snd (confirm userId (Some b) d))).
Proof.
  intros Hsel Hb Hu Hbatch. unfold confirm.
  destruct (to_confirm userId (Some b) d); [congruence|].
  cbn [snd staged_transactions]. unfold after_confirm.
  destruct b as [|c b]; [congruence|]. cbn [given].
  rewrite filter_In. intros [_ H].
  unfold owned_by in H. rewrite Hu, Hbatch, N.eqb_refl in H.
  assert (E : str_eqb (c :: b) (c :: b) = true) by (apply str_eqb_eq; auto).
  rewrite E in H. discriminate.
Qed.

Local Close Scope Z_scope.

(** ** Learning on commit *)

Local Open Scope Z_scope.

Lemma rule_words_of_empty : rule_words [] = [].
Proof. reflexivity. Qed.


Lemma learn_upserts userId s description rules :
  st_description s = Some description ->
  st_suggested_category s <> Some Uncategorized ->
  rule_words description <> [] ->
  learn userId s rules
  = match upsert_rule userId (rule_pattern_of description)
            (st_suggested_category s) (st_suggested_debit_account_id s)
            (st_suggested_credit_account_id s) rules with
    | Some rules' => rules'
    | None => rules
    end.
Proof.
  intros Hd Hc Hw. unfold learn. rewrite Hd.
  assert (Ht : truthy description = true).
  { destruct description; [|reflexivity].
    rewrite rule_words_of_empty in Hw. congruence. }
  rewrite Ht, (js_eq_false Hc). cbn [negb andb].
  pose proof (@rule_pattern_long description Hw) as Hl. apply Nat.leb_le in Hl.
  rewrite Hl. reflexivity.
Qed.


Local Close Scope Z_scope.

(** ** Scoping to the caller *)

Local Open Scope Z_scope.

Section Filters.
Variable A : Type.

Lemma filter_absorb (f g : A -> bool) (l : list A) :
  (forall x, f x = true -> g x = true) ->
  filter f (filter g l) = filter f l.
Proof.
  intros H. induction l as [|a t IH]; cbn [filter]; [reflexivity|].
  destruct (g a) eqn:Eg; cbn [filter]; rewrite IH; [reflexivity|].
  destruct (f a) eqn:Ef; [|reflexivity].
  apply H in Ef. congruence.
Qed.

Lemma filter_swap (f g : A -> bool) (l : list A) :
  filter f (filter g l) = filter g (filter f l).
Proof.
  induction l as [|a t IH]; cbn [filter]; [reflexivity|].
  destruct (g a) eqn:Eg, (f a) eqn:Ef; cbn [filter];
    rewrite ?Eg, ?Ef, IH; reflexivity.
Qed.

Lemma filter_map_keep (p : A -> bool) (f : A -> A) (l : list A) :
  (forall x, p (f x) = p x) ->
  filter p (map f l) = map f (filter p l).
Proof.
  intros H. induction l as [|a t IH]; cbn [filter map]; [reflexivity|].
  rewrite H. destruct (p a); cbn [map]; rewrite IH; reflexivity.
Qed.

Lemma filter_map_untouched (p : A -> bool) (f : A -> A) (l : list A) :
  (forall x, p (f x) = p x) ->
  (forall x, p x = true -> f x = x) ->
  filter p (map f l) = filter p l.
Proof.
  intros H1 H2. induction l as [|a t IH]; cbn [filter map]; [reflexivity|].
  rewrite H1. destruct (p a) eqn:E; rewrite IH; [|reflexivity].
  rewrite H2 by exact E. reflexivity.
Qed.

Lemma existsb_filter (f g : A -> bool) (l : list A) :
  (forall x, f x = true -> g x = true) ->
  existsb f (filter g l) = existsb f l.
Proof.
  intros H. induction l as [|a t IH]; cbn [filter existsb]; [reflexivity|].
  destruct (g a) eqn:Eg; cbn [existsb]; rewrite IH; [reflexivity|].
  destruct (f a) eqn:Ef; [|reflexivity].
  apply H in Ef. congruence.
Qed.
End Filters.

Lemma targets_owned id userId s : targets id userId s = true -> owned_by userId s = true.
Proof. unfold targets. intros H. apply andb_true_iff in H. tauto. Qed.

Lemma update_owner id userId e caller s :
  owned_by caller (if targets id userId s then apply_edit e s else s)
  = owned_by caller s.
Proof. destruct (targets id userId s); reflexivity. Qed.

Lemma update_staged_mine id userId e rows :
  filter (owned_by userId) (update_staged id userId e rows)
  = update_staged id userId e (filter (owned_by userId) rows).
Proof.
  unfold update_staged. apply filter_map_keep.
  intros s. apply update_owner.
Qed.

Lemma update_staged_others id userId e rows :
  filter (fun s => negb (owned_by userId s)) (update_staged id userId e rows)
  = filter (fun s => negb (owned_by userId s)) rows.
Proof.
  unfold update_staged. apply filter_map_untouched.
  - intros s. rewrite update_owner. reflexivity.
  - intros s H. destruct (targets id userId s) eqn:E; [|reflexivity].
    apply targets_owned in E. rewrite E in H. discriminate.
Qed.

Lemma bulk_fold userId e ids :
  forall n rows,
    let r := fold_left (bulk_step userId e) ids (n, rows) in
    fold_left (bulk_step userId e) ids (n, filter (owned_by userId) rows)
    = (fst r, filter (owned_by userId) (snd r))
    /\ filter (fun s => negb (owned_by userId s)) (snd r)
       = filter (fun s => negb (owned_by userId s)) rows.
Proof.
  induction ids as [|id rest IH]; intros n rows; cbn [fold_left].
  - cbn. auto.
  - cbn zeta.
    assert (Hstep :
              bulk_step userId e (n, filter (owned_by userId) rows) id
              = (fst (bulk_step userId e (n, rows) id),
                 filter (owned_by userId)
                        (snd (bulk_step userId e (n, rows) id)))
              /\ filter (fun s => negb (owned_by userId s))
                        (snd (bulk_step userId e (n, rows) id))
                 = filter (fun s => negb (owned_by userId s)) rows).
    { unfold bulk_step.
      destruct (no_fields e); [cbn; auto|].
      rewrite (@existsb_filter _ (targets id userId) (owned_by userId) rows)
        by (intros s; apply targets_owned).
      destruct (existsb (targets id userId) rows && negb (accepted e));
        [cbn; auto|].
      cbn [fst snd]. rewrite update_staged_mine, update_staged_others. auto. }
    destruct Hstep as [H1 H2].
    destruct (bulk_step userId e (n, rows) id) as [n' rows'] eqn:E.
    cbn [fst snd] in H1, H2. rewrite H1.
    destruct (IH n' rows') as [I1 I2]. cbn zeta in I1, I2.
    split; [exact I1|]. rewrite I2. exact H2.
Qed.

Lemma same_key_owned userId pattern r :
  same_key userId pattern r = true -> rule_owned_by userId r = true.
Proof. unfold same_key. intros H. apply andb_true_iff in H. tauto. Qed.

Lemma upsert_into_mine userId pattern category debit credit rules :
  upsert_into userId pattern category debit credit
              (filter (rule_owned_by userId) rules)
  = option_map (filter (rule_owned_by userId))
               (upsert_into userId pattern category debit credit rules).
Proof.
  induction rules as [|r t IH]; cbn [filter upsert_into option_map].
  - unfold rule_owned_by. cbn [rule_user_id]. rewrite N.eqb_refl. reflexivity.
  - destruct (same_key userId pattern r) eqn:Ek.
    + rewrite (@same_key_owned _ _ _ Ek). cbn [upsert_into]. rewrite Ek.
      destruct (rule_hit_count r + 1 <=? int_max); [|reflexivity].
      cbn [option_map filter]. unfold rule_owned_by at 2.
      cbn [rule_user_id]. rewrite N.eqb_refl. reflexivity.
    + destruct (rule_owned_by userId r) eqn:Eo.
      * cbn [upsert_into]. rewrite Ek, IH.
        destruct (upsert_into userId pattern category debit credit t);
          cbn [option_map filter]; [rewrite Eo|]; reflexivity.
      * rewrite IH.
        destruct (upsert_into userId pattern category debit credit t);
          cbn [option_map filter]; [rewrite Eo|]; reflexivity.
Qed.

Lemma upsert_into_others userId pattern category debit credit rules rules' :
  upsert_into userId pattern category debit credit rules = Some rules' ->
  filter (fun r => negb (rule_owned_by userId r)) rules'
  = filter (fun r => negb (rule_owned_by userId r)) rules.
Proof.
  revert rules'. induction rules as [|r t IH]; intros rules' H;
    cbn [upsert_into] in H.
  - injection H as <-. cbn [filter]. unfold rule_owned_by.
    cbn [rule_user_id]. rewrite N.eqb_refl. reflexivity.
  - destruct (same_key userId pattern r) eqn:Ek.
    + destruct (rule_hit_count r + 1 <=? int_max); [|discriminate].
      injection H as <-. cbn [filter].
      rewrite (@same_key_owned _ _ _ Ek). unfold rule_owned_by at 1.
      cbn [rule_user_id]. rewrite N.eqb_refl. reflexivity.
    + destruct (upsert_into userId pattern category debit credit t)
        as [t'|]; [|discriminate].
      injection H as <-. cbn [filter]. rewrite (IH t' eq_refl). reflexivity.
Qed.

Lemma learn_mine userId s rules :
  learn userId s (filter (rule_owned_by userId) rules)
  = filter (rule_owned_by userId) (learn userId s rules).
Proof.
  unfold learn.
  destruct (st_description s) as [description|]; [|reflexivity].
  destruct (_ && _); [|reflexivity].
  destruct (3 <=? length (rule_pattern_of description))%nat; [|reflexivity].
  unfold upsert_rule. destruct (_ && _); [|reflexivity].
  rewrite upsert_into_mine.
  destruct (upsert_into _ _ _ _ _ rules); reflexivity.
Qed.

Lemma learn_others userId s rules :
  filter (fun r => negb (rule_owned_by userId r)) (learn userId s rules)
  = filter (fun r => negb (rule_owned_by userId r)) rules.
Proof.
  unfold learn.
  destruct (st_description s) as [description|]; [|reflexivity].
  destruct (_ && _); [|reflexivity].
  destruct (3 <=? length (rule_pattern_of description))%nat; [|reflexivity].
  unfold upsert_rule. destruct (_ && _); [|reflexivity].
  destruct (upsert_into _ _ _ _ _ rules) eqn:E; [|reflexivity].
  eapply upsert_into_others; eauto.
Qed.

Lemma confirm_row_mine us accs userId p s :
  confirm_row us accs userId (own_rules userId p) s
  = own_rules userId (confirm_row us accs userId p s).
Proof.
  unfold confirm_row, own_rules. cbn [p_transactions p_rules imported
                                      skipped errors].
  destruct (st_suggested_debit_account_id s) as [debit|]; [|reflexivity].
  destruct (st_suggested_credit_account_id s) as [credit|]; [|reflexivity].
  destruct (is_duplicate (p_transactions p) userId s); [reflexivity|].
  destruct (insert_transaction us accs userId s debit credit);
    cbn [p_transactions p_rules imported skipped errors];
    [rewrite learn_mine|]; reflexivity.
Qed.

Lemma confirm_row_others us accs userId p s :
  filter (fun r => negb (rule_owned_by userId r))
         (p_rules (confirm_row us accs userId p s))
  = filter (fun r => negb (rule_owned_by userId r)) (p_rules p).
Proof.
  destruct (confirm_row_outcome us accs userId p s); cbn [p_rules]; auto.
  apply learn_others.
Qed.

Lemma confirm_rows_mine us accs userId rows :
  forall p,
    confirm_rows us accs userId rows (own_rules userId p)
    = own_rules userId (confirm_rows us accs userId rows p).
Proof.
  unfold confirm_rows. induction rows as [|s t IH]; intros p;
    cbn [fold_left]; [reflexivity|].
  rewrite confirm_row_mine. apply IH.
Qed.

Lemma confirm_rows_others us accs userId rows :
  forall p,
    filter (fun r => negb (rule_owned_by userId r))
           (p_rules (confirm_rows us accs userId rows p))
    = filter (fun r => negb (rule_owned_by userId r)) (p_rules p).
Proof.
  unfold confirm_rows. induction rows as [|s t IH]; intros p;
    cbn [fold_left]; [reflexivity|].
  rewrite IH. apply confirm_row_others.
Qed.

Lemma to_confirm_mine userId batch_id d :
  to_confirm userId batch_id (mine userId d) = to_confirm userId batch_id d.
Proof.
  unfold to_confirm, mine. cbn [staged_transactions].
  apply filter_absorb. intros s H.
  rewrite !andb_true_iff in H. tauto.
Qed.

Lemma after_confirm_mine userId batch_id rows :
  after_confirm userId batch_id (filter (owned_by userId) rows)
  = filter (owned_by userId) (after_confirm userId batch_id rows).
Proof.
  unfold after_confirm. destruct (given batch_id); apply filter_swap.
Qed.

Lemma after_confirm_others userId batch_id rows :
  filter (fun s => negb (owned_by userId s))
         (after_confirm userId batch_id rows)
  = filter (fun s => negb (owned_by userId s)) rows.
Proof.
  unfold after_confirm.
  destruct (given batch_id); apply filter_absorb;
    intros x H; apply negb_true_iff in H; rewrite H; reflexivity.
Qed.

Lemma confirm_mine userId batch_id d :
  fst (confirm userId batch_id (mine userId d))
  = fst (confirm userId batch_id d)
  /\ snd (confirm userId batch_id (mine userId d))
     = mine userId (snd (confirm userId batch_id d))
  /\ others userId (snd (confirm userId batch_id d)) = others userId d.
Proof.
  unfold confirm. rewrite to_confirm_mine.
  destruct (to_confirm userId batch_id d) as [|s rows]; [auto|].
  cbn [mine users accounts transactions category_rules staged_transactions].
  change (mkProgress (transactions d)
            (filter (rule_owned_by userId) (category_rules d)) 0 0 [])
    with (own_rules userId
            (mkProgress (transactions d) (category_rules d) 0 0 [])).
  rewrite confirm_rows_mine.
  cbn [fst snd own_rules imported skipped errors p_transactions p_rules].
  split; [reflexivity|]. split.
  - unfold mine. cbn [users accounts transactions staged_transactions
                      category_rules].
    rewrite after_confirm_mine. reflexivity.
  - unfold others. cbn [staged_transactions category_rules].
    rewrite after_confirm_others, confirm_rows_others. reflexivity.
Qed.

Lemma rules_of_mine userId d : rules_of (mine userId d) userId = rules_of d userId.
Proof.
  unfold rules_of, mine. cbn [category_rules]. f_equal.
  apply filter_absorb. auto.
Qed.

Lemma handle_mine userId r d :
  fst (handle userId r (mine userId d)) = fst (handle userId r d)
  /\ snd (handle userId r (mine userId d)) = mine userId (snd (handle userId r d))
  /\ others userId (snd (handle userId r d)) = others userId d.
Proof.
  destruct r as [batch_id|id body|ids body|batch_id|batch_id|];
    cbn [handle].
  - (* GET /staged *)
    cbn [fst snd]. split; [|auto]. unfold list_staged, mine.
    cbn [accounts staged_transactions]. do 3 f_equal.
    apply filter_absorb. intros s H. rewrite !andb_true_iff in H. tauto.
  - (* PUT /staged/:id *)
    destruct (no_fields body); [auto|].
    change (staged_transactions (mine userId d))
      with (filter (owned_by userId) (staged_transactions d)).
    rewrite (@filter_absorb _ (targets id userId) (owned_by userId))
      by (intros s; apply targets_owned).
    destruct (filter (targets id userId) (staged_transactions d));
      [auto|].
    destruct (accepted body); [|auto].
    cbn [fst snd]. split; [reflexivity|]. split.
    + unfold with_staged, mine. cbn [users accounts transactions
                                     staged_transactions category_rules].
      rewrite update_staged_mine. reflexivity.
    + unfold others, with_staged. cbn [staged_transactions category_rules].
      rewrite update_staged_others. reflexivity.
  - (* PUT /staged-bulk *)
    destruct ids as [|id ids]; [auto|].
    destruct body as [u|]; [|auto].
    change (staged_transactions (mine userId d))
      with (filter (owned_by userId) (staged_transactions d)).
    destruct (bulk_fold userId (edit_of u) (id :: ids) 0%nat
                        (staged_transactions d)) as [H1 H2].
    cbn zeta in H1, H2. rewrite H1.
    destruct (fold_left (bulk_step userId (edit_of u)) (id :: ids)
                        (0%nat, staged_transactions d)) as [n rows].
    cbn [fst snd] in *. split; [reflexivity|]. split.
    + reflexivity.
    + unfold others, with_staged. cbn [staged_transactions category_rules].
      rewrite H2. reflexivity.
  - (* POST /confirm *)
    apply confirm_mine.
  - (* DELETE /staged *)
    cbn [fst snd]. split; [reflexivity|]. split.
    + unfold with_staged, mine. cbn [users accounts transactions
                                     staged_transactions category_rules].
      rewrite filter_swap. reflexivity.
    + unfold others, with_staged. cbn [staged_transactions category_rules].
      f_equal. apply filter_absorb. intros s H.
      apply negb_true_iff in H. rewrite H. reflexivity.
  - (* GET /rules *)
    cbn [fst snd]. rewrite rules_of_mine. auto.
Qed.

(** C10.  Two runs of a route for the same caller, on databases that
    differ only in the staged rows and rules of other owners, return the
    same response and leave the caller with the same staged rows and rules;
    and a route changes no staged row and no rule of another owner. *)
Theorem routes_are_scoped_to_the_caller
        (caller : uuid) (r : request) (d1 d2 : db) :
  mine caller d1 = mine caller d2 ->
  fst (handle caller r d1) = fst (handle caller r d2)
  /\ mine caller (snd (handle caller r d1))
     = mine caller (snd (handle caller r d2))
  /\ others caller (snd (handle caller r d1)) = others caller d1
  /\ others caller (snd (handle caller r d2)) = others caller d2.
Proof.
  intros H.
  destruct (handle_mine caller r d1) as (A1 & B1 & C1).
  destruct (handle_mine caller r d2) as (A2 & B2 & C2).
  rewrite <- A1, <- A2, <- B1, <- B2, H. auto.
Qed.

Local Close Scope Z_scope.

(** ** Closed instances *)



(** C5 fails as stated.  With a header, the refund of a credit-card
    statement printed in the debit column is extracted as an outflow and the
    purchase printed in the credit column as an inflow; without a header, a
    row marked [Cr] is an inflow although it holds none of the listed
    markers, and a row holding "refunded" is an outflow. *)
Lemma credit_card_direction_counterexample :
  (let rows := textRows_of card_statement_with_header in
   is_credit_card (detectBankType rows) = true
   /\ headerRowIdx rows = Some 1%nat
   /\ map (fun c => (description c, transaction_type c))
          (parsePDF no_native_date card_statement_with_header)
      = [(lit "REFUND AMAZON", Debit); (lit "SWIGGY", Credit)]
   /\ map (fun r => contains_listed_marker (rtext r)) (skipn 2 rows)
      = [true; false])
  /\ (let rows := textRows_of card_statement_without_header in
      is_credit_card (detectBankType rows) = true
      /\ headerRowIdx rows = None
      /\ map (fun c => (description c, transaction_type c))
             (parsePDF no_native_date card_statement_without_header)
         = [(lit "AMAZON", Credit); (lit "SWIGGY refunded", Debit);
            (lit "Refund FLIPKART", Credit)]
      /\ map (fun r => contains_listed_marker (rtext r)) (skipn 2 rows)
         = [false; true; true]).
Proof. vm_compute. repeat split; reflexivity. Qed.

Lemma credit_card_direction_witness :
  let rows := textRows_of card_statement_without_header in
  exists i row,
    nth_error rows i = Some row
    /\ In (mkCandidate (lit "2024-01-12") (lit "AMAZON") (Num (Qabs 500.00))
                       Credit None)
          (line_candidate no_native_date (lit "generic_cc") (rtext row)
                          (next_text rows i))
    /\ (Credit = Credit <-> holds_marker (rtext row))
    /\ (Credit = Debit <-> ~ holds_marker (rtext row)).
Proof.
  intros rows.
  apply (@credit_card_direction_line_based no_native_date (lit "generic_cc")
           rows
           (mkCandidate (lit "2024-01-12") (lit "AMAZON") (Num (Qabs 500.00))
                        Credit None)).
  - vm_compute. reflexivity.
  - vm_compute. left. reflexivity.
Defined.




Lemma scoping_witness :
  fst (handle alice (PostConfirm (Some b1)) with_bob_db)
  = fst (handle alice (PostConfirm (Some b1)) without_bob_db)
  /\ mine alice (snd (handle alice (PostConfirm (Some b1)) with_bob_db))
     = mine alice (snd (handle alice (PostConfirm (Some b1)) without_bob_db))
  /\ others alice (snd (handle alice (PostConfirm (Some b1)) with_bob_db))
     = others alice with_bob_db
  /\ others alice (snd (handle alice (PostConfirm (Some b1)) without_bob_db))
     = others alice without_bob_db.
Proof.
  apply (@routes_are_scoped_to_the_caller alice (PostConfirm (Some b1))
           with_bob_db without_bob_db).
  vm_compute. reflexivity.
Defined.

(** C1 fails on a staged row whose description is [NULL].  The edit
    route stores the [null]; the ledger already holds a transaction with the
    same owner, date, amount and description; Confirm imports the row once
    more instead of skipping it, and when the same row is staged and
    confirmed again the ledger gets a third row. *)
Theorem confirm_repeats_row_without_description :
  snd (handle alice (PutStaged 1 set_description_null) before_edit_db)
  = null_description_db
  /\ already_committed (transactions null_description_db) alice
                       (staged_row 1 None 10000 "pending")
  /\ (let once :=
         snd (handle alice (PostConfirm (Some b1)) null_description_db) in
       let again :=
         snd (handle alice (PostConfirm (Some b1))
                     (with_staged once [staged_row 1 None 10000 "pending"])) in
       fst (handle alice (PostConfirm (Some b1)) null_description_db)
       = ConfirmResult 1 0 []
       /\ transactions once
          = [committed_without_description; committed_without_description]
       /\ transactions again
          = [committed_without_description; committed_without_description;
             committed_without_description]).
Proof.
  split; [vm_compute; reflexivity|].
  split.
  - exists committed_without_description.
    vm_compute. repeat split; auto.
  - vm_compute. repeat split; reflexivity.
Qed.

(** C3 fails when Confirm is restricted to a batch.  The rejected row of
    the batch creates no ledger transaction, but it is deleted with the
    batch; the same Confirm over all rows of the owner keeps it. *)
Theorem confirm_of_a_batch_deletes_rejected_rows :
  In rejected_row (staged_transactions batch_with_rejected_db)
  /\ st_status rejected_row = Some rejected
  /\ fst (handle alice (PostConfirm (Some b1)) batch_with_rejected_db)
     = ConfirmResult 1 0 []
  /\ staged_transactions
       (snd (handle alice (PostConfirm (Some b1)) batch_with_rejected_db))
     = []
  /\ staged_transactions
       (snd (handle alice (PostConfirm None) batch_with_rejected_db))
     = [rejected_row].
Proof.
  split; [right; left; reflexivity|].
  vm_compute. repeat split; reflexivity.
Qed.

Section TwoDigitYears.

Variable nativeDate : str -> option str.

(** C7 fails in the month-name form.  "15 Jan 99" and "15-Jan-99" go to
    2099, whereas the numeric "15/01/99" goes to 1999. *)
Theorem month_name_year_is_never_19xx :
  parseDate nativeDate (lit "15 Jan 99") = Some (lit "2099-01-15")
  /\ parseDate nativeDate (lit "15-Jan-99") = Some (lit "2099-01-15")
  /\ parseDate nativeDate (lit "15/01/99") = Some (lit "1999-01-15")
  /\ parseDate nativeDate (lit "15 Jan 24") = Some (lit "2024-01-15").
Proof. vm_compute. repeat split; reflexivity. Qed.

End TwoDigitYears.

(* ================================================================== *)
(** * Further properties *)
(* ================================================================== *)

(** ** The forms of a date *)

Lemma span_inv (f : char -> bool) (s a r : str) :
  span f s = (a, r) ->
  s = a ++ r /\ Forall (fun c => f c = true) a
  /\ match r with [] => True | c :: _ => f c = false end.
Proof.
  revert a r. induction s as [|c t IH]; intros a r; cbn [span].
  - intros E. inversion E; subst. repeat split; constructor.
  - destruct (f c) eqn:Ec.
    + destruct (span f t) as [a' r'] eqn:Es. intros E. inversion E; subst.
      destruct (IH a' r eq_refl) as (-> & Ha & Hr).
      repeat split; [constructor; assumption|assumption].
    + intros E. inversion E; subst. repeat split; [constructor|assumption].
Qed.

Lemma run_inv (f : char -> bool) (lo hi : nat) (s a r : str) :
  run f lo hi s = Some (a, r) ->
  s = a ++ r /\ Forall (fun c => f c = true) a
  /\ (lo <= length a <= hi)%nat
  /\ match r with [] => True | c :: _ => f c = false end.
Proof.
  unfold run. destruct (span f s) as [a' r'] eqn:Es.
  destruct ((lo <=? length a')%nat && (length a' <=? hi)%nat) eqn:Eb;
    [|discriminate].
  intros E. inversion E; subst.
  apply andb_true_iff in Eb. destruct Eb as [H1 H2].
  apply Nat.leb_le in H1. apply Nat.leb_le in H2.
  destruct (span_inv f s Es) as (-> & Ha & Hr). auto.
Qed.

Lemma one_inv (f : char -> bool) (s r : str) :
  one f s = Some r -> exists c, s = c :: r /\ f c = true.
Proof.
  unfold one. destruct s as [|c t]; [discriminate|].
  destruct (f c) eqn:Ec; [|discriminate].
  intros E. inversion E; subst. eauto.
Qed.

Lemma match_dmy_inv (lo hi : nat) (s d m y : str) :
  match_dmy lo hi s = Some (d, m, y) ->
  exists s1 s2,
    s = d ++ s1 :: m ++ s2 :: y
    /\ short_number d /\ short_number m /\ all_digits y
    /\ (lo <= length y <= hi)%nat
    /\ is_date_sep s1 = true /\ is_date_sep s2 = true.
Proof.
  unfold match_dmy.
  destruct (run is_digit 1 2 s) as [[d' r1]|] eqn:E1; [|discriminate].
  destruct (one is_date_sep r1) as [r2|] eqn:E2; [|discriminate].
  destruct (run is_digit 1 2 r2) as [[m' r3]|] eqn:E3; [|discriminate].
  destruct (one is_date_sep r3) as [r4|] eqn:E4; [|discriminate].
  destruct (run is_digit lo hi r4) as [[y' [|? ?]]|] eqn:E5; try discriminate.
  intros E. inversion E; subst.
  destruct (run_inv _ _ _ _ E1) as (-> & Hd & Hdl & _).
  destruct (one_inv _ _ E2) as (s1 & -> & Hs1).
  destruct (run_inv _ _ _ _ E3) as (-> & Hm & Hml & _).
  destruct (one_inv _ _ E4) as (s2 & -> & Hs2).
  destruct (run_inv _ _ _ _ E5) as (-> & Hy & Hyl & _).
  exists s1, s2. rewrite app_nil_r. unfold short_number, all_digits. auto 10.
Qed.

Lemma match_ymd_inv (s y m d : str) :
  match_ymd s = Some (y, m, d) ->
  all_digits y /\ length y = 4%nat /\ short_number m /\ short_number d.
Proof.
  unfold match_ymd.
  destruct (run is_digit 4 4 s) as [[y' r1]|] eqn:E1; [|discriminate].
  destruct (one is_date_sep r1) as [r2|] eqn:E2; [|discriminate].
  destruct (run is_digit 1 2 r2) as [[m' r3]|] eqn:E3; [|discriminate].
  destruct (one is_date_sep r3) as [r4|] eqn:E4; [|discriminate].
  destruct (run is_digit 1 2 r4) as [[d' [|? ?]]|] eqn:E5; try discriminate.
  intros E. inversion E; subst.
  destruct (run_inv _ _ _ _ E1) as (_ & Hy & Hyl & _).
  destruct (run_inv _ _ _ _ E3) as (_ & Hm & Hml & _).
  destruct (run_inv _ _ _ _ E5) as (_ & Hd & Hdl & _).
  unfold short_number, all_digits. repeat split; auto; lia.
Qed.

Lemma match_dMony_inv (s d mon y : str) :
  match_dMony s = Some (d, mon, y) ->
  short_number d /\ all_digits y /\ (2 <= length y <= 4)%nat.
Proof.
  unfold match_dMony.
  destruct (run is_digit 1 2 s) as [[d' r1]|] eqn:E1; [|discriminate].
  destruct (one is_space_or_dash r1) as [r2|] eqn:E2; [|discriminate].
  destruct (run is_alpha 3 3 r2) as [[m' r3]|] eqn:E3; [|discriminate].
  destruct (one is_space_or_dash r3) as [r4|] eqn:E4; [|discriminate].
  destruct (run is_digit 2 4 r4) as [[y' [|? ?]]|] eqn:E5; try discriminate.
  intros E. inversion E; subst.
  destruct (run_inv _ _ _ _ E1) as (_ & Hd & Hdl & _).
  destruct (run_inv _ _ _ _ E5) as (_ & Hy & Hyl & _).
  unfold short_number, all_digits. auto.
Qed.

Lemma padStart2_short (s : str) : short_number s -> two_digits (padStart2 s).
Proof.
  intros [Hs Hl]. unfold padStart2, two_digits, all_digits in *.
  destruct s as [|a [|b [|c t]]]; cbn [length] in Hl; try lia;
    cbn [length Nat.sub repeat app]; split; auto.
Qed.

Lemma padStart2_two_digits (s : str) : two_digits s -> padStart2 s = s.
Proof.
  intros [_ Hl]. unfold padStart2. rewrite Hl. reflexivity.
Qed.

Lemma lookup_month_two_digits (k mm : str) :
  lookup_month k months = Some mm -> two_digits mm.
Proof.
  unfold months. cbn [map fst snd lookup_month].
  repeat match goal with
         | |- context [if ?b then _ else _] => destruct b
         end;
    intros E; inversion E; subst; clear E;
    (split; [repeat constructor|reflexivity]).
Qed.

Lemma match_ymd_written (y m d : str) (s1 s2 : char) :
  all_digits y -> length y = 4%nat -> short_number m -> short_number d ->
  is_date_sep s1 = true -> is_date_sep s2 = true ->
  match_ymd (y ++ s1 :: m ++ s2 :: d) = Some (y, m, d).
Proof.
  intros Hy Hyl [Hm Hml] [Hd Hdl] Hs1 Hs2. unfold match_ymd.
  rewrite run_class by (auto using sep_not_digit). rewrite Hyl.
  cbn [Nat.leb andb one]. rewrite Hs1.
  rewrite run_class by (auto using sep_not_digit).
  replace ((1 <=? length m)%nat && (length m <=? 2)%nat) with true
    by (symmetry; apply andb_true_iff; split; apply Nat.leb_le; lia).
  cbn [one]. rewrite Hs2.
  rewrite <- (app_nil_r d) at 1.
  rewrite run_class by (auto; exact I).
  replace ((1 <=? length d)%nat && (length d <=? 2)%nat) with true
    by (symmetry; apply andb_true_iff; split; apply Nat.leb_le; lia).
  reflexivity.
Qed.

Lemma long_year_is_no_day (lo hi : nat) (y rest : str) (s1 : char) :
  all_digits y -> length y = 4%nat -> is_date_sep s1 = true ->
  match_dmy lo hi (y ++ s1 :: rest) = None.
Proof.
  intros Hy Hyl Hs1. unfold match_dmy.
  rewrite run_class by (auto using sep_not_digit). rewrite Hyl. reflexivity.
Qed.

Lemma all_digits_app (a b : str) : all_digits a -> all_digits b -> all_digits (a ++ b).
Proof. unfold all_digits. intros. apply Forall_app. auto. Qed.

Section DateForms.

Variable nativeDate : str -> option str.

(** A date in the normal form is read as itself. *)
Lemma parseDate_normal_form (y m d : str) :
  all_digits y -> length y = 4%nat -> two_digits m -> two_digits d ->
  parseDate nativeDate (y ++ dash ++ m ++ dash ++ d)
  = Some (y ++ dash ++ m ++ dash ++ d).
Proof.
  intros Hy Hyl [Hm Hml] [Hd Hdl].
  set (s := y ++ dash ++ m ++ dash ++ d).
  assert (Htrim : trim s = s).
  { apply trim_fixed; subst s.
    - destruct y as [|c t]; [discriminate|]. cbn [app].
      inversion Hy; subst. apply digit_not_space; assumption.
    - rewrite !rev_app_distr.
      destruct d as [|d1 [|d2 [|? ?]]]; try discriminate.
      cbn [rev app]. inversion Hd as [|? ? _ Hd']; subst.
      inversion Hd'; subst. apply digit_not_space; assumption. }
  unfold parseDate. destruct s as [|c0 t0] eqn:Es.
  { subst s. destruct y; discriminate. }
  rewrite <- Es in *. rewrite Htrim. clear Es c0 t0.
  assert (Es : s = y ++ 45%N :: m ++ 45%N :: d) by reflexivity.
  rewrite Es.
  rewrite !long_year_is_no_day by (auto; reflexivity).
  rewrite match_ymd_written
    by (auto; try reflexivity; split; auto; lia).
  rewrite !padStart2_two_digits by (split; assumption).
  reflexivity.
Qed.

(** X1.  Normalizing is idempotent on what the written patterns produce:
    when one of the four patterns of [parseDate] (that is, [parseDate]
    with a host parser that recognises nothing) turns a text into a date
    of ten characters, that date is read back as itself, whatever the host
    parser does.  Only the month-name form with a three-digit year gives a
    shorter result. *)
Theorem parseDate_result_is_a_fixed_point (s r : str) :
  parseDate no_native_date s = Some r ->
  length r = 10%nat ->
  parseDate nativeDate r = Some r.
Proof.
  unfold parseDate at 1. destruct s as [|c0 t0]; [discriminate|].
  set (s := trim (c0 :: t0)). clearbody s. clear c0 t0.
  destruct (match_dmy 4 4 s) as [[[d m] y]|] eqn:E1.
  { intros E _. inversion E; subst; clear E.
    destruct (match_dmy_inv _ _ _ E1) as (s1 & s2 & _ & Hd & Hm & Hy & Hl & _).
    apply parseDate_normal_form; auto using padStart2_short. lia. }
  destruct (match_dmy 2 2 s) as [[[d m] y]|] eqn:E2.
  { intros E _. inversion E; subst; clear E.
    destruct (match_dmy_inv _ _ _ E2) as (s1 & s2 & _ & Hd & Hm & Hy & Hl & _).
    apply parseDate_normal_form; auto using padStart2_short.
    - destruct (50 <? parseInt y)%Z;
        (constructor; [reflexivity|constructor; [reflexivity|assumption]]).
    - destruct (50 <? parseInt y)%Z; cbn [length]; lia. }
  destruct (match_ymd s) as [[[y m] d]|] eqn:E3.
  { intros E _. inversion E; subst; clear E.
    destruct (match_ymd_inv _ E3) as (Hy & Hl & Hm & Hd).
    apply parseDate_normal_form; auto using padStart2_short. }
  unfold no_native_date.
  destruct (match_dMony s) as [[[d mon] y]|] eqn:E4; [|discriminate].
  destruct (lookup_month (toLowerCase mon) months) as [mm|] eqn:E5;
    [|discriminate].
  destruct (match_dMony_inv _ E4) as (Hd & Hy & Hl).
  pose proof (lookup_month_two_digits _ E5) as Hmm.
  pose proof (padStart2_short Hd) as Hdd.
  intros E Hlen. inversion E; subst; clear E.
  destruct (length y =? 2)%nat eqn:Ey.
  - apply Nat.eqb_eq in Ey.
    apply parseDate_normal_form; auto.
    + constructor; [reflexivity|constructor; [reflexivity|assumption]].
    + cbn [length]. lia.
  - apply Nat.eqb_neq in Ey.
    apply parseDate_normal_form; auto.
    destruct Hmm as [_ Hmml]. destruct Hdd as [_ Hddl].
    repeat first [rewrite length_app in Hlen
                 |progress (cbn [length] in Hlen)].
    lia.
Qed.


(** X2.  A numeric date with a four-digit year is read day first when the
    year comes last and year first when it comes first; day and month are
    padded to two digits and no range is checked, so that "45/13/2024"
    becomes "2024-13-45". *)
Theorem numeric_date_with_long_year (d m y : str) (s1 s2 : char) :
  short_number d -> short_number m -> all_digits y -> length y = 4%nat ->
  is_date_sep s1 = true -> is_date_sep s2 = true ->
  parseDate nativeDate (d ++ s1 :: m ++ s2 :: y)
  = Some (y ++ dash ++ padStart2 m ++ dash ++ padStart2 d)
  /\ parseDate nativeDate (y ++ s1 :: m ++ s2 :: d)
     = Some (y ++ dash ++ padStart2 m ++ dash ++ padStart2 d).
Proof.
  intros Hd Hm Hy Hyl Hs1 Hs2.
  destruct y as [|y1 [|y2 [|y3 [|y4 [|? ?]]]]]; try discriminate.
  assert (Hy4 : is_digit y4 = true).
  { unfold all_digits in Hy. rewrite Forall_forall in Hy. apply Hy.
    cbn [In]. auto. }
  assert (Hy1 : is_digit y1 = true).
  { unfold all_digits in Hy. rewrite Forall_forall in Hy. apply Hy.
    cbn [In]. auto. }
  split.
  - assert (Htrim : trim (d ++ s1 :: m ++ [s2; y1; y2; y3; y4])
                    = d ++ s1 :: m ++ [s2; y1; y2; y3; y4]).
    { replace (d ++ s1 :: m ++ [s2; y1; y2; y3; y4])
        with (d ++ (s1 :: m ++ [s2; y1; y2; y3]) ++ [y4]).
      - apply written_date_trim; assumption.
      - cbn [app]. rewrite <- app_assoc. reflexivity. }
    unfold parseDate.
    destruct (d ++ s1 :: m ++ [s2; y1; y2; y3; y4]) eqn:E.
    { destruct d; discriminate. }
    rewrite <- E in *. rewrite Htrim.
    rewrite !match_dmy_written by assumption. reflexivity.
  - set (y := [y1; y2; y3; y4]) in *.
    assert (Htrim : trim (y ++ s1 :: m ++ s2 :: d) = y ++ s1 :: m ++ s2 :: d).
    { apply trim_fixed.
      - apply digit_not_space. exact Hy1.
      - destruct Hd as [Hd Hdl].
        replace (y ++ s1 :: m ++ s2 :: d) with ((y ++ s1 :: m ++ [s2]) ++ d)
          by (rewrite <- app_assoc; cbn [app]; rewrite <- app_assoc;
              reflexivity).
        rewrite rev_app_distr.
        destruct d as [|a [|b [|? ?]]]; cbn [length] in Hdl; try lia;
          cbn [rev app]; apply digit_not_space;
          unfold all_digits in Hd; rewrite Forall_forall in Hd; apply Hd;
          cbn [In]; auto. }
    unfold parseDate.
    destruct (y ++ s1 :: m ++ s2 :: d) eqn:E; [discriminate|].
    rewrite <- E in *. rewrite Htrim.
    rewrite !long_year_is_no_day by (auto; reflexivity).
    rewrite match_ymd_written by (auto; reflexivity).
    reflexivity.
Qed.

(** X3.  Every written pattern begins with a digit: a text that does not,
    once trimmed, is left to the parser of the host, whose answer is
    returned as it is.  "Jan 15, 2024" and a text of white space alone are
    such texts; the empty text is refused before. *)
Theorem parseDate_without_leading_digit (s : str) :
  s <> [] ->
  match trim s with [] => True | c :: _ => is_digit c = false end ->
  parseDate nativeDate s = nativeDate (trim s)
  /\ parseDate nativeDate [] = None.
Proof.
  intros Hs Hh. split; [|reflexivity].
  unfold parseDate. destruct s as [|c0 t0]; [congruence|].
  set (t := trim (c0 :: t0)) in *. clearbody t.
  assert (Hrun : forall lo hi, (1 <= lo)%nat -> run is_digit lo hi t = None).
  { intros lo hi Hlo. unfold run.
    assert (Es : span is_digit t = ([], t)).
    { destruct t as [|c r]; [reflexivity|]. cbn [span]. rewrite Hh.
      reflexivity. }
    rewrite Es. cbn [length].
    destruct lo; [lia|]. reflexivity. }
  unfold match_dmy, match_ymd, match_dMony.
  rewrite !Hrun by lia. reflexivity.
Qed.

End DateForms.

Lemma parseDate_fixed_point_witness :
  parseDate no_native_date (lit "2024-01-05") = Some (lit "2024-01-05").
Proof.
  apply (@parseDate_result_is_a_fixed_point no_native_date (lit " 5/1/24 ")
           (lit "2024-01-05")); reflexivity.
Defined.

Lemma numeric_date_witness :
  parseDate no_native_date (lit "45/13/2024") = Some (lit "2024-13-45")
  /\ parseDate no_native_date (lit "2024.1.5") = Some (lit "2024-01-05").
Proof.
  split.
  - apply (@numeric_date_with_long_year no_native_date (lit "45") (lit "13")
             (lit "2024") 47%N 47%N);
      try reflexivity; try (split; [repeat constructor|cbn; lia]);
      repeat constructor.
  - apply (@numeric_date_with_long_year no_native_date (lit "5") (lit "1")
             (lit "2024") 46%N 46%N);
      try reflexivity; try (split; [repeat constructor|cbn; lia]);
      repeat constructor.
Defined.

Lemma parseDate_host_witness :
  parseDate (fun _ => Some (lit "2024-01-15")) (lit "Jan 15, 2024")
  = Some (lit "2024-01-15").
Proof.
  apply (@parseDate_without_leading_digit (fun _ => Some (lit "2024-01-15"))
           (lit "Jan 15, 2024")).
  - discriminate.
  - reflexivity.
Defined.

(** ** Rows of a page *)

Section SortPermutation.
Variable A : Type.
Variable le : A -> A -> bool.

Lemma insert_by_perm (a : A) (l : list A) :
  Permutation (insert_by le a l) (a :: l).
Proof.
  induction l as [|b t IH]; cbn [insert_by]; [reflexivity|].
  destruct (le a b); [reflexivity|].
  rewrite IH. apply perm_swap.
Qed.

Lemma sort_by_perm (l : list A) : Permutation (sort_by le l) l.
Proof.
  induction l as [|a t IH]; cbn [sort_by fold_right]; [reflexivity|].
  fold (sort_by le t). rewrite insert_by_perm. constructor. exact IH.
Qed.

Lemma sort_by_nil (l : list A) : sort_by le l = [] -> l = [].
Proof.
  intros E. pose proof (sort_by_perm l) as P. rewrite E in P.
  apply Permutation_nil in P. exact P.
Qed.
End SortPermutation.

Lemma dropWhile_head (f : char -> bool) (s : str) :
  match dropWhile f s with [] => True | c :: _ => f c = false end.
Proof.
  induction s as [|c t IH]; cbn [dropWhile]; [exact I|].
  destruct (f c) eqn:E; [exact IH|exact E].
Qed.

Lemma dropWhile_app_last (f : char -> bool) (a : str) (c : char) :
  f c = false -> dropWhile f (a ++ [c]) = dropWhile f a ++ [c].
Proof.
  intros Hc. induction a as [|b t IH]; cbn [app dropWhile].
  - rewrite Hc. reflexivity.
  - destruct (f b); [exact IH|reflexivity].
Qed.

Lemma trim_idempotent (s : str) : trim (trim s) = trim s.
Proof.
  apply trim_fixed.
  - unfold trim, trimEnd, trimStart.
    pose proof (dropWhile_head is_space s) as Hh.
    destruct (dropWhile is_space s) as [|c t]; [exact I|].
    cbn [rev]. rewrite (@dropWhile_app_last is_space (rev t) c Hh).
    rewrite rev_app_distr. cbn [rev app]. exact Hh.
  - unfold trim, trimEnd. rewrite rev_involutive. apply dropWhile_head.
Qed.

Lemma item_le_total (a b : item) : item_le a b = false -> item_le b a = true.
Proof.
  unfold item_le.
  destruct (Z.eqb_spec (page a) (page b)) as [Ep|Ep];
    destruct (Z.eqb_spec (page b) (page a)) as [Ep'|Ep']; try congruence;
    cbn [negb].
  - destruct (Z.eqb_spec (y a) (y b)) as [Ey|Ey];
      destruct (Z.eqb_spec (y b) (y a)) as [Ey'|Ey']; try congruence;
      cbn [negb]; intros H; apply Z.leb_gt in H; apply Z.leb_le; lia.
  - intros H; apply Z.leb_gt in H; apply Z.leb_le; lia.
Qed.

Lemma item_le_trans (a b c : item) :
  item_le a b = true -> item_le b c = true -> item_le a c = true.
Proof.
  unfold item_le.
  destruct (Z.eqb_spec (page a) (page b)); destruct (Z.eqb_spec (page b) (page c));
    destruct (Z.eqb_spec (page a) (page c));
    destruct (Z.eqb_spec (y a) (y b)); destruct (Z.eqb_spec (y b) (y c));
    destruct (Z.eqb_spec (y a) (y c)); cbn [negb];
    rewrite ?Z.leb_le; lia.
Qed.

Lemma item_le_same_page (a b : item) :
  item_le a b = true -> page b = page a -> (y a <= y b)%Z.
Proof.
  unfold item_le. intros H E. rewrite E, Z.eqb_refl in H. cbn [negb] in H.
  destruct (Z.eqb_spec (y a) (y b)); cbn [negb] in H; [lia|].
  apply Z.leb_le in H. exact H.
Qed.

Lemma group_rows_concat (l cur : list item) (cy cp : Z) :
  concat (group_rows cur cy cp l) = cur ++ l.
Proof.
  revert cur cy cp. induction l as [|it t IH]; intros cur cy cp;
    cbn [group_rows].
  - rewrite app_nil_r. destruct cur; cbn [flush concat]; [reflexivity|].
    apply app_nil_r.
  - destruct (negb (page it =? cp)%Z || (4 <? Z.abs (y it - cy))%Z).
    + rewrite concat_app, IH.
      destruct cur; cbn [flush concat app]; [reflexivity|].
      rewrite app_nil_r. reflexivity.
    + rewrite IH, <- app_assoc. reflexivity.
Qed.

Lemma in_band_refl (a : item) : in_band a a.
Proof. unfold in_band. split; [reflexivity|lia]. Qed.

(** The state of the grouping loop: the current row begins with the item
    that opened it, which gave [currentY] and [currentPage]. *)
Lemma group_rows_bands (l : list item) :
  StronglySorted (fun a b => item_le a b = true) l ->
  forall cur cy cp,
    match cur with
    | [] => Forall (fun it => page it <> cp) l
    | a :: _ =>
        cy = y a /\ cp = page a /\ Forall (in_band a) cur
        /\ Forall (fun it => item_le a it = true) l
    end ->
    Forall (fun row => exists a rest, row = a :: rest /\ Forall (in_band a) row)
           (group_rows cur cy cp l).
Proof.
  induction 1 as [|it t Hs IH Hit]; intros cur cy cp Hinv; cbn [group_rows].
  - destruct cur as [|a cur']; cbn [flush]; constructor; [|constructor].
    destruct Hinv as (_ & _ & Hb & _). eauto.
  - assert (Hnew : Forall (fun row => exists a rest,
                             row = a :: rest /\ Forall (in_band a) row)
                          (group_rows [it] (y it) (page it) t)).
    { apply IH. repeat split; auto.
      constructor; [apply in_band_refl|constructor]. }
    destruct cur as [|a cur'].
    + inversion Hinv as [|? ? Hp _]; subst.
      destruct (Z.eqb_spec (page it) cp) as [E|_]; [congruence|].
      cbn [negb orb flush app]. exact Hnew.
    + destruct Hinv as (-> & -> & Hb & Hle).
      inversion Hle as [|? ? Ha Hle']; subst.
      destruct (negb (page it =? page a)%Z || (4 <? Z.abs (y it - y a))%Z)
        eqn:Ec.
      * cbn [flush]. apply Forall_app. split; [|exact Hnew].
        constructor; [eauto|constructor].
      * apply orb_false_iff in Ec. destruct Ec as [Ep Ey].
        apply negb_false_iff, Z.eqb_eq in Ep. apply Z.ltb_ge in Ey.
        pose proof (item_le_same_page _ _ Ha Ep) as Hy.
        apply (IH (a :: cur' ++ [it])). repeat split; auto.
        change (a :: cur' ++ [it]) with ((a :: cur') ++ [it]).
        apply Forall_app. split; [exact Hb|].
        constructor; [|constructor]. split; [exact Ep|lia].
Qed.

Lemma collect_In (glyphs : list item) (it : item) :
  In it (collect glyphs) ->
  exists g, In g glyphs /\ text it = trim (text g) /\ x it = x g
            /\ y it = y g /\ page it = page g /\ trim (text g) <> [].
Proof.
  unfold collect. rewrite in_map_iff. intros (g & <- & Hg).
  apply filter_In in Hg. destruct Hg as [Hg Ht].
  apply andb_true_iff in Ht. destruct Ht as [_ Ht].
  exists g. cbn. repeat split; auto.
  intros E. rewrite E in Ht. discriminate.
Qed.

(** X4.  Building the rows neither loses nor repeats a text item: the
    items of the rows, taken together, are the glyphs whose text is not
    blank, each with its text trimmed. *)
Theorem rows_hold_every_item_once (glyphs : list item) :
  Permutation (flat_map items (textRows_of glyphs)) (collect glyphs)
  /\ forall it,
       In it (collect glyphs) ->
       text it <> [] /\ trim (text it) = text it
       /\ exists g, In g glyphs /\ text it = trim (text g) /\ x it = x g
                    /\ y it = y g /\ page it = page g.
Proof.
  split.
  - unfold textRows_of.
    set (sorted := sort_by item_le (collect glyphs)).
    transitivity (concat (group_rows [] (-999) (-1) sorted)).
    + generalize (group_rows [] (-999) (-1) sorted). intros rows.
      induction rows as [|row rest IH]; cbn [map flat_map concat];
        [reflexivity|].
      apply Permutation_app; [|exact IH].
      cbn [make_row items]. apply sort_by_perm.
    + rewrite group_rows_concat. cbn [app]. apply sort_by_perm.
  - intros it Hin. destruct (collect_In _ _ Hin) as (g & Hg & Ht & Hx & Hy & Hp & Hne).
    split; [rewrite Ht; exact Hne|].
    split; [rewrite Ht; apply trim_idempotent|].
    exists g. auto.
Qed.

(** X5.  When the pages are numbered from 1, every row has an item that
    opened it, and every item of the row is on the page of that item and at
    most 4 units below it; the items of the row are ordered from left to
    right and the text of the row is their texts joined by two spaces. *)
Theorem row_is_a_band_ordered_by_x (glyphs : list item) (r : textRow) :
  Forall (fun g => (1 <= page g)%Z) glyphs ->
  In r (textRows_of glyphs) ->
  (exists a, In a (items r) /\ Forall (in_band a) (items r))
  /\ StronglySorted by_x (items r)
  /\ rtext r = join double_space (map text (items r)).
Proof.
  intros Hpages Hr. unfold textRows_of in Hr.
  apply in_map_iff in Hr. destruct Hr as (row & <- & Hrow).
  assert (Hb : Forall (fun row => exists a rest,
                         row = a :: rest /\ Forall (in_band a) row)
                      (group_rows [] (-999) (-1)
                                  (sort_by item_le (collect glyphs)))).
  { apply group_rows_bands.
    - apply sort_by_sorted; [apply item_le_total|apply item_le_trans].
    - apply Forall_forall. intros it Hit. apply sort_by_In in Hit.
      destruct (collect_In _ _ Hit) as (g & Hg & _ & _ & _ & Hp & _).
      rewrite Forall_forall in Hpages. specialize (Hpages g Hg). lia. }
  rewrite Forall_forall in Hb. destruct (Hb row Hrow) as (a & rest & -> & Hband).
  cbn [make_row items rtext]. split; [|split; [|reflexivity]].
  - exists a. split.
    + apply sort_by_In. left. reflexivity.
    + apply Forall_forall. intros it Hit. apply sort_by_In in Hit.
      rewrite Forall_forall in Hband. auto.
  - eapply StronglySorted_ind with
      (P := fun l => StronglySorted by_x l).
    3: apply (@sort_by_sorted item (fun a b => Z.leb (x a) (x b))).
    + constructor.
    + intros b l _ IH Hbl. constructor; [exact IH|].
      eapply Forall_impl; [|exact Hbl]. intros c Hc.
      apply Z.leb_le in Hc. exact Hc.
    + intros b c H. apply Z.leb_gt in H. apply Z.leb_le. lia.
    + intros b c e H1 H2. apply Z.leb_le in H1, H2. apply Z.leb_le. lia.
Qed.

(** ** Column assignment and extraction *)

(** X6.  An amount printed at [px] goes to the anchored column whose title
    is nearest; a title at position 0 counts as missing; among columns
    equally near, withdrawal comes before deposit and deposit before
    balance.  With no anchored column the amount goes nowhere. *)
Theorem closest_is_the_nearest_anchor (cm : colMap) (px : Z) :
  (forall c dist,
     closest cm px = Some (c, dist) ->
     exists v,
       anchor_of cm c = Some v /\ v <> 0%Z /\ dist = Z.abs (px - v)
       /\ forall c' v',
            anchor_of cm c' = Some v' -> v' <> 0%Z ->
            (dist <= Z.abs (px - v'))%Z
            /\ ((rank c' < rank c)%nat -> (dist < Z.abs (px - v'))%Z))
  /\ (closest cm px = None <->
      forall c v, anchor_of cm c = Some v -> v = 0%Z).
Proof.
  unfold closest, distances, distance.
  destruct cm as [cd cn cr cv cw cdp cb]. cbn [c_withdrawal c_deposit c_balance].
  assert (Hanchor : forall c, anchor_of (mkColMap cd cn cr cv cw cdp cb) c
                              = match c with
                                | Withdrawal => cw
                                | Deposit => cdp
                                | Balance => cb
                                end) by (intros []; reflexivity).
  split.
  - intros c dist.
    destruct cw as [w|]; [destruct (Z.eqb_spec w 0)|];
      (destruct cdp as [dp|]; [destruct (Z.eqb_spec dp 0)|]);
      (destruct cb as [b|]; [destruct (Z.eqb_spec b 0)|]);
      cbn [app sort_by fold_right insert_by snd hd_error];
      repeat match goal with
             | |- context [Z.leb ?a ?b] =>
                 destruct (Z.leb_spec a b); cbn [insert_by snd hd_error]
             end;
      intros E; inversion E; subst; clear E;
      eexists; (split; [reflexivity|]); (split; [assumption|]);
      (split; [reflexivity|]);
      intros [] v' Hv' Hnz; cbn in Hv'; inversion Hv'; subst;
      try congruence; cbn [rank]; split; intros; lia.
  - split.
    + intros E c v Hv. rewrite Hanchor in Hv.
      destruct cw as [w|]; [destruct (Z.eqb_spec w 0)|];
        (destruct cdp as [dp|]; [destruct (Z.eqb_spec dp 0)|]);
        (destruct cb as [b|]; [destruct (Z.eqb_spec b 0)|]);
        cbn [app sort_by fold_right insert_by snd hd_error] in E;
        repeat match type of E with
               | context [Z.leb ?a ?b] =>
                   destruct (Z.leb_spec a b); cbn [insert_by snd hd_error] in E
               end;
        try discriminate; destruct c; inversion Hv; subst; auto.
    + intros H.
      assert (Hw := H Withdrawal). assert (Hd := H Deposit).
      assert (Hb := H Balance). cbn in Hw, Hd, Hb.
      destruct cw as [w|]; [rewrite (Hw w eq_refl)|];
        (destruct cdp as [dp|]; [rewrite (Hd dp eq_refl)|]);
        (destruct cb as [b|]; [rewrite (Hb b eq_refl)|]); reflexivity.
Qed.

(** X7.  The rows that continue a transaction are the rows that follow its
    first row up to, and without, the next row that begins with a date or
    with a summary word ("total", "opening", "closing", "statement"):
    their items are collected in order and the remaining rows begin with
    that row. *)
Theorem continuation_stops_at_the_next_entry (rows : list textRow) :
  exists taken,
    rows = taken ++ snd (continuation rows)
    /\ fst (continuation rows) = flat_map items taken
    /\ Forall (fun r => stops_continuation r = false) taken
    /\ match snd (continuation rows) with
       | [] => True
       | r :: _ => stops_continuation r = true
       end.
Proof.
  unfold stops_continuation.
  induction rows as [|r rest (taken & E1 & E2 & Hall & Hnext)];
    cbn [continuation].
  - exists []. repeat split; constructor.
  - destruct (dateRegex_test (first_text r)) eqn:Ed.
    + exists []. cbn [fst snd app flat_map]. rewrite Ed.
      repeat split; constructor.
    + destruct (is_terminal (first_text r)) eqn:Et.
      * exists []. cbn [fst snd app flat_map]. rewrite Ed, Et.
        repeat split; constructor.
      * destruct (continuation rest) as [more rest'] eqn:Ec.
        cbn [fst snd] in *. exists (r :: taken).
        cbn [app flat_map]. rewrite <- E1, <- E2.
        repeat split; auto. constructor; [|exact Hall].
        rewrite Ed, Et. reflexivity.
Qed.

(** ** What the extractors emit *)

Lemma gt0_not_zero (n : num) : gt0 n = true -> is_zero n = false.
Proof.
  destruct n as [|neg|q]; cbn [gt0 is_zero]; try reflexivity.
  intros H. apply negb_true_iff in H.
  destruct (Qeq_bool q 0) eqn:E; [|reflexivity].
  apply Qeq_bool_iff in E.
  assert (Hle : Qle_bool q 0 = true) by (apply Qle_bool_iff; rewrite E; apply Qle_refl).
  congruence.
Qed.

Lemma finish_In (d : str) (f : fields) (c : candidate) :
  In c (finish d f) ->
  Pdf.date c = d /\ gt0 (amount c) = true /\ description c <> [].
Proof.
  unfold finish.
  set (desc := trim (collapse_ws (join (lit " ") (narrationParts f)))).
  destruct (gt0 (withdrawal f)) eqn:Ew;
    [|destruct (gt0 (deposit f)) eqn:Ed];
    cbn [andb]; rewrite ?Ew, ?Ed; cbn [gt0 zero andb Qle_bool];
    try (intros []);
    (destruct desc as [|c0 t0] eqn:Edesc; cbn [length Nat.ltb Nat.leb andb];
     [intros []|]);
    intros [<-|[]]; cbn [Pdf.date amount description];
    (repeat split; auto; destruct (truthy (refNo f)); discriminate).
Qed.

Section Emitted.

Variable nativeDate : str -> option str.

Lemma extract_rows_In (cm : colMap) (fuel : nat) :
  forall rows c,
    In c (extract_rows nativeDate fuel cm rows) ->
    gt0 (amount c) = true /\ description c <> []
    /\ exists s, parseDate nativeDate s = Some (Pdf.date c).
Proof.
  induction fuel as [|fuel IH]; intros rows c; cbn [extract_rows];
    [intros []|].
  destruct rows as [|row rest]; [intros []|].
  destruct (negb (dateRegex_test (first_text row))); [apply IH|].
  destruct (parseDate nativeDate (first_text row)) as [d|] eqn:Ed;
    [|apply IH].
  destruct (continuation rest) as [more rest'].
  intros Hin. apply in_app_or in Hin. destruct Hin as [Hin|Hin];
    [|apply IH in Hin; exact Hin].
  apply finish_In in Hin. destruct Hin as (Hd & Ha & Hdesc).
  repeat split; auto. exists (first_text row). rewrite Hd. exact Ed.
Qed.

Lemma line_candidate_In (bankType line : str) (next : option str)
      (c : candidate) :
  In c (line_candidate nativeDate bankType line next) ->
  gt0 (amount c) = true
  /\ exists s, parseDate nativeDate s = Some (Pdf.date c).
Proof.
  unfold line_candidate.
  destruct (dateRegex_match line) as [[matched afterDate]|]; [|intros []].
  destruct (parseDate nativeDate matched) as [d|] eqn:Ed; [|intros []].
  destruct (map parseAmount (scan_amounts 0 afterDate)) as [|a0 amounts];
    [intros []|].
  destruct (pick_amount (a0 :: amounts)) as [[amt ty] bal].
  destruct (gt0 amt) eqn:Ea; [|intros []].
  intros [<-|[]]. cbn [amount Pdf.date]. split; [exact Ea|].
  exists matched. exact Ed.
Qed.

(** X8.  No extractor of the page-layout reader emits a transaction
    without a positive amount or without a date that [parseDate] produced;
    a transaction read under a table header also has a description that is
    not empty. *)
Theorem pdf_candidates_are_dated_and_positive (glyphs : list item)
        (c : candidate) :
  In c (parsePDF nativeDate glyphs) ->
  gt0 (amount c) = true
  /\ (exists s, parseDate nativeDate s = Some (Pdf.date c))
  /\ (headerRowIdx (textRows_of glyphs) <> None -> description c <> []).
Proof.
  unfold parsePDF, parsePDF_rows.
  destruct (headerRowIdx (textRows_of glyphs)) as [i|] eqn:Eh.
  - intros Hin. apply extract_rows_In in Hin.
    destruct Hin as (Ha & Hd & Hs). auto.
  - intros Hin. apply parsePDFLineBased_In in Hin.
    destruct Hin as (i & row & _ & Hin). apply line_candidate_In in Hin.
    destruct Hin as (Ha & Hs). repeat split; auto; congruence.
Qed.

(** X9.  On a statement that is not a card statement the line-based
    extractor reads the direction off the number of amounts printed after
    the date: with three amounts or more and a positive second amount the
    line is an inflow of the second amount; otherwise it is an outflow of
    the first amount.  The last amount is the balance when there are two
    amounts or more. *)
Theorem line_based_direction_off_card (bankType line : str)
        (next : option str) (c : candidate) :
  is_credit_card bankType = false ->
  In c (line_candidate nativeDate bankType line next) ->
  let amounts := line_amounts line in
  if (3 <=? length amounts)%nat && gt0 (nth 1 amounts zero)
  then transaction_type c = Credit
       /\ amount c = nth 1 amounts zero
       /\ balance c = Some (last amounts zero)
  else transaction_type c = Debit
       /\ amount c = nth 0 amounts zero
       /\ balance c = match amounts with
                      | _ :: _ :: _ => Some (last amounts zero)
                      | _ => None
                      end.
Proof.
  intros Hcc. unfold line_candidate, line_amounts. rewrite Hcc.
  destruct (dateRegex_match line) as [[matched afterDate]|]; [|intros []].
  destruct (parseDate nativeDate matched) as [d|]; [|intros []].
  set (amounts := map parseAmount (scan_amounts 0 afterDate)).
  destruct amounts as [|a0 [|a1 [|a2 rest]]] eqn:Eam; [intros []| | |].
  - cbn [pick_amount length Nat.leb Nat.ltb Nat.eqb andb nth].
    destruct (gt0 a0); [|intros []]. intros [<-|[]]. cbn. auto.
  - unfold pick_amount.
    cbn [length Nat.leb Nat.ltb Nat.eqb andb nth last].
    destruct (gt0 a0); [|intros []]. intros [<-|[]]. cbn. auto.
  - unfold pick_amount.
    change ((3 <=? length (a0 :: a1 :: a2 :: rest))%nat) with true.
    change ((length (a0 :: a1 :: a2 :: rest) <? 3)%nat) with false.
    cbn [andb orb nth].
    destruct (gt0 a1) eqn:E1.
    + rewrite (gt0_not_zero _ E1), andb_false_r. cbv beta iota.
      rewrite E1.
      intros [<-|[]]. cbn [transaction_type amount balance]. auto.
    + destruct (gt0 a0 && is_zero a1) eqn:E0; cbv beta iota.
      * apply andb_true_iff in E0. destruct E0 as [E0 _]. rewrite E0.
        intros [<-|[]]. cbn [transaction_type amount balance]. auto.
      * destruct (gt0 a0) eqn:Eg; [|intros []].
        intros [<-|[]]. cbn [transaction_type amount balance]. auto.
Qed.

End Emitted.

(** ** Delimited statements *)

Lemma includes_iff (s p : str) :
  includes s p = true <-> exists pre post, s = pre ++ p ++ post.
Proof.
  induction s as [|c t IH]; cbn [includes].
  - rewrite orb_false_r, startsWith_iff. split.
    + intros (r & E). exists [], r. exact E.
    + intros (pre & post & E). destruct pre; [eauto|discriminate].
  - rewrite orb_true_iff, startsWith_iff, IH. split.
    + intros [(r & E)|(pre & post & E)].
      * exists [], r. exact E.
      * exists (c :: pre), post. rewrite E. reflexivity.
    + intros (pre & post & E). destruct pre as [|a pre].
      * left. eauto.
      * right. injection E as _ E. eauto.
Qed.

Lemma includes_trans (s b a : str) :
  includes s b = true -> includes b a = true -> includes s a = true.
Proof.
  rewrite !includes_iff. intros (p1 & q1 & ->) (p2 & q2 & ->).
  exists (p1 ++ p2), (q2 ++ q1). rewrite <- !app_assoc. reflexivity.
Qed.

Lemma findIndex_map (f : str -> bool) (g : str -> str) (l : list str) :
  match findIndex f (map g l) with
  | Some idx =>
      exists h, nth_error l idx = Some h
                /\ first_match (fun h => f (g h)) l h
  | None => Forall (fun h => f (g h) = false) l
  end.
Proof.
  induction l as [|a t IH]; cbn [map findIndex]; [constructor|].
  destruct (f (g a)) eqn:Ea.
  - exists a. split; [reflexivity|]. exists [], t. repeat split; auto.
  - destruct (findIndex f (map g t)) as [idx|]; cbn [option_map].
    + destruct IH as (h & Hn & before & after & -> & Hh & Hb).
      exists h. split; [exact Hn|].
      exists (a :: before), after. repeat split; auto.
    + constructor; assumption.
Qed.

(** X10.  A column is looked up by trying the names in the order given:
    the first name that some header contains, once the header is
    lower-cased and trimmed, decides, and among the headers that contain it
    the first one is the column.  No column is found only when no header
    contains any of the names. *)
Theorem findCol_takes_first_name_then_first_header
        (actual names : list str) :
  match findCol actual names with
  | Some col =>
      exists name,
        first_match (fun n => existsb (header_has n) actual) names name
        /\ first_match (header_has name) actual col
  | None =>
      forall name h, In name names -> In h actual -> header_has name h = false
  end.
Proof.
  induction names as [|name rest IH]; cbn [findCol].
  - intros name h [].
  - pose proof (findIndex_map (fun h => includes h (toLowerCase name))
                              (fun h => trim (toLowerCase h)) actual) as Hf.
    destruct (findIndex (fun h => includes h (toLowerCase name))
                        (map (fun h => trim (toLowerCase h)) actual))
      as [idx|].
    + destruct Hf as (h & -> & Hfirst). exists name. split; [|exact Hfirst].
      exists [], rest. repeat split; auto.
      destruct Hfirst as (before & after & -> & Hh & _).
      apply existsb_exists. exists h. split; [|exact Hh].
      apply in_or_app. right. left. reflexivity.
    + assert (Hnone : existsb (header_has name) actual = false).
      { destruct (existsb (header_has name) actual) eqn:E; [|reflexivity].
        apply existsb_exists in E. destruct E as (h & Hin & Hh).
        rewrite Forall_forall in Hf. unfold header_has in Hh.
        rewrite (Hf h Hin) in Hh. discriminate. }
      destruct (findCol actual rest) as [col|].
      * destruct IH as (name' & (before & after & -> & Hn & Hb) & Hcol).
        exists name'. split; [|exact Hcol].
        exists (name :: before), after. repeat split; auto.
      * intros name' h [<-|Hin] Hh.
        -- rewrite Forall_forall in Hf. apply Hf. exact Hh.
        -- apply IH; assumption.
Qed.

Lemma findCol_none (actual names : list str) :
  (forall name h, In name names -> In h actual -> header_has name h = false) ->
  findCol actual names = None.
Proof.
  induction names as [|name rest IH]; intros H; cbn [findCol];
    [reflexivity|].
  pose proof (findIndex_map (fun h => includes h (toLowerCase name))
                            (fun h => trim (toLowerCase h)) actual) as Hf.
  destruct (findIndex (fun h => includes h (toLowerCase name))
                      (map (fun h => trim (toLowerCase h)) actual))
    as [idx|].
  - destruct Hf as (h & _ & before & after & -> & Hh & _).
    assert (Hin : In h (before ++ h :: after)) by apply in_elt.
    assert (Hn : In name (name :: rest)) by (left; reflexivity).
    specialize (H name h Hn Hin). unfold header_has in H. congruence.
  - apply IH. intros name' h Hn Hh. apply H; [right; exact Hn|exact Hh].
Qed.

(** A name shadows the names that contain it. *)
Lemma findCol_shadowed (actual : list str) (name : str) (rest : list str) :
  Forall (fun n => includes (toLowerCase n) (toLowerCase name) = true) rest ->
  findCol actual (name :: rest) = find (header_has name) actual.
Proof.
  intros Hrest. cbn [findCol].
  pose proof (findIndex_map (fun h => includes h (toLowerCase name))
                            (fun h => trim (toLowerCase h)) actual) as Hf.
  destruct (findIndex (fun h => includes h (toLowerCase name))
                      (map (fun h => trim (toLowerCase h)) actual))
    as [idx|].
  - destruct Hf as (h & -> & Hfirst). symmetry.
    apply find_first_match. exact Hfirst.
  - rewrite (find_none_all (header_has name) Hf).
    apply findCol_none. intros name' h Hn Hh.
    destruct (header_has name' h) eqn:E; [|reflexivity]. exfalso.
    rewrite Forall_forall in Hrest, Hf. specialize (Hrest name' Hn).
    assert (Hc : header_has name h = true).
    { unfold header_has in *. eapply includes_trans; eauto. }
    unfold header_has in Hc. rewrite (Hf h Hh) in Hc. discriminate.
Qed.

Lemma nonnegative_not_zero (n : num) :
  nonnegative n -> is_zero n = false -> gt0 n = true.
Proof.
  destruct n as [|neg|q]; cbn [nonnegative is_zero gt0].
  - intros [].
  - intros ->. reflexivity.
  - intros Hq Hz. apply negb_true_iff.
    destruct (Qle_bool q 0) eqn:E; [|reflexivity].
    apply Qle_bool_iff in E.
    assert (Hq0 : q == 0) by (apply Qle_antisym; assumption).
    apply Qeq_bool_iff in Hq0. congruence.
Qed.

Lemma parseAmount_nonnegative (s : str) : nonnegative (parseAmount s).
Proof. rewrite parseAmount_kept. apply amount_of_nonnegative. Qed.

Section DelimitedStatements.

Variable nativeDate : str -> option str.

Lemma row_candidate_In (cols : columns) (row : record) (c : candidate) :
  In c (row_candidate nativeDate cols row) ->
  gt0 (amount c) = true
  /\ (exists k, dateCol cols = Some k
               /\ parseDate nativeDate (or_empty (field row k))
                  = Some (Pdf.date c))
  /\ description c = match descCol cols with
                     | Some k => trim (or_empty (field row k))
                     | None => []
                     end.
Proof.
  unfold row_candidate.
  destruct (dateCol cols) as [k|]; [|intros []].
  destruct (parseDate nativeDate (or_empty (field row k))) as [d|] eqn:Ed;
    [|intros []].
  assert (Hk : exists k', Some k = Some k'
                          /\ parseDate nativeDate (or_empty (field row k'))
                             = Some d) by eauto.
  destruct (debitCol cols) as [dk|]; [destruct (creditCol cols) as [ck|]|].
  - destruct (gt0 (parseAmount (or_empty (field row dk)))) eqn:E1.
    + intros [<-|[]]. cbn. auto.
    + destruct (gt0 (parseAmount (or_empty (field row ck)))) eqn:E2;
        [|intros []].
      intros [<-|[]]. cbn. auto.
  - destruct (amountCol cols) as [ak|]; [|intros []].
    destruct (is_zero (parseAmount (or_empty (field row ak)))) eqn:Ez;
      [intros []|].
    intros [<-|[]]. cbn [amount Pdf.date description].
    split; [|auto].
    apply nonnegative_not_zero; [apply parseAmount_nonnegative|exact Ez].
  - destruct (amountCol cols) as [ak|]; [|intros []].
    destruct (is_zero (parseAmount (or_empty (field row ak)))) eqn:Ez;
      [intros []|].
    intros [<-|[]]. cbn [amount Pdf.date description].
    split; [|auto].
    apply nonnegative_not_zero; [apply parseAmount_nonnegative|exact Ez].
Qed.

Lemma row_candidate_at_most_one (cols : columns) (row : record) :
  (length (row_candidate nativeDate cols row) <= 1)%nat.
Proof.
  unfold row_candidate.
  repeat match goal with
         | |- context [match ?o with Some _ => _ | None => _ end] =>
             destruct o
         | |- context [if ?b then _ else _] => destruct b
         end; cbn [length]; lia.
Qed.

(** X11.  The date column of a delimited statement is the first header
    that contains "date": the longer synonyms ("txn date", "value date",
    ...) all contain it and never decide.  A file without such a header
    yields no transaction at all. *)
Theorem date_column_is_first_header_with_date (data : list record) :
  dateCol (detect (keys data))
  = find (fun h => has (trim (toLowerCase h)) "date") (keys data)
  /\ (dateCol (detect (keys data)) = None -> parseCSV nativeDate data = []).
Proof.
  split.
  - cbn [detect dateCol]. unfold date_names. cbn [map].
    rewrite findCol_shadowed; [reflexivity|].
    repeat constructor.
  - intros Hnone. unfold parseCSV. destruct data as [|first rest];
      [reflexivity|].
    generalize (first :: rest) at 2. intros rows.
    induction rows as [|row rows IH]; cbn [flat_map]; [reflexivity|].
    rewrite IH, app_nil_r. unfold row_candidate. rewrite Hnone.
    reflexivity.
Qed.

(** X12.  Every transaction read from a delimited statement has a positive
    amount, the date that [parseDate] makes of the date field of one of the
    records, and the trimmed text of its description field; a record gives
    at most one transaction. *)
Theorem csv_candidates_come_from_dated_records (data : list record) :
  (forall c,
     In c (parseCSV nativeDate data) ->
     gt0 (amount c) = true
     /\ exists row k,
          In row data
          /\ dateCol (detect (keys data)) = Some k
          /\ parseDate nativeDate (or_empty (field row k))
             = Some (Pdf.date c)
          /\ description c
             = match descCol (detect (keys data)) with
               | Some dk => trim (or_empty (field row dk))
               | None => []
               end)
  /\ (length (parseCSV nativeDate data) <= length data)%nat.
Proof.
  unfold parseCSV. destruct data as [|first rest].
  { split; [intros c []|reflexivity]. }
  set (cols := detect (keys (first :: rest))).
  generalize (first :: rest). intros rows. split.
  - intros c Hin. apply in_flat_map in Hin. destruct Hin as (row & Hrow & Hin).
    apply row_candidate_In in Hin. destruct Hin as (Ha & (k & Hk & Hd) & Hdesc).
    split; [exact Ha|]. exists row, k. auto.
  - induction rows as [|row rows IH]; cbn [flat_map length]; [lia|].
    rewrite length_app.
    pose proof (row_candidate_at_most_one cols row). lia.
Qed.

Lemma remove_is_kept (s : str) : remove is_rupee_comma_or_space s = kept s.
Proof.
  unfold remove, kept. apply filter_ext. intros c.
  unfold is_rupee_comma_or_space, kept_char, is_rupee_or_space.
  destruct (N.eqb c rupee), (is_comma c), (is_space c); reflexivity.
Qed.

Lemma ge0_is_gt0 (n : num) : is_zero (abs n) = false -> ge0 n = gt0 n.
Proof.
  destruct n as [|neg|q]; cbn [abs is_zero ge0 gt0]; try reflexivity.
  intros Hz.
  assert (Hq : ~ q == 0).
  { intros E. assert (Qabs q == 0) as Ha by (rewrite E; reflexivity).
    apply Qeq_bool_iff in Ha. congruence. }
  destruct (Qle_bool 0 q) eqn:E1; destruct (Qle_bool q 0) eqn:E2;
    cbn [negb]; try reflexivity; exfalso.
  - apply Qle_bool_iff in E1, E2. apply Hq. apply Qle_antisym; assumption.
  - destruct (Qlt_le_dec q 0) as [H|H].
    + apply Qlt_le_weak in H. apply Qle_bool_iff in H. congruence.
    + apply Qle_bool_iff in H. congruence.
Qed.

(** X13.  With a single amount column and no type column the sign of the
    number written decides: a record gives a transaction only when the
    field, without rupee signs, commas and white space, begins with a number
    other than zero; the amount is its absolute value, a positive number is
    an inflow and a negative one an outflow. *)
Theorem single_amount_column_sign (cols : columns) (row : record)
        (ak : str) (c : candidate) :
  debitCol cols = None \/ creditCol cols = None ->
  amountCol cols = Some ak ->
  typeCol cols = None ->
  In c (row_candidate nativeDate cols row) ->
  let written := parseFloat (kept (or_empty (field row ak))) in
  isNaN written = false
  /\ is_zero written = false
  /\ amount c = abs written
  /\ transaction_type c = if gt0 written then Credit else Debit.
Proof.
  intros Hcols Hak Hty. unfold row_candidate. rewrite Hak, Hty.
  destruct (parseDate nativeDate _) as [d|]; [|intros []].
  rewrite remove_is_kept, parseAmount_kept. unfold amount_of.
  set (written := parseFloat (kept (or_empty (field row ak)))).
  assert (Hbody :
            In c (if is_zero (if isNaN written then zero else abs written)
                  then []
                  else [mkCandidate d
                          match descCol cols with
                          | Some k => trim (or_empty (field row k))
                          | None => []
                          end
                          (if isNaN written then zero else abs written)
                          (if ge0 written then Credit else Debit)
                          match balCol cols with
                          | Some k => Some (parseAmount (or_empty (field row k)))
                          | None => None
                          end]) ->
            isNaN written = false /\ is_zero written = false
            /\ amount c = abs written
            /\ transaction_type c = (if gt0 written then Credit else Debit)).
  { destruct (isNaN written) eqn:En; [intros []|].
    destruct (is_zero (abs written)) eqn:Ez; [intros []|].
    intros [<-|[]]. cbn [amount transaction_type].
    rewrite (ge0_is_gt0 _ Ez). repeat split; auto.
    destruct written as [|neg|q]; cbn [is_zero abs] in *; auto.
    destruct (Qeq_bool q 0) eqn:Eq; [|reflexivity].
    apply Qeq_bool_iff in Eq.
    assert (Qabs q == 0) as Ha by (rewrite Eq; reflexivity).
    apply Qeq_bool_iff in Ha. congruence. }
  destruct Hcols as [Hd|Hc].
  - rewrite Hd. exact Hbody.
  - rewrite Hc. destruct (debitCol cols); exact Hbody.
Qed.

End DelimitedStatements.

(** ** The source account *)

Lemma traverse_Forall2 (A B : Type) (f : A -> option B) (l : list A)
      (out : list B) :
  traverse f l = Some out -> Forall2 (fun a b => f a = Some b) l out.
Proof.
  revert out. induction l as [|a t IH]; intros out; cbn [traverse].
  - intros E. injection E as <-. constructor.
  - destruct (f a) as [b|] eqn:Ea; [|discriminate].
    destruct (traverse f t) as [bs|]; [|discriminate].
    intros E. injection E as <-. constructor; auto.
Qed.

(** X14.  A source account that is not an account of the caller is
    ignored: the suggestions are those made without a source account. *)
Theorem foreign_source_account_is_ignored
        (d : db) (userId : uuid) (candidates : list candidate) (sid : uuid) :
  (forall a, In a (accounts d) -> acc_account_id a = sid ->
             acc_user_id a <> userId) ->
  autoClassify d userId candidates (Some sid)
  = autoClassify d userId candidates None.
Proof.
  intros H. unfold autoClassify.
  assert (E : find (fun a => N.eqb (acc_account_id a) sid)
                   (accounts_of d userId) = None).
  { apply find_none_all. apply Forall_forall. intros a Ha.
    unfold accounts_of in Ha. apply filter_In in Ha. destruct Ha as [Ha Hu].
    apply N.eqb_eq in Hu. apply N.eqb_neq. intros Hs.
    exact (H a Ha Hs Hu). }
  rewrite E. reflexivity.
Qed.

(** X15.  With a source account of the caller, the side of the money is
    never left open: an outflow is credited to, and an inflow debited to,
    the account that the matching learned rule names for that side, and the
    source account when no rule matches or the rule names none.  The
    candidates come back in order, each with its suggestion. *)
Theorem source_account_takes_the_open_side
        (d : db) (userId : uuid) (candidates : list candidate) (sid : uuid)
        (src : account) (out : list classified) :
  find (fun a => N.eqb (acc_account_id a) sid) (accounts_of d userId)
  = Some src ->
  autoClassify d userId candidates (Some sid) = Some out ->
  acc_account_id src = sid /\ acc_user_id src = userId
  /\ Forall2
       (fun t c =>
          tx c = t
          /\ let rule := find (rule_matches (toLowerCase (description t)))
                              (rules_of d userId) in
             match transaction_type t with
             | Debit =>
                 suggested_credit_account_id c
                 = Some match option_map rule_credit_account_id rule with
                        | Some (Some v) => v
                        | _ => sid
                        end
             | Credit =>
                 suggested_debit_account_id c
                 = Some match option_map rule_debit_account_id rule with
                        | Some (Some v) => v
                        | _ => sid
                        end
             end)
       candidates out.
Proof.
  intros Hsrc. unfold autoClassify. rewrite Hsrc. intros Hout.
  pose proof (find_some _ _ Hsrc) as [Hin Hid]. apply N.eqb_eq in Hid.
  unfold accounts_of in Hin. apply filter_In in Hin.
  destruct Hin as [_ Hu]. apply N.eqb_eq in Hu.
  split; [exact Hid|]. split; [exact Hu|].
  apply traverse_Forall2 in Hout.
  eapply Forall2_impl; [|exact Hout].
  intros t c. cbv beta. unfold classify_one.
  destruct (find (rule_matches (toLowerCase (description t)))
                 (rules_of d userId)) as [rule|];
    cbn [option_map].
  - destruct (js_eq (rule_category rule) Uncategorized);
      [destruct (find (default_matches (toLowerCase (description t)))
                      defaultRules)|];
      destruct (transaction_type t);
      destruct (rule_debit_account_id rule) as [da|];
      destruct (rule_credit_account_id rule) as [ca|];
      cbn [or_else];
      repeat match goal with
             | |- context [find_account ?w ?c ?a] =>
                 destruct (find_account w c a)
             end;
      intros E; inversion E; subst; cbn; rewrite ?Hid; auto.
  - change (js_eq (Some Uncategorized) Uncategorized) with true. cbv iota.
    destruct (find (default_matches (toLowerCase (description t)))
                   defaultRules);
      destruct (transaction_type t); cbn [or_else];
      repeat match goal with
             | |- context [find_account ?w ?c ?a] =>
                 destruct (find_account w c a)
             end;
      intros E; inversion E; subst; cbn; rewrite ?Hid; auto.
Qed.

Local Open Scope Z_scope.

(** ** Confirmation, once more *)

Lemma confirm_row_counts us accs userId p s :
  let q := confirm_row us accs userId p s in
  (imported q + skipped q + length (errors q)
   = S (imported p + skipped p + length (errors p)))%nat
  /\ exists new,
       p_transactions q = p_transactions p ++ new
       /\ (length new + imported p = imported q)%nat.
Proof.
  cbn zeta. unfold confirm_row.
  destruct (st_suggested_debit_account_id s) as [debit|];
    [destruct (st_suggested_credit_account_id s) as [credit|]|].
  - destruct (is_duplicate (p_transactions p) userId s).
    + cbn. split; [lia|]. exists []. rewrite app_nil_r. auto.
    + destruct (insert_transaction us accs userId s debit credit) as [t|e].
      * cbn. split; [lia|]. exists [t]. auto.
      * cbn. rewrite length_app. cbn. split; [lia|].
        exists []. rewrite app_nil_r. auto.
  - cbn. split; [lia|]. exists []. rewrite app_nil_r. auto.
  - cbn. split; [lia|]. exists []. rewrite app_nil_r. auto.
Qed.

Lemma confirm_rows_counts us accs userId rows :
  forall p,
    let q := confirm_rows us accs userId rows p in
    (imported q + skipped q + length (errors q)
     = imported p + skipped p + length (errors p) + length rows)%nat
    /\ exists new,
         p_transactions q = p_transactions p ++ new
         /\ (length new + imported p = imported q)%nat.
Proof.
  unfold confirm_rows.
  induction rows as [|s rest IH]; intros p; cbn [fold_left length].
  - cbn zeta. split; [lia|]. exists []. rewrite app_nil_r. auto.
  - cbn zeta. destruct (confirm_row_counts us accs userId p s) as (H1 & new1 & H2 & H3).
    destruct (IH (confirm_row us accs userId p s)) as (I1 & new2 & I2 & I3).
    cbn zeta in *. split; [lia|].
    exists (new1 ++ new2). rewrite I2, H2, <- app_assoc.
    split; [reflexivity|]. rewrite length_app. lia.
Qed.

(** X16.  Confirm accounts for every row that it selects: each row is
    imported, skipped or reported as an error.  The reply lists five errors
    at most, so the three numbers of the reply add up to the number of rows
    selected when fewer than five errors are listed, and to no more
    otherwise.  The ledger keeps its rows and gains exactly as many as the
    reply counts as imported. *)
Theorem confirm_accounts_for_every_row
        userId batch_id d (imp skip : nat) (errs : list (Z * pg_error)) :
  fst (confirm userId batch_id d) = ConfirmResult imp skip errs ->
  let d' := snd (confirm userId batch_id d) in
  let n := length (to_confirm userId batch_id d) in
  (imp + skip + length errs <= n)%nat
  /\ ((length errs < 5)%nat -> (imp + skip + length errs = n)%nat)
  /\ exists new,
       transactions d' = transactions d ++ new /\ length new = imp.
Proof.
  unfold confirm.
  destruct (to_confirm userId batch_id d) as [|s0 rows] eqn:Esel;
    [discriminate|].
  pose proof (confirm_rows_counts (users d) (accounts d) userId (s0 :: rows)
                (mkProgress (transactions d) (category_rules d) 0 0 []))
    as H.
  cbv zeta in H. cbv zeta.
  set (q := confirm_rows (users d) (accounts d) userId (s0 :: rows)
              (mkProgress (transactions d) (category_rules d) 0 0 [])) in *.
  clearbody q.
  cbn [imported skipped errors p_transactions length] in H.
  destruct H as (H1 & new & H2 & H3).
  cbv beta iota delta [fst snd]. intros E.
  assert (E1 : imported q = imp) by congruence.
  assert (E2 : skipped q = skip) by congruence.
  assert (E3 : firstn 5 (errors q) = errs) by congruence.
  clear E. subst imp skip errs.
  cbn [transactions]. rewrite length_firstn. cbn [length].
  split; [lia|]. split; [lia|].
  exists new. split; [exact H2|lia].
Qed.

(** X17.  Confirm removes from the staging table every row that it
    selected, whether the row was imported, skipped for a missing account or
    a duplicate, or refused by the ledger; a second Confirm with the same
    argument therefore finds nothing, answers 400 and changes nothing. *)
Theorem confirm_consumes_what_it_selects userId batch_id d :
  (forall s,
     In s (to_confirm userId batch_id d) ->
     ~ In s (staged_transactions (snd (confirm userId batch_id d))))
  /\ confirm userId batch_id (snd (confirm userId batch_id d))
     = (Failure 400, snd (confirm userId batch_id d)).
Proof.
  split.
  - intros s Hs. unfold confirm.
    destruct (to_confirm userId batch_id d) as [|s0 rows] eqn:Esel;
      [destruct Hs|].
    rewrite <- Esel in Hs. clear Esel. cbn [snd staged_transactions].
    unfold to_confirm in Hs. apply filter_In in Hs. destruct Hs as [_ Hs].
    apply andb_true_iff in Hs. destruct Hs as [Hs Hb].
    apply andb_true_iff in Hs. destruct Hs as [Ho Hn].
    unfold after_confirm, in_batch in *.
    destruct (given batch_id) as [b|]; intros Hin;
      apply filter_In in Hin; destruct Hin as [_ Hin];
      rewrite Ho, ?Hb, ?Hn in Hin; discriminate.
  - destruct (confirm_again_finds_nothing userId batch_id d) as [E|[E1 E2]].
    + unfold confirm at 1. rewrite E. reflexivity.
    + rewrite E1. unfold confirm. rewrite E2. reflexivity.
Qed.

(** ** The rule corpus keeps its key *)

Lemma same_key_iff userId pattern r :
  same_key userId pattern r = true <-> rule_key r = (userId, pattern).
Proof.
  unfold same_key, rule_key. rewrite andb_true_iff, N.eqb_eq, str_eqb_eq.
  split; [intros [-> ->]; reflexivity|intros E; injection E; auto].
Qed.

Lemma upsert_into_keys userId pattern category debit credit rules rules' :
  upsert_into userId pattern category debit credit rules = Some rules' ->
  (forall k, In k (map rule_key rules') ->
             In k (map rule_key rules) \/ k = (userId, pattern))
  /\ (NoDup (map rule_key rules) -> NoDup (map rule_key rules')).
Proof.
  revert rules'. induction rules as [|r rest IH]; intros rules';
    cbn [upsert_into].
  - intros E. injection E as <-. cbn. split.
    + intros k [<-|[]]. auto.
    + intros _. constructor; [intros []|constructor].
  - destruct (same_key userId pattern r) eqn:Ek.
    + destruct (Z.leb (rule_hit_count r + 1) int_max); [|discriminate].
      intros E. injection E as <-. apply same_key_iff in Ek.
      cbn [map]. change (rule_key (mkRule userId pattern category debit credit
                                          (rule_hit_count r + 1)))
        with (userId, pattern). rewrite <- Ek. split; auto.
    + destruct (upsert_into userId pattern category debit credit rest)
        as [rest'|]; [|discriminate].
      intros E. injection E as <-.
      destruct (IH rest' eq_refl) as [Hk Hn]. cbn [map]. split.
      * intros k [<-|Hin]; [left; left; reflexivity|].
        destruct (Hk k Hin); [left; right; assumption|auto].
      * intros Hnd. inversion Hnd as [|? ? Hnot Hnd']; subst.
        constructor; [|auto].
        intros Hin. destruct (Hk _ Hin) as [H|H]; [contradiction|].
        apply same_key_iff in H. congruence.
Qed.

Lemma learn_keys userId s rules :
  NoDup (map rule_key rules) -> NoDup (map rule_key (learn userId s rules)).
Proof.
  intros Hnd. unfold learn, upsert_rule.
  destruct (st_description s) as [description|]; [|exact Hnd].
  destruct (truthy description
            && negb (js_eq (st_suggested_category s) Uncategorized));
    [|exact Hnd].
  destruct (3 <=? length (rule_pattern_of description))%nat; [|exact Hnd].
  destruct ((length (rule_pattern_of description) <=? 500)%nat
            && fits 100 (st_suggested_category s)); [|exact Hnd].
  destruct (upsert_into userId (rule_pattern_of description)
              (st_suggested_category s) (st_suggested_debit_account_id s)
              (st_suggested_credit_account_id s) rules) as [rules'|] eqn:E;
    [|exact Hnd].
  apply (upsert_into_keys _ _ _ _ _ _ E). exact Hnd.
Qed.

Lemma confirm_rows_keys us accs userId rows :
  forall p,
    NoDup (map rule_key (p_rules p)) ->
    NoDup (map rule_key (p_rules (confirm_rows us accs userId rows p))).
Proof.
  unfold confirm_rows. induction rows as [|s rest IH]; intros p Hp;
    cbn [fold_left]; [exact Hp|].
  apply IH. unfold confirm_row.
  destruct (st_suggested_debit_account_id s) as [debit|];
    [destruct (st_suggested_credit_account_id s) as [credit|]|];
    try exact Hp.
  destruct (is_duplicate (p_transactions p) userId s); [exact Hp|].
  destruct (insert_transaction us accs userId s debit credit);
    [|exact Hp].
  cbn [p_rules]. apply learn_keys. exact Hp.
Qed.

(** X18.  No route breaks the key of the rule corpus: when no two rules
    have the same owner and pattern before a request, none have afterwards;
    learning changes the rule that has the key or adds one with a key that
    was not there. *)
Theorem rule_keys_stay_unique userId (r : request) d :
  NoDup (map rule_key (category_rules d)) ->
  NoDup (map rule_key (category_rules (snd (handle userId r d)))).
Proof.
  intros Hnd. destruct r as [b|id body|ids body|b|b|]; cbn [handle].
  - exact Hnd.
  - destruct (no_fields body); [exact Hnd|].
    destruct (filter (targets id userId) (staged_transactions d));
      [exact Hnd|].
    destruct (accepted body); exact Hnd.
  - destruct ids as [|id ids]; [exact Hnd|].
    destruct body as [u|]; [|exact Hnd].
    destruct (fold_left (bulk_step userId (edit_of u)) (id :: ids)
                        (0%nat, staged_transactions d)) as [n rows].
    exact Hnd.
  - unfold confirm.
    destruct (to_confirm userId b d) as [|s0 rows]; [exact Hnd|].
    cbn [snd category_rules]. apply confirm_rows_keys. exact Hnd.
  - exact Hnd.
  - exact Hnd.
Qed.

Local Close Scope Z_scope.

Local Open Scope Z_scope.

(** ** Review routes *)

Lemma staged_le_total (a b : staged_transaction) :
  staged_le a b = false -> staged_le b a = true.
Proof.
  unfold staged_le.
  destruct (st_date a) as [p|], (st_date b) as [q|]; try discriminate;
    try reflexivity.
  - destruct (Z.eqb_spec p q) as [E|E]; destruct (Z.eqb_spec q p) as [E'|E'];
      try congruence; intros H; apply Z.leb_gt in H; apply Z.leb_le; lia.
  - intros H; apply Z.leb_gt in H; apply Z.leb_le; lia.
Qed.

Lemma staged_le_trans (a b c : staged_transaction) :
  staged_le a b = true -> staged_le b c = true -> staged_le a c = true.
Proof.
  unfold staged_le.
  destruct (st_date a) as [p|], (st_date b) as [q|], (st_date c) as [r|];
    try discriminate; try reflexivity.
  - destruct (Z.eqb_spec p q); destruct (Z.eqb_spec q r);
      destruct (Z.eqb_spec p r); rewrite ?Z.leb_le; lia.
  - rewrite !Z.leb_le. lia.
Qed.

Lemma staged_le_listed_before (a b : staged_transaction) :
  staged_le a b = true -> listed_before a b.
Proof.
  unfold staged_le, listed_before.
  destruct (st_date a) as [p|], (st_date b) as [q|]; try discriminate; auto.
  - destruct (Z.eqb_spec p q); rewrite Z.leb_le; lia.
  - rewrite Z.leb_le. auto.
Qed.

Lemma v_row_join_accounts (accs : list account) (l : list staged_transaction) :
  map v_row (map (join_accounts accs) l) = l.
Proof.
  rewrite map_map. cbn [join_accounts v_row]. apply map_id.
Qed.

(** X19.  GET /staged lists each pending row of the caller (of the batch,
    when one is given) exactly once and no other row, ordered by date and
    then by id, rows without a date last; every row comes with the name and
    type of the accounts that its suggestion names, if they exist. *)
Theorem staged_listing_is_the_pending_rows_in_order userId batch_id d :
  let listed := list_staged userId batch_id d in
  Permutation
    (map v_row listed)
    (filter (fun s => N.eqb (st_user_id s) userId
                      && js_eq (st_status s) pending
                      && in_batch batch_id s)
            (staged_transactions d))
  /\ StronglySorted listed_before (map v_row listed)
  /\ Forall (fun v => v = join_accounts (accounts d) (v_row v)) listed.
Proof.
  cbn zeta. unfold list_staged. rewrite v_row_join_accounts.
  split; [|split].
  - rewrite sort_by_perm. unfold owned_by.
    erewrite filter_ext; [reflexivity|].
    intros s. cbn beta. destruct (st_status s); reflexivity.
  - eapply StronglySorted_ind with
      (P := fun l => StronglySorted listed_before l).
    3: apply (@sort_by_sorted _ staged_le staged_le_total staged_le_trans).
    + constructor.
    + intros a l _ IH Ha. constructor; [exact IH|].
      eapply Forall_impl; [|exact Ha]. intros b. apply staged_le_listed_before.
  - apply Forall_forall. intros v Hv. apply in_map_iff in Hv.
    destruct Hv as (s & <- & _). reflexivity.
Qed.

(** X20.  The status decides what a row takes part in.  A row of the
    caller whose status is neither 'pending' nor 'rejected' is left out of
    the listing and is selected by Confirm all the same; a row whose status
    was set to [NULL] is neither listed nor selected, and a Confirm without
    a batch, which removes the rows that are not rejected, leaves it in the
    table. *)
Theorem status_decides_listing_and_confirmation userId batch_id d s :
  In s (staged_transactions d) ->
  st_user_id s = userId ->
  in_batch batch_id s = true ->
  (forall v, st_status s = Some v -> v <> pending -> v <> rejected ->
             ~ In s (map v_row (list_staged userId batch_id d))
             /\ In s (to_confirm userId batch_id d))
  /\ (st_status s = None ->
      ~ In s (map v_row (list_staged userId batch_id d))
      /\ ~ In s (to_confirm userId batch_id d)
      /\ (given batch_id = None ->
          In s (staged_transactions (snd (confirm userId batch_id d))))).
Proof.
  intros Hin Hu Hb.
  assert (Ho : owned_by userId s = true) by (apply N.eqb_eq; exact Hu).
  assert (Hlist : In s (map v_row (list_staged userId batch_id d)) ->
                  st_status s = Some pending).
  { unfold list_staged. rewrite v_row_join_accounts. intros H.
    apply sort_by_In in H. apply filter_In in H. destruct H as [_ H].
    apply andb_true_iff in H. destruct H as [H _].
    apply andb_true_iff in H. destruct H as [_ H].
    destruct (st_status s) as [v|]; [|discriminate].
    cbn [sql_eq] in H. apply str_eqb_eq in H. congruence. }
  split.
  - intros v Hv Hp Hr. split.
    + intros H. apply Hlist in H. congruence.
    + unfold to_confirm. apply filter_In. split; [exact Hin|].
      rewrite Ho, Hb. unfold not_rejected. rewrite Hv. cbn [sql_neq andb].
      destruct (str_eqb v rejected) eqn:E; [|reflexivity].
      apply str_eqb_eq in E. contradiction.
  - intros Hnull. split; [|split].
    + intros H. apply Hlist in H. congruence.
    + intros H. unfold to_confirm in H. apply filter_In in H.
      destruct H as [_ H]. unfold not_rejected in H. rewrite Hnull in H.
      cbn [sql_neq] in H. rewrite andb_false_r in H. discriminate.
    + intros Hg. unfold confirm.
      destruct (to_confirm userId batch_id d); [exact Hin|].
      cbn [snd staged_transactions]. unfold after_confirm. rewrite Hg.
      apply filter_In. split; [exact Hin|].
      unfold not_rejected. rewrite Hnull. cbn [sql_neq].
      rewrite andb_false_r. reflexivity.
Qed.

Local Close Scope Z_scope.

Local Open Scope Z_scope.

(** ** Clearing and editing *)

Lemma filter_none (A : Type) (f : A -> bool) (l : list A) :
  (forall x, In x l -> f x = false) -> filter f l = [].
Proof.
  induction l as [|a t IH]; intros H; cbn [filter]; [reflexivity|].
  rewrite (H a (or_introl eq_refl)). apply IH. intros x Hx. apply H.
  right. exact Hx.
Qed.

Lemma in_batch_given (batch_id : option str) (s : staged_transaction) :
  in_batch (given batch_id) s = in_batch batch_id s.
Proof.
  unfold in_batch. destruct batch_id as [[|c b]|]; reflexivity.
Qed.

(** X21.  DELETE /staged removes the rows of the caller, those of the
    batch when one is given and all of them otherwise, rejected rows
    included, and nothing else; afterwards the listing with the same
    argument is empty and a Confirm with the same argument answers 400. *)
Theorem clear_leaves_nothing_to_review_or_confirm userId batch_id d :
  let d' := snd (handle userId (DeleteStaged batch_id) d) in
  (forall s, In s (staged_transactions d') <->
             In s (staged_transactions d)
             /\ (st_user_id s <> userId \/ in_batch batch_id s = false))
  /\ handle userId (GetStaged batch_id) d' = (StagedRows [], d')
  /\ handle userId (PostConfirm batch_id) d' = (Failure 400, d')
  /\ transactions d' = transactions d
  /\ category_rules d' = category_rules d
  /\ accounts d' = accounts d.
Proof.
  cbn zeta. cbn [handle snd].
  cbn [with_staged staged_transactions transactions category_rules accounts].
  set (kept := filter (fun s => negb (owned_by userId s && in_batch batch_id s))
                      (staged_transactions d)).
  assert (Hkept : forall s, In s kept ->
                            owned_by userId s && in_batch batch_id s = false).
  { intros s Hs. apply filter_In in Hs. destruct Hs as [_ Hs].
    apply negb_true_iff in Hs. exact Hs. }
  split; [|split; [|split; [|auto]]].
  - intros s. unfold kept. rewrite filter_In, negb_true_iff, andb_false_iff.
    unfold owned_by. rewrite N.eqb_neq. reflexivity.
  - unfold list_staged. cbn [with_staged staged_transactions accounts].
    rewrite filter_none; [reflexivity|].
    intros s Hs. specialize (Hkept s Hs).
    destruct (owned_by userId s); [|reflexivity].
    cbn [andb] in Hkept. rewrite Hkept. apply andb_false_r.
  - unfold confirm, to_confirm.
    cbn [with_staged staged_transactions].
    rewrite filter_none; [reflexivity|].
    intros s Hs. specialize (Hkept s Hs).
    destruct (owned_by userId s); [|reflexivity].
    cbn [andb] in Hkept. rewrite Hkept. apply andb_false_r.
Qed.

Lemma bulk_frame userId e ids :
  forall n rows,
    map fixed_columns (snd (fold_left (bulk_step userId e) ids (n, rows)))
    = map fixed_columns rows.
Proof.
  induction ids as [|id rest IH]; intros n rows; cbn [fold_left];
    [reflexivity|].
  unfold bulk_step at 2.
  destruct (no_fields e); [apply IH|].
  destruct (existsb (targets id userId) rows && negb (accepted e));
    [apply IH|].
  rewrite IH. unfold update_staged. rewrite map_map. apply map_ext.
  intros s. destruct (targets id userId s); reflexivity.
Qed.

Lemma bulk_described userId u ids :
  forall n rows,
    map described_amount
        (snd (fold_left (bulk_step userId (edit_of u)) ids (n, rows)))
    = map described_amount rows.
Proof.
  induction ids as [|id rest IH]; intros n rows; cbn [fold_left];
    [reflexivity|].
  unfold bulk_step at 2.
  destruct (no_fields (edit_of u)); [apply IH|].
  destruct (existsb (targets id userId) rows && negb (accepted (edit_of u)));
    [apply IH|].
  rewrite IH. unfold update_staged. rewrite map_map. apply map_ext.
  intros s. destruct (targets id userId s); reflexivity.
Qed.

(** X22.  No edit adds or removes a staged row, and none changes the id,
    the owner, the batch, the date, the balance, the confidence or the
    source file of a row; the bulk edit cannot change the description or
    the amount either. *)
Theorem edits_keep_the_fixed_columns userId d :
  (forall id body,
     map fixed_columns
         (staged_transactions (snd (handle userId (PutStaged id body) d)))
     = map fixed_columns (staged_transactions d))
  /\ (forall ids body,
        let d' := snd (handle userId (PutStagedBulk ids body) d) in
        map fixed_columns (staged_transactions d')
        = map fixed_columns (staged_transactions d)
        /\ map described_amount (staged_transactions d')
           = map described_amount (staged_transactions d)).
Proof.
  split.
  - intros id body. cbn [handle].
    destruct (no_fields body); [reflexivity|].
    destruct (filter (targets id userId) (staged_transactions d))
      as [|s0 found]; [reflexivity|].
    destruct (accepted body); [|reflexivity].
    cbn [snd with_staged staged_transactions].
    unfold update_staged. rewrite map_map. apply map_ext.
    intros s. destruct (targets id userId s); reflexivity.
  - intros ids body. cbn zeta. cbn [handle].
    destruct ids as [|id ids]; [auto|].
    destruct body as [u|]; [|auto].
    pose proof (bulk_frame userId (edit_of u) (id :: ids) 0%nat
                           (staged_transactions d)) as H1.
    pose proof (bulk_described userId u (id :: ids) 0%nat
                               (staged_transactions d)) as H2.
    destruct (fold_left (bulk_step userId (edit_of u)) (id :: ids)
                        (0%nat, staged_transactions d)) as [n rows].
    cbn [snd with_staged staged_transactions] in *. auto.
Qed.




(** X24.  Only Confirm writes the ledger and the rule corpus, and it only
    appends to the ledger; the listing routes change nothing; no route
    changes the accounts or the users. *)
Theorem only_confirm_writes_the_ledger userId (r : request) d :
  let d' := snd (handle userId r d) in
  users d' = users d /\ accounts d' = accounts d
  /\ (exists new, transactions d' = transactions d ++ new)
  /\ match r with
     | PostConfirm _ => True
     | GetStaged _ | GetRules => d' = d
     | _ => transactions d' = transactions d
            /\ category_rules d' = category_rules d
     end.
Proof.
  cbn zeta.
  assert (Hnil : exists new : list ledger_transaction,
             transactions d = transactions d ++ new)
    by (exists []; rewrite app_nil_r; reflexivity).
  destruct r as [b|id body|ids body|b|b|]; cbn [handle snd].
  - auto.
  - destruct (no_fields body); [auto|].
    destruct (filter (targets id userId) (staged_transactions d)); [auto|].
    destruct (accepted body); cbn [snd]; auto.
  - destruct ids as [|id ids]; [auto|].
    destruct body as [u|]; [|auto].
    destruct (fold_left (bulk_step userId (edit_of u)) (id :: ids)
                        (0%nat, staged_transactions d)) as [n rows].
    cbn [snd]. auto.
  - unfold confirm.
    destruct (to_confirm userId b d) as [|s0 rows]; [auto|].
    cbn [snd users accounts transactions].
    destruct (confirm_rows_counts (users d) (accounts d) userId (s0 :: rows)
                (mkProgress (transactions d) (category_rules d) 0 0 []))
      as (_ & new & H & _).
    cbn zeta in H. cbn [p_transactions] in H. eauto.
  - auto.
  - auto.
Qed.

Local Close Scope Z_scope.

(** ** From a learned rule back to its description *)

Lemma alpha_not_space (c : char) : is_alpha c = true -> is_space c = false.
Proof. intros H. char_arith. Qed.

Lemma split_ws_from_word (w : str) :
  Forall (fun c => is_alpha c = true) w ->
  forall cur insep rest,
    w <> [] ->
    split_ws_from cur insep (w ++ rest)
    = split_ws_from (rev w ++ cur) false rest.
Proof.
  induction 1 as [|c t Hc _ IH]; intros cur insep rest Hne; [congruence|].
  cbn [app split_ws_from]. rewrite (alpha_not_space _ Hc).
  destruct t as [|c' t'].
  - reflexivity.
  - rewrite IH by discriminate. cbn [rev]. rewrite <- !app_assoc.
    reflexivity.
Qed.

Lemma join_cons (sep a b : str) (t : list str) :
  join sep (a :: b :: t) = a ++ sep ++ join sep (b :: t).
Proof. reflexivity. Qed.

Lemma split_ws_from_join (words : list str) :
  Forall alphabetic_token words ->
  words <> [] ->
  forall insep,
    split_ws_from [] insep (join (lit " ") words) = words.
Proof.
  induction 1 as [|w ws [Hl Hw] Hws IH]; intros Hne insep; [congruence|].
  assert (Hwne : w <> []) by (destruct w; [cbn in Hl; lia|discriminate]).
  destruct ws as [|w' ws'].
  - cbn [join]. rewrite <- (app_nil_r w) at 1.
    rewrite split_ws_from_word by assumption.
    cbn [split_ws_from]. rewrite app_nil_r, rev_involutive. reflexivity.
  - rewrite join_cons. rewrite split_ws_from_word by assumption.
    change (lit " " ++ join (lit " ") (w' :: ws'))
      with (32%N :: join (lit " ") (w' :: ws')).
    cbn [split_ws_from]. change (is_space 32%N) with true. cbv iota.
    rewrite app_nil_r, rev_involutive. f_equal.
    apply IH. discriminate.
Qed.

Lemma join_chars (words : list str) :
  Forall alphabetic_token words ->
  Forall (fun c => is_alpha c || is_space c = true) (join (lit " ") words).
Proof.
  induction 1 as [|w ws [_ Hw] _ IH]; [constructor|].
  assert (Hw' : Forall (fun c => is_alpha c || is_space c = true) w).
  { eapply Forall_impl; [|exact Hw]. intros c Hc. rewrite Hc. reflexivity. }
  destruct ws as [|w' ws']; [exact Hw'|].
  rewrite join_cons. apply Forall_app. split; [exact Hw'|].
  change (lit " " ++ join (lit " ") (w' :: ws'))
    with (32%N :: join (lit " ") (w' :: ws')).
  constructor; [reflexivity|exact IH].
Qed.

Lemma join_ends (words : list str) :
  Forall alphabetic_token words ->
  words <> [] ->
  match join (lit " ") words with
  | [] => False
  | c :: _ => is_space c = false
  end
  /\ match rev (join (lit " ") words) with
     | [] => False
     | c :: _ => is_space c = false
     end.
Proof.
  induction 1 as [|w ws [Hl Hw] Hws IH]; intros Hne; [congruence|].
  assert (Hhead : match w with [] => False | c :: _ => is_space c = false end).
  { destruct w as [|c t]; [cbn in Hl; lia|].
    inversion Hw; subst. apply alpha_not_space. assumption. }
  assert (Hlast : match rev w with [] => False | c :: _ => is_space c = false end).
  { assert (Hr : Forall (fun c => is_alpha c = true) (rev w))
      by (apply Forall_rev; exact Hw).
    destruct (rev w) as [|c t] eqn:E.
    - apply (f_equal (@length _)) in E. rewrite length_rev in E.
      cbn in E. lia.
    - inversion Hr; subst. apply alpha_not_space. assumption. }
  destruct ws as [|w' ws']; [cbn [join]; auto|].
  rewrite join_cons. split.
  - destruct w; [contradiction|exact Hhead].
  - rewrite !rev_app_distr.
    destruct (IH ltac:(discriminate)) as [_ Hl'].
    destruct (rev (join (lit " ") (w' :: ws'))); [contradiction|exact Hl'].
Qed.

Lemma rule_words_of_plain_words (words : list str) :
  Forall alphabetic_token words ->
  words <> [] ->
  rule_words (join (lit " ") words) = words.
Proof.
  intros Hw Hne. unfold rule_words.
  assert (Hmap : map (fun c => if is_alpha c || is_space c then c else 32%N)
                     (join (lit " ") words) = join (lit " ") words).
  { pose proof (join_chars Hw) as Hc.
    induction Hc as [|c t Hc _ IH]; cbn [map]; [reflexivity|].
    rewrite Hc, IH. reflexivity. }
  rewrite Hmap.
  destruct (join_ends Hw Hne) as [Hh Hl].
  rewrite trim_fixed.
  - unfold split_ws. rewrite split_ws_from_join by assumption.
    clear Hne Hmap Hh Hl.
    induction Hw as [|w ws [Hl _] _ IH]; cbn [filter]; [reflexivity|].
    apply Nat.ltb_lt in Hl. rewrite Hl, IH. reflexivity.
  - destruct (join (lit " ") words); [exact I|exact Hh].
  - destruct (rev (join (lit " ") words)); [exact I|exact Hl].
Qed.

Lemma join_firstn_prefix (sep : str) (l : list str) :
  forall n, exists rest, join sep l = join sep (firstn n l) ++ rest.
Proof.
  induction l as [|a t IH]; intros n.
  - exists []. destruct n; reflexivity.
  - destruct n as [|n]; [exists (join sep (a :: t)); reflexivity|].
    cbn [firstn]. destruct t as [|b t'].
    + exists []. rewrite app_nil_r. destruct n; reflexivity.
    + rewrite join_cons. destruct n as [|n].
      * cbn [firstn join]. eexists. reflexivity.
      * destruct (IH (S n)) as (rest & E). cbn [firstn] in E |- *.
        rewrite join_cons, E. exists rest. rewrite <- !app_assoc.
        reflexivity.
Qed.

Lemma lower_char_idempotent (c : char) : lower_char (lower_char c) = lower_char c.
Proof.
  unfold lower_char. destruct (is_upper c) eqn:E; [|rewrite E; reflexivity].
  assert (H : is_upper (c + 32)%N = false).
  { unfold is_upper, in_range in *. apply andb_true_iff in E.
    destruct E as [E1 E2]. apply N.leb_le in E1, E2.
    apply andb_false_iff. right. apply N.leb_gt. lia. }
  rewrite H. reflexivity.
Qed.

Lemma toLowerCase_idempotent (s : str) :
  toLowerCase (toLowerCase s) = toLowerCase s.
Proof.
  unfold toLowerCase. rewrite map_map. apply map_ext.
  apply lower_char_idempotent.
Qed.

Local Open Scope Z_scope.

Lemma upsert_into_holds_key userId pattern category debit credit rules :
  exists r,
    In r match upsert_into userId pattern category debit credit rules with
         | Some rules' => rules'
         | None => rules
         end
    /\ rule_user_id r = userId /\ rule_pattern r = pattern.
Proof.
  induction rules as [|r rest (r' & Hin & Hu & Hp)]; cbn [upsert_into].
  - eexists. split; [left; reflexivity|]. auto.
  - destruct (same_key userId pattern r) eqn:Ek.
    + destruct (Z.leb (rule_hit_count r + 1) int_max).
      * eexists. split; [left; reflexivity|]. auto.
      * exists r. split; [left; reflexivity|].
        apply same_key_iff in Ek. injection Ek. auto.
    + destruct (upsert_into userId pattern category debit credit rest);
        exists r'; (split; [right; exact Hin|auto]).
Qed.

(** X25.  A rule learned from a description made of words of three letters
    or more, separated by single spaces, recognises that description: after
    the row is learned, the corpus holds a rule of the owner whose pattern
    is the first four words in lower case, and that pattern is contained in
    the lower-cased description, so the next classification of the same
    description is made by a learned rule of the owner. *)
Theorem a_learned_description_is_recognised
        userId (s : staged_transaction) (words : list str)
        (rules : list category_rule) :
  words <> [] ->
  Forall alphabetic_token words ->
  st_description s = Some (join (lit " ") words) ->
  st_suggested_category s <> Some Uncategorized ->
  fits 100 (st_suggested_category s) = true ->
  (length (join (lit " ") (firstn 4 words)) <= 500)%nat ->
  (exists r,
     In r (learn userId s rules)
     /\ rule_user_id r = userId
     /\ rule_pattern r = toLowerCase (join (lit " ") (firstn 4 words))
     /\ rule_matches (toLowerCase (join (lit " ") words)) r = true)
  /\ forall d,
       category_rules d = learn userId s rules ->
       find (rule_matches (toLowerCase (join (lit " ") words)))
            (rules_of d userId) <> None.
Proof.
  intros Hne Hw Hdesc Hcat Hfits Hlen.
  assert (Hwords : rule_words (join (lit " ") words) = words)
    by (apply rule_words_of_plain_words; assumption).
  assert (Hpat : rule_pattern_of (join (lit " ") words)
                 = toLowerCase (join (lit " ") (firstn 4 words))).
  { unfold rule_pattern_of. rewrite Hwords. reflexivity. }
  assert (Hex : exists r,
             In r (learn userId s rules)
             /\ rule_user_id r = userId
             /\ rule_pattern r = toLowerCase (join (lit " ") (firstn 4 words))
             /\ rule_matches (toLowerCase (join (lit " ") words)) r = true).
  { rewrite (@learn_upserts userId s (join (lit " ") words) rules Hdesc Hcat)
      by (rewrite Hwords; exact Hne).
    unfold upsert_rule. rewrite Hpat, Hfits.
    unfold toLowerCase at 1. rewrite length_map.
    apply Nat.leb_le in Hlen. rewrite Hlen. cbn [andb].
    destruct (upsert_into_holds_key userId
                (toLowerCase (join (lit " ") (firstn 4 words)))
                (st_suggested_category s) (st_suggested_debit_account_id s)
                (st_suggested_credit_account_id s) rules)
      as (r & Hin & Hu & Hp).
    exists r. repeat split; auto.
    unfold rule_matches. rewrite Hp, toLowerCase_idempotent.
    apply includes_iff.
    destruct (join_firstn_prefix (lit " ") words 4) as (rest & E).
    exists [], (toLowerCase rest). cbn [app]. rewrite E at 1.
    unfold toLowerCase. apply map_app. }
  split; [exact Hex|].
  intros d Hd Hnone. destruct Hex as (r & Hin & Hu & _ & Hm).
  apply find_none_forall in Hnone. rewrite Forall_forall in Hnone.
  assert (Hr : In r (rules_of d userId))
    by (apply rules_of_In; rewrite Hd; auto).
  rewrite (Hnone r Hr) in Hm. discriminate.
Qed.

Local Close Scope Z_scope.

(** ** The upload route *)

Section Uploads.

Variable nativeDate : str -> option str.
Variable to_date : str -> option date.
Variable to_money : num -> option money.
Variable to_confidence : Q -> option Z.
Variable serial : nat -> Z.

Lemma stage_row_fresh userId batchId name id c s :
  stage_row to_date to_money to_confidence userId batchId name id c = Some s ->
  freshly_staged userId batchId name s.
Proof.
  unfold stage_row.
  destruct ((length batchId <=? 50)%nat && fits 100 (suggested_category c)
            && (length name <=? 255)%nat); [|discriminate].
  destruct (to_date (Pdf.date (tx c))) as [dt|]; [|discriminate].
  destruct (to_money (amount (tx c))) as [a|]; [|discriminate].
  destruct (match balance (tx c) with
            | Some b => option_map Some (to_money b)
            | None => Some None
            end) as [b|]; [|discriminate].
  destruct (to_confidence (confidence c)) as [cf|]; [|discriminate].
  intros E. injection E as <-. unfold freshly_staged. cbn.
  repeat split; discriminate.
Qed.

Lemma stage_from_appends userId batchId name cs :
  forall i acc,
    exists new,
      stage_from to_date to_money to_confidence serial i userId batchId name
                 cs acc
      = ((fst acc + length new)%nat, snd acc ++ new)
      /\ (length new <= length cs)%nat
      /\ Forall (freshly_staged userId batchId name) new.
Proof.
  induction cs as [|c rest IH]; intros i acc; cbn [stage_from].
  - exists []. cbn [length]. rewrite Nat.add_0_r, app_nil_r.
    destruct acc. repeat split; auto.
  - destruct (stage_row to_date to_money to_confidence userId batchId name
                        (serial i) c) as [s|] eqn:Es.
    + destruct (IH (S i) (S (fst acc), snd acc ++ [s])) as (new & E & Hl & Hf).
      exists (s :: new). rewrite E. cbn [fst snd length].
      rewrite <- app_assoc. cbn [app]. repeat split.
      * f_equal. lia.
      * lia.
      * constructor; [|exact Hf]. eapply stage_row_fresh. exact Es.
    + destruct (IH (S i) acc) as (new & E & Hl & Hf).
      exists new. rewrite E. split; [reflexivity|].
      split; [cbn [length]; lia|exact Hf].
Qed.

Lemma traverse_length (A B : Type) (f : A -> option B) (l : list A)
      (out : list B) :
  traverse f l = Some out -> length out = length l.
Proof.
  intros H. apply traverse_Forall2 in H. symmetry.
  eapply Forall2_length. exact H.
Qed.

(** The rows that a successful upload adds. *)
Lemma upload_staged_rows userId (batchId : str) (r : upload_request) d
      (total_parsed total_staged : nat) :
  fst (upload nativeDate to_date to_money to_confidence serial
              userId batchId r d) = Staged total_parsed total_staged ->
  exists name new,
    staged_transactions
      (snd (upload nativeDate to_date to_money to_confidence serial
                   userId batchId r d))
    = staged_transactions d ++ new
    /\ length new = total_staged
    /\ Forall (freshly_staged userId batchId name) new.
Proof.
  unfold upload.
  destruct (file r) as [[name c]|]; [|discriminate].
  destruct (parse nativeDate c) as [[|t ts]|]; try discriminate.
  destruct (autoClassify d userId (t :: ts) (source_account_id r))
    as [classified|]; [|discriminate].
  destruct (stage_from_appends userId batchId name classified 0%nat
              (0%nat, staged_transactions d)) as (new & E & _ & Hf).
  rewrite E. cbn [fst snd with_staged staged_transactions Nat.add].
  intros H. exists name, new. split; [reflexivity|].
  split; [congruence|exact Hf].
Qed.

(** X26.  An upload that succeeds has found at least one transaction and
    stages at most as many rows as it parsed.  The rows are added after the
    rows already staged, which stay as they are; each new row belongs to the
    caller and to the batch of the request, is pending, names the uploaded
    file and has a date, an amount and a description.  The ledger, the rule
    corpus, the accounts and the users are not written.  An upload that is
    refused changes nothing. *)
Theorem upload_stages_pending_rows_of_the_caller
        userId (batchId : str) (r : upload_request) d :
  let out := upload nativeDate to_date to_money to_confidence serial
                    userId batchId r d in
  match fst out with
  | Staged total_parsed total_staged =>
      (0 < total_parsed)%nat /\ (total_staged <= total_parsed)%nat
      /\ exists name c new,
           file r = Some (name, c)
           /\ option_map (@length _) (parse nativeDate c) = Some total_parsed
           /\ staged_transactions (snd out) = staged_transactions d ++ new
           /\ length new = total_staged
           /\ Forall (freshly_staged userId batchId name) new
           /\ transactions (snd out) = transactions d
           /\ category_rules (snd out) = category_rules d
           /\ accounts (snd out) = accounts d
           /\ users (snd out) = users d
  | UploadFailure _ => snd out = d
  end.
Proof.
  cbn zeta. unfold upload.
  destruct (file r) as [[name c]|]; [|reflexivity].
  destruct (parse nativeDate c) as [[|t ts]|] eqn:Ep; try reflexivity.
  destruct (autoClassify d userId (t :: ts) (source_account_id r))
    as [classified|] eqn:Ec; [|reflexivity].
  destruct (stage_from_appends userId batchId name classified 0%nat
              (0%nat, staged_transactions d)) as (new & E & Hl & Hf).
  rewrite E. cbn [fst snd with_staged staged_transactions transactions
                  category_rules accounts users].
  unfold autoClassify in Ec. apply traverse_length in Ec.
  rewrite Ec in Hl. cbn [length] in *.
  split; [lia|]. split; [lia|].
  exists name, c, new. rewrite Ep. cbn [option_map length].
  repeat split; auto.
Qed.

(** X27.  What an upload reports as staged is what the batch then holds
    for review: when the batch name is not empty and new to the caller, the
    listing of that batch has exactly [total_staged] rows, and Confirm of
    that batch selects exactly as many. *)
Theorem uploaded_rows_are_what_the_batch_lists
        userId (batchId : str) (r : upload_request) d
        (total_parsed total_staged : nat) :
  let out := upload nativeDate to_date to_money to_confidence serial
                    userId batchId r d in
  fst out = Staged total_parsed total_staged ->
  batchId <> [] ->
  (forall s, In s (staged_transactions d) -> st_user_id s = userId ->
             st_batch_id s <> batchId) ->
  length (list_staged userId (Some batchId) (snd out)) = total_staged
  /\ length (to_confirm userId (Some batchId) (snd out)) = total_staged.
Proof.
  cbn zeta. intros Hout Hb Hfresh.
  destruct (upload_staged_rows userId batchId r d Hout)
    as (name & new & Hst & Hlen & Hnew).
  assert (Hin : forall s, in_batch (Some batchId) s
                          = str_eqb (st_batch_id s) batchId).
  { intros s. unfold in_batch. destruct batchId; [congruence|reflexivity]. }
  assert (Hold : forall f : staged_transaction -> bool,
             filter (fun s => owned_by userId s && f s
                              && in_batch (Some batchId) s)
                    (staged_transactions d) = []).
  { intros f. apply filter_none. intros s Hs. rewrite Hin.
    destruct (owned_by userId s) eqn:Eo; [|reflexivity].
    apply N.eqb_eq in Eo.
    destruct (str_eqb (st_batch_id s) batchId) eqn:Eb;
      [|apply andb_false_r].
    apply str_eqb_eq in Eb. exfalso. exact (Hfresh s Hs Eo Eb). }
  assert (Hall : forall f : staged_transaction -> bool,
             (forall s, st_status s = Some pending -> f s = true) ->
             forall l,
               Forall (freshly_staged userId batchId name) l ->
               filter (fun s => owned_by userId s && f s
                                && in_batch (Some batchId) s) l = l).
  { intros f Hf l Hl.
    induction Hl as [|s rest (Hu & Hbt & Hp & _) _ IH]; cbn [filter];
      [reflexivity|].
    rewrite Hin.
    assert (E1 : owned_by userId s = true) by (apply N.eqb_eq; exact Hu).
    assert (E2 : str_eqb (st_batch_id s) batchId = true)
      by (apply str_eqb_eq; exact Hbt).
    rewrite E1, E2, (Hf s Hp). cbn [andb]. rewrite IH. reflexivity. }
  split.
  - unfold list_staged. rewrite length_map, Hst, filter_app.
    rewrite (Permutation_length (sort_by_perm staged_le _)).
    rewrite (Hold (fun s => sql_eq str_eqb (st_status s) (Some pending))).
    rewrite Hall; [exact Hlen| |exact Hnew].
    intros s ->. reflexivity.
  - unfold to_confirm. rewrite Hst, filter_app.
    rewrite (Hold not_rejected).
    rewrite Hall; [exact Hlen| |exact Hnew].
    intros s Hs. unfold not_rejected. rewrite Hs. reflexivity.
Qed.

End Uploads.

(** ** Amount titles *)

Local Open Scope Z_scope.

Lemma fold_min_spec (t : list Z) :
  forall a,
    let m := fold_left Z.min t a in
    (m = a \/ In m t) /\ m <= a /\ forall v, In v t -> m <= v.
Proof.
  induction t as [|b t IH]; intros a; cbn [fold_left].
  - cbn zeta. repeat split; auto; try lia. intros v [].
  - cbn zeta. destruct (IH (Z.min a b)) as (Hin & Hle & Hall). cbn zeta in *.
    repeat split.
    + destruct Hin as [E|Hin]; [|right; right; exact Hin].
      destruct (Z.min_spec a b) as [[_ E']|[_ E']];
        [left; rewrite E; exact E'
        |right; left; rewrite E; symmetry; exact E'].
    + lia.
    + intros v [<-|Hv]; [lia|auto].
Qed.

Lemma fold_max_spec (t : list Z) :
  forall a,
    let m := fold_left Z.max t a in
    (m = a \/ In m t) /\ a <= m /\ forall v, In v t -> v <= m.
Proof.
  induction t as [|b t IH]; intros a; cbn [fold_left].
  - cbn zeta. repeat split; auto; try lia. intros v [].
  - cbn zeta. destruct (IH (Z.max a b)) as (Hin & Hle & Hall). cbn zeta in *.
    repeat split.
    + destruct Hin as [E|Hin]; [|right; right; exact Hin].
      destruct (Z.max_spec a b) as [[_ E']|[_ E']];
        [right; left; rewrite E; symmetry; exact E'
        |left; rewrite E; exact E'].
    + lia.
    + intros v [<-|Hv]; [lia|auto].
Qed.

(** X28.  In a header without a withdrawal title and without a deposit
    title, two or more amount titles stand in for them: the leftmost gives
    the withdrawal column and the rightmost the deposit column.  With fewer
    amount titles, or when one of the two columns has its title, the
    columns stay as the titles gave them. *)
Theorem amount_titles_stand_in_for_the_two_columns
        (headerItems : list item) (cm : colMap) :
  let titles := filter is_amount_title headerItems in
  (set (c_withdrawal cm) = false -> set (c_deposit cm) = false ->
   (2 <= length titles)%nat ->
   exists lo hi,
     c_withdrawal (amount_columns headerItems cm) = Some (x lo)
     /\ c_deposit (amount_columns headerItems cm) = Some (x hi)
     /\ In lo titles /\ In hi titles
     /\ forall t, In t titles -> x lo <= x t <= x hi)
  /\ (set (c_withdrawal cm) = true \/ set (c_deposit cm) = true
      \/ (length titles < 2)%nat ->
      amount_columns headerItems cm = cm).
Proof.
  cbn zeta. unfold amount_columns.
  change (filter (fun i => has (toLowerCase (text i)) "amount"
                           || has (toLowerCase (text i)) "amt") headerItems)
    with (filter is_amount_title headerItems).
  set (titles := filter is_amount_title headerItems). split.
  - intros Hw Hd Hn. rewrite Hw, Hd. cbn [negb andb].
    apply Nat.leb_le in Hn. rewrite Hn.
    cbn [c_withdrawal c_deposit].
    destruct titles as [|a t]; [discriminate|]. cbn [map minimum maximum].
    destruct (fold_min_spec (map x t) (x a)) as (Hmin & _ & Hminall).
    destruct (fold_max_spec (map x t) (x a)) as (Hmax & _ & Hmaxall).
    cbn zeta in *.
    assert (Hlo : exists lo, In lo (a :: t)
                             /\ x lo = fold_left Z.min (map x t) (x a)).
    { destruct Hmin as [E|Hin].
      - exists a. split; [left; reflexivity|symmetry; exact E].
      - apply in_map_iff in Hin. destruct Hin as (lo & E & Hin).
        exists lo. split; [right; exact Hin|exact E]. }
    assert (Hhi : exists hi, In hi (a :: t)
                             /\ x hi = fold_left Z.max (map x t) (x a)).
    { destruct Hmax as [E|Hin].
      - exists a. split; [left; reflexivity|symmetry; exact E].
      - apply in_map_iff in Hin. destruct Hin as (hi & E & Hin).
        exists hi. split; [right; exact Hin|exact E]. }
    destruct Hlo as (lo & Hlo & Elo). destruct Hhi as (hi & Hhi & Ehi).
    destruct (fold_min_spec (map x t) (x a)) as (_ & Hmina & _).
    destruct (fold_max_spec (map x t) (x a)) as (_ & Hmaxa & _).
    cbn zeta in *.
    exists lo, hi. rewrite Elo, Ehi.
    split; [reflexivity|]. split; [reflexivity|].
    split; [exact Hlo|]. split; [exact Hhi|].
    intros t' [<-|Ht]; [lia|].
    pose proof (Hminall (x t') (in_map x t t' Ht)).
    pose proof (Hmaxall (x t') (in_map x t t' Ht)). lia.
  - intros [Hw|[Hd|Hn]].
    + rewrite Hw. reflexivity.
    + rewrite Hd. rewrite andb_false_r. reflexivity.
    + apply Nat.leb_gt in Hn. rewrite Hn.
      destruct (negb (set (c_withdrawal cm)) && negb (set (c_deposit cm)));
        reflexivity.
Qed.

(** ** The single edit *)


Local Close Scope Z_scope.

(** ** The properties at sample inputs *)

Lemma rows_witness :
  Permutation (flat_map items (textRows_of card_statement_without_header))
              (collect card_statement_without_header)
  /\ text (glyph "Date" 10 50) <> [].
Proof.
  destruct (rows_hold_every_item_once card_statement_without_header)
    as [H1 H2].
  split; [exact H1|].
  apply (H2 (glyph "Date" 10 50)). vm_compute. right. left. reflexivity.
Defined.

Lemma row_band_witness :
  (exists a, In a (items title_row) /\ Forall (in_band a) (items title_row))
  /\ StronglySorted by_x (items title_row)
  /\ rtext title_row = join double_space (map text (items title_row)).
Proof.
  apply (@row_is_a_band_ordered_by_x card_statement_without_header title_row).
  - apply Forall_forall. intros g Hg.
    repeat (destruct Hg as [<-|Hg]; [vm_compute; discriminate|]).
    destruct Hg.
  - vm_compute. right. left. reflexivity.
Defined.

Lemma closest_witness :
  exists v,
    anchor_of three_anchors Withdrawal = Some v /\ v <> 0%Z
    /\ 50%Z = Z.abs (350 - v)
    /\ forall c' v',
         anchor_of three_anchors c' = Some v' -> v' <> 0%Z ->
         (50 <= Z.abs (350 - v'))%Z
         /\ ((rank c' < rank Withdrawal)%nat -> (50 < Z.abs (350 - v'))%Z).
Proof.
  exact (proj1 (closest_is_the_nearest_anchor three_anchors 350)
               Withdrawal 50%Z eq_refl).
Defined.

Lemma pdf_candidate_witness :
  gt0 (amount refund_candidate) = true
  /\ (exists s, parseDate no_native_date s = Some (Pdf.date refund_candidate))
  /\ (headerRowIdx (textRows_of card_statement_with_header) <> None ->
      description refund_candidate <> []).
Proof.
  apply (@pdf_candidates_are_dated_and_positive no_native_date
           card_statement_with_header refund_candidate).
  vm_compute. left. reflexivity.
Defined.

Lemma line_direction_witness :
  transaction_type salary_candidate = Credit
  /\ amount salary_candidate = nth 1 (line_amounts salary_line) zero
  /\ balance salary_candidate = Some (last (line_amounts salary_line) zero).
Proof.
  assert (Hin : In salary_candidate
                   (line_candidate no_native_date (lit "generic") salary_line
                                   None))
    by (vm_compute; left; reflexivity).
  exact (@line_based_direction_off_card no_native_date (lit "generic")
           salary_line None salary_candidate eq_refl Hin).
Defined.

Lemma no_date_column_witness :
  parseCSV no_native_date export_without_date = [].
Proof.
  apply (proj2 (date_column_is_first_header_with_date no_native_date
                  export_without_date)).
  reflexivity.
Defined.

Lemma csv_candidate_witness :
  gt0 (amount coffee_from_export) = true
  /\ exists row k,
       In row bank_export
       /\ dateCol (detect (keys bank_export)) = Some k
       /\ parseDate no_native_date (or_empty (field row k))
          = Some (Pdf.date coffee_from_export)
       /\ description coffee_from_export
          = match descCol (detect (keys bank_export)) with
            | Some dk => trim (or_empty (field row dk))
            | None => []
            end.
Proof.
  apply (proj1 (csv_candidates_come_from_dated_records no_native_date
                  bank_export) coffee_from_export).
  vm_compute. left. reflexivity.
Defined.

Lemma signed_amount_witness :
  let written :=
    parseFloat (kept (or_empty (field wallet_record (lit "Amount")))) in
  isNaN written = false
  /\ is_zero written = false
  /\ amount wallet_candidate = abs written
  /\ transaction_type wallet_candidate
     = if gt0 written then Credit else Debit.
Proof.
  apply (@single_amount_column_sign no_native_date wallet_columns
           wallet_record (lit "Amount") wallet_candidate).
  - left. reflexivity.
  - reflexivity.
  - reflexivity.
  - vm_compute. left. reflexivity.
Defined.

Lemma foreign_source_witness :
  autoClassify (sample_db [] [] sample_rules) bob [coffee_candidate]
               (Some bank_account)
  = autoClassify (sample_db [] [] sample_rules) bob [coffee_candidate] None.
Proof.
  apply foreign_source_account_is_ignored. intros a Ha Hid.
  destruct Ha as [<-|[<-|[]]]; vm_compute; discriminate.
Defined.

Lemma source_account_witness :
  suggested_credit_account_id classified_coffee = Some bank_account.
Proof.
  destruct (@source_account_takes_the_open_side
              (sample_db [] [] sample_rules) alice [coffee_candidate]
              bank_account
              (mkAccount bank_account alice (lit "HDFC Savings") (lit "Asset")
                         None)
              [classified_coffee] eq_refl eq_refl) as (_ & _ & H).
  inversion H as [|? ? ? ? [_ Hc] _]; subst. exact Hc.
Defined.

Lemma confirm_accounting_witness :
  let d' := snd (confirm alice (Some b1) batch_with_rejected_db) in
  let n := length (to_confirm alice (Some b1) batch_with_rejected_db) in
  (1 + 0 + 0 <= n)%nat
  /\ ((0 < 5)%nat -> (1 + 0 + 0 = n)%nat)
  /\ exists new,
       transactions d' = transactions batch_with_rejected_db ++ new
       /\ length new = 1%nat.
Proof.
  exact (@confirm_accounts_for_every_row alice (Some b1)
           batch_with_rejected_db 1 0 [] eq_refl).
Defined.

Lemma confirm_consumes_witness :
  ~ In (staged_row 1 (Some (lit "Coffee")) 10000 "pending")
       (staged_transactions
          (snd (confirm alice (Some b1) batch_with_rejected_db)))
  /\ confirm alice (Some b1)
             (snd (confirm alice (Some b1) batch_with_rejected_db))
     = (Failure 400, snd (confirm alice (Some b1) batch_with_rejected_db)).
Proof.
  destruct (confirm_consumes_what_it_selects alice (Some b1)
              batch_with_rejected_db) as [H1 H2].
  split; [|exact H2].
  apply H1. vm_compute. left. reflexivity.
Defined.

Lemma rule_keys_witness :
  NoDup (map rule_key
             (category_rules
                (snd (handle alice (PostConfirm None)
                             (sample_db [] [plain_row] sample_rules))))).
Proof.
  apply rule_keys_stay_unique. vm_compute.
  repeat (constructor; [intros H; cbn in H; intuition discriminate|]).
  constructor.
Defined.

Lemma approved_row_witness :
  ~ In approved_row (map v_row (list_staged alice None with_approved_db))
  /\ In approved_row (to_confirm alice None with_approved_db).
Proof.
  assert (Hin : In approved_row (staged_transactions with_approved_db))
    by (vm_compute; right; left; reflexivity).
  destruct (@status_decides_listing_and_confirmation alice None
              with_approved_db approved_row Hin eq_refl eq_refl) as [H _].
  apply (H (lit "approved")).
  - reflexivity.
  - intros E. vm_compute in E. discriminate.
  - intros E. vm_compute in E. discriminate.
Defined.


Lemma learned_description_witness :
  exists r,
    In r (learn alice plain_row [])
    /\ rule_user_id r = alice
    /\ rule_pattern r
       = toLowerCase (join (lit " ") (firstn 4 [lit "Coffee"; lit "Shop"]))
    /\ rule_matches (toLowerCase (join (lit " ") [lit "Coffee"; lit "Shop"]))
                    r = true.
Proof.
  refine (proj1 (@a_learned_description_is_recognised alice plain_row
                   [lit "Coffee"; lit "Shop"] [] _ _ _ _ _ _)).
  - discriminate.
  - repeat constructor.
  - reflexivity.
  - intros E. vm_compute in E. discriminate.
  - reflexivity.
  - vm_compute. lia.
Defined.

Lemma upload_listing_witness :
  let out := upload no_native_date sample_to_date sample_to_money
                    sample_to_confidence sample_serial alice b1 sample_upload
                    (sample_db [] [] sample_rules) in
  length (list_staged alice (Some b1) (snd out)) = 1%nat
  /\ length (to_confirm alice (Some b1) (snd out)) = 1%nat.
Proof.
  apply (@uploaded_rows_are_what_the_batch_lists no_native_date sample_to_date
           sample_to_money sample_to_confidence sample_serial alice b1
           sample_upload (sample_db [] [] sample_rules) 2 1).
  - reflexivity.
  - discriminate.
  - intros s [].
Defined.

Lemma amount_titles_witness :
  let titles := filter is_amount_title header_with_two_amounts in
  exists lo hi,
    c_withdrawal (columns_of header_with_two_amounts) = Some (x lo)
    /\ c_deposit (columns_of header_with_two_amounts) = Some (x hi)
    /\ In lo titles /\ In hi titles
    /\ forall t, In t titles -> (x lo <= x t <= x hi)%Z.
Proof.
  apply (proj1 (amount_titles_stand_in_for_the_two_columns
                  header_with_two_amounts
                  (fold_left assign_column header_with_two_amounts
                             emptyColMap))).
  - reflexivity.
  - reflexivity.
  - vm_compute. lia.
Defined.
